(** * Lift-bank simulation (subsystem2.py)

    A shallow embedding of the [Lift] class (kinematic travel-time model,
    boarding/departure/arrival state machine, round-trip computation) and of
    [Simulation.step], followed by the properties of the specification.

    Conventions of the embedding.
    - Python [int] is [Z]; Python [float] is idealised as a real number [R]
      (no rounding, no infinities, no NaN).  The only float-valued result
      that involves no square root, [get_avg_floor], is kept as an exact
      rational [Q] so that it still evaluates.  Three outcomes of the code
      hinge on a float at or next to an exact boundary: the threshold test
      of [check_departure] when the boarded count equals the product
      [capacity_threshold * capacity], the tick [math.ceil(clock + rtt)]
      when the sum is next to an integer, and the order [sorted] gives two
      lifts whose keys in [assign_grouping] are equal as fractions.  The
      properties below are stated away from these boundaries, so that they
      hold whichever way the rounding falls.
    - A passenger is a Python dict; the keys [destination] and [time.start]
      are always present, every other key is absent ([None]) until the
      engine stamps it.  Reading an absent key raises [KeyError].
    - A method that mutates [self] returns the lift as it is left, together
      with the returned value or the raised exception: the mutations made
      before an exception are kept, as in Python.
    - [log] only prints; it leaves the state untouched and is omitted. *)

From Stdlib Require Import String.
From Stdlib Require Import ZArith List Bool Lia Reals Lra Psatz QArith Qabs.
From Stdlib Require Import Sorted Permutation.
Import ListNotations.
Local Open Scope Z_scope.

(** ** Python values, exceptions and results *)

Inductive exn : Type :=
| TypeError (msg : string)
| ValueError (msg : string)
| KeyError (key : string)
| IndexError (msg : string)
| ZeroDivisionError (msg : string).

Inductive result (A : Type) : Type :=
| Ok (a : A)
| Raise (e : exn).

Arguments Ok {A} a.
Arguments Raise {A} e.

Definition bind {A B : Type} (r : result A) (k : A -> result B) : result B :=
  match r with
  | Ok a => k a
  | Raise e => Raise e
  end.

Notation "x <- r ;; k" := (bind r (fun x => k))
  (at level 61, r at next level, right associativity).

(** [len(xs)] as a Python integer. *)
Definition len {A : Type} (xs : list A) : Z := Z.of_nat (length xs).

(** The arguments [set_capacity_threshold] can be called with: a float, an
    int, [None], or the type object [float] itself. *)
Inductive pyval : Type :=
| PyFloat (x : R)
| PyInt (n : Z)
| PyNone
| PyFloatType.

(** [sorted(xs, key=...)]: the stable ascending sort.  [leb k1 k2] is
    [k1 <= k2] on keys.  An element is inserted in front of the first
    element whose key is not smaller, and elements are inserted from the
    right, so equal keys keep their relative order. *)
Section Sorted.
Context {A K : Type} (key : A -> K) (leb : K -> K -> bool).

Fixpoint insert_by (x : A) (xs : list A) : list A :=
  match xs with
  | [] => [x]
  | y :: ys => if leb (key x) (key y) then x :: y :: ys
               else y :: insert_by x ys
  end.

Fixpoint sorted (xs : list A) : list A :=
  match xs with
  | [] => []
  | x :: rest => insert_by x (sorted rest)
  end.
End Sorted.

(** ** Passenger *)

Module Passenger.

Record t : Type := mk {
  destination : Z;                (* p['destination'] *)
  time_start : Z;                 (* p['time.start'] *)
  time_lobby : option Z;          (* p['time.lobby'] *)
  lift_id : option Z;             (* p['lift.id'] *)
  time_enter_lift : option Z;     (* p['time.enter_lift'] *)
  time_departure : option Z;      (* p['time.departure'] *)
  time_travelling : option R;     (* p['time.travelling'] *)
  time_arrival : option Z         (* p['time.arrival'] *)
}.

(** A traffic entry as the feed hands it over. *)
Definition new (dest start : Z) : t :=
  mk dest start None None None None None None.

Definition set_time_lobby (v : Z) (p : t) : t :=
  mk (destination p) (time_start p) (Some v) (lift_id p)
     (time_enter_lift p) (time_departure p) (time_travelling p)
     (time_arrival p).

Definition set_lift_id (v : Z) (p : t) : t :=
  mk (destination p) (time_start p) (time_lobby p) (Some v)
     (time_enter_lift p) (time_departure p) (time_travelling p)
     (time_arrival p).

Definition set_time_enter_lift (v : Z) (p : t) : t :=
  mk (destination p) (time_start p) (time_lobby p) (lift_id p)
     (Some v) (time_departure p) (time_travelling p) (time_arrival p).

Definition set_time_departure (v : Z) (p : t) : t :=
  mk (destination p) (time_start p) (time_lobby p) (lift_id p)
     (time_enter_lift p) (Some v) (time_travelling p) (time_arrival p).

Definition set_time_travelling (v : R) (p : t) : t :=
  mk (destination p) (time_start p) (time_lobby p) (lift_id p)
     (time_enter_lift p) (time_departure p) (Some v) (time_arrival p).

Definition set_time_arrival (v : Z) (p : t) : t :=
  mk (destination p) (time_start p) (time_lobby p) (lift_id p)
     (time_enter_lift p) (time_departure p) (time_travelling p) (Some v).

End Passenger.

(** ** Lift *)

Module Lift.

Record t : Type := mk {
  id : Z;
  capacity : Z;
  vmax : R;
  acc : R;
  td : R;                               (* door_time *)
  df : R;                               (* floor_height *)
  smv : R;                              (* distance to reach max v *)
  tmv : R;                              (* time to reach max v *)
  available : bool;
  arrival_time : Z;
  passengers : list Passenger.t;
  passenger_travel_times : list R;
  rtt : option R;
  queue : list Passenger.t;
  loc_history : list (R * Z);
  history_queue_length : list Z;        (* history['queue_length'] *)
  printing : bool;
  capacity_threshold : R
}.

Definition set_available (v : bool) (l : t) : t :=
  mk (id l) (capacity l) (vmax l) (acc l) (td l) (df l) (smv l) (tmv l)
     v (arrival_time l) (passengers l) (passenger_travel_times l) (rtt l)
     (queue l) (loc_history l) (history_queue_length l) (printing l)
     (capacity_threshold l).

Definition set_arrival_time (v : Z) (l : t) : t :=
  mk (id l) (capacity l) (vmax l) (acc l) (td l) (df l) (smv l) (tmv l)
     (available l) v (passengers l) (passenger_travel_times l) (rtt l)
     (queue l) (loc_history l) (history_queue_length l) (printing l)
     (capacity_threshold l).

Definition set_passengers (v : list Passenger.t) (l : t) : t :=
  mk (id l) (capacity l) (vmax l) (acc l) (td l) (df l) (smv l) (tmv l)
     (available l) (arrival_time l) v (passenger_travel_times l) (rtt l)
     (queue l) (loc_history l) (history_queue_length l) (printing l)
     (capacity_threshold l).

Definition set_passenger_travel_times (v : list R) (l : t) : t :=
  mk (id l) (capacity l) (vmax l) (acc l) (td l) (df l) (smv l) (tmv l)
     (available l) (arrival_time l) (passengers l) v (rtt l)
     (queue l) (loc_history l) (history_queue_length l) (printing l)
     (capacity_threshold l).

Definition set_rtt (v : option R) (l : t) : t :=
  mk (id l) (capacity l) (vmax l) (acc l) (td l) (df l) (smv l) (tmv l)
     (available l) (arrival_time l) (passengers l)
     (passenger_travel_times l) v
     (queue l) (loc_history l) (history_queue_length l) (printing l)
     (capacity_threshold l).

Definition set_queue (v : list Passenger.t) (l : t) : t :=
  mk (id l) (capacity l) (vmax l) (acc l) (td l) (df l) (smv l) (tmv l)
     (available l) (arrival_time l) (passengers l)
     (passenger_travel_times l) (rtt l)
     v (loc_history l) (history_queue_length l) (printing l)
     (capacity_threshold l).

Definition set_loc_history (v : list (R * Z)) (l : t) : t :=
  mk (id l) (capacity l) (vmax l) (acc l) (td l) (df l) (smv l) (tmv l)
     (available l) (arrival_time l) (passengers l)
     (passenger_travel_times l) (rtt l)
     (queue l) v (history_queue_length l) (printing l)
     (capacity_threshold l).

Definition set_history_queue_length (v : list Z) (l : t) : t :=
  mk (id l) (capacity l) (vmax l) (acc l) (td l) (df l) (smv l) (tmv l)
     (available l) (arrival_time l) (passengers l)
     (passenger_travel_times l) (rtt l)
     (queue l) (loc_history l) v (printing l)
     (capacity_threshold l).

Definition set_printing (v : bool) (l : t) : t :=
  mk (id l) (capacity l) (vmax l) (acc l) (td l) (df l) (smv l) (tmv l)
     (available l) (arrival_time l) (passengers l)
     (passenger_travel_times l) (rtt l)
     (queue l) (loc_history l) (history_queue_length l) v
     (capacity_threshold l).

Definition set_capacity_threshold_field (v : R) (l : t) : t :=
  mk (id l) (capacity l) (vmax l) (acc l) (td l) (df l) (smv l) (tmv l)
     (available l) (arrival_time l) (passengers l)
     (passenger_travel_times l) (rtt l)
     (queue l) (loc_history l) (history_queue_length l) (printing l)
     v.

(** [__init__].  The two divisions raise [ZeroDivisionError] when the
    divisor is zero. *)
Definition init (id capacity : Z)
           (vmax acc door_time floor_height capacity_threshold : R)
  : result t :=
  if Req_dec_T (2 * acc)%R 0%R
  then Raise (ZeroDivisionError "float division by zero")
  else if Req_dec_T acc 0%R
  then Raise (ZeroDivisionError "float division by zero")
  else Ok (mk id capacity vmax acc door_time floor_height
              (vmax ^ 2 / (2 * acc))%R
              (vmax / acc)%R
              true 0 [] [] None [] [(0%R, 0)] [] false
              capacity_threshold).

Definition is_available (l : t) : bool := available l.

Definition set_print (l : t) (setting : bool) : t := set_printing setting l.

(** [set_capacity_threshold].  [ct is not float] compares [ct] with the
    type object [float] by identity.  When [ct] is that type object the
    comparison [ct >= 0] of a type with an int raises [TypeError]. *)
Definition set_capacity_threshold (l : t) (ct : pyval) : t * result unit :=
  match ct with
  | PyFloatType =>
      (l, Raise (TypeError "'>=' not supported between instances of 'type' and 'int'"))
  | _ => (l, Raise (TypeError "Capacity threshold value must be a float."))
  end.

Definition get_arrival_time (l : t) : Z := arrival_time l.
Definition get_queue_length (l : t) : Z := len (queue l).
Definition get_total_passengers (l : t) : Z := len (passengers l).

Definition sum_destinations (ps : list Passenger.t) : Z :=
  fold_left Z.add (map Passenger.destination ps) 0.

(** [xs[-k:]] for [k <> 0]: the last [k] elements for positive [k] (the
    whole list when [k] exceeds its length), and for negative [k] the
    elements from index [-k] on. *)
Definition slice_from_neg {A : Type} (k : Z) (xs : list A) : list A :=
  if 0 <? k then skipn (length xs - Z.to_nat k) xs
  else skipn (Z.to_nat (- k)) xs.

(** [sum(dests) / n]: true division, [ZeroDivisionError] on [n = 0]. *)
Definition average (ps : list Passenger.t) (n : Z) : result Q :=
  if n =? 0 then Raise (ZeroDivisionError "division by zero")
  else Ok (inject_Z (sum_destinations ps) / inject_Z n)%Q.

Definition get_avg_floor (l : t) : result Q :=
  let running_order := passengers l ++ queue l in
  let total := len running_order in
  if total =? 0 then Ok 0%Q
  else if total <? capacity l then average running_order total
  else
    if capacity l =? 0
    then Raise (ZeroDivisionError "integer division or modulo by zero")
    else
      let rem := total mod capacity l in
      if rem =? 0 then Ok 0%Q
      else
        let relevant_ps := slice_from_neg rem running_order in
        average relevant_ps (len relevant_ps).

(** [travel_time(n)]. *)
Definition travel_time (l : t) (n : Z) : result R :=
  let dist := (df l * IZR n)%R in
  if Rgt_dec dist (2 * smv l)%R then
    if Req_dec_T (vmax l) 0%R
    then Raise (ZeroDivisionError "float division by zero")
    else Ok (2 * tmv l + (dist - 2 * smv l) / vmax l + 2 * td l)%R
  else if Rle_dec dist (2 * smv l)%R then
    if Req_dec_T (acc l) 0%R
    then Raise (ZeroDivisionError "float division by zero")
    else if Rlt_dec (dist / acc l)%R 0%R
    then Raise (ValueError "math domain error")
    else Ok (2 * td l + 2 * sqrt (dist / acc l))%R
  else Raise (ValueError "").

(** [comp_travel(floors)]: the loop over [floors[1:]], then the method.
    [floors[0]] raises [IndexError] on an empty list. *)
Fixpoint comp_travel_loop (l : t) (time : R) (prev_n : Z)
         (floors : list Z) : result (list R) :=
  match floors with
  | [] => Ok []
  | n :: rest =>
      dt <- travel_time l (n - prev_n) ;;
      let time := (time + dt)%R in
      times <- comp_travel_loop l time n rest ;;
      Ok (time :: times)
  end.

Definition comp_travel (l : t) (floors : list Z) : result (list R) :=
  match floors with
  | [] => Raise (IndexError "list index out of range")
  | prev_n :: rest =>
      times <- comp_travel_loop l 0%R prev_n rest ;;
      Ok (0%R :: times)
  end.

(** The loop of [update_trip_times] over the sorted passengers, started
    with the running [time] and [prev_n].  It returns the passengers as
    the loop leaves them, the values appended to [passenger_travel_times]
    and to [loc_history], and either the final [(time, prev_n)] or the
    exception [travel_time] raised (the passengers from there on are
    untouched). *)
Fixpoint visit (l : t) (clock : Z) (time : R) (prev_n : Z)
         (ps : list Passenger.t)
  : list Passenger.t * list R * list (R * Z) * result (R * Z) :=
  match ps with
  | [] => ([], [], [], Ok (time, prev_n))
  | p :: rest =>
      let n := Passenger.destination p in
      match travel_time l (n - prev_n) with
      | Raise e => (p :: rest, [], [], Raise e)
      | Ok dt =>
          let time := (time + dt)%R in
          let '(ps', times, locs, r) := visit l clock time n rest in
          (Passenger.set_time_travelling time p :: ps',
           time :: times,
           ((time + IZR clock)%R, n) :: locs,
           r)
      end
  end.

(** [update_trip_times(clock)]. *)
Definition update_trip_times (l : t) (clock : Z) : t * result R :=
  let l := set_passengers
             (sorted Passenger.destination Z.leb (passengers l)) l in
  let l := set_loc_history (loc_history l ++ [(IZR clock, 0)]) l in
  let '(ps', times, locs, r) := visit l clock 0%R 0 (passengers l) in
  let l := set_passengers ps' l in
  let l := set_passenger_travel_times (passenger_travel_times l ++ times) l in
  let l := set_loc_history (loc_history l ++ locs) l in
  match r with
  | Raise e => (l, Raise e)
  | Ok (time, prev_n) =>
      (* return to ground *)
      match travel_time l (Z.abs (0 - prev_n)) with
      | Raise e => (l, Raise e)
      | Ok dt =>
          let time := (time + dt)%R in
          (set_loc_history (loc_history l ++ [((time + IZR clock)%R, 0)]) l,
           Ok time)
      end
  end.

(** [update()]. *)
Definition update (l : t) : t :=
  set_history_queue_length
    (history_queue_length l ++ [len (queue l)]) l.

(** [depart(clock)]. *)
Definition depart (l : t) (clock : Z) : t * result unit :=
  let l := set_available false l in
  let l := set_passengers
             (map (Passenger.set_time_departure clock) (passengers l)) l in
  match update_trip_times l clock with
  | (l, Raise e) => (l, Raise e)
  | (l, Ok time) =>
      let l := set_rtt (Some time) l in
      let l := set_arrival_time (Zceil (IZR clock + time)) l in
      (l, Ok tt)
  end.

(** [check_arrival(current_time)]. *)
Definition check_arrival (l : t) (current_time : Z)
  : t * list Passenger.t :=
  if current_time =? arrival_time l then
    let completed_passengers :=
      map (Passenger.set_time_arrival current_time) (passengers l) in
    let l := set_passengers [] l in
    let l := set_available true l in
    (l, completed_passengers)
  else (l, []).

(** [add_passenger(passenger)]. *)
Definition add_passenger (l : t) (passenger : Passenger.t) : t * bool :=
  if (len (passengers l) <? capacity l) && available l
  then (set_passengers (passengers l ++ [passenger]) l, true)
  else (l, false).

(** [queue_passenger(passenger, clock)]. *)
Definition queue_passenger (l : t) (passenger : Passenger.t) (clock : Z)
  : t :=
  let passenger := Passenger.set_time_lobby clock passenger in
  let passenger := Passenger.set_lift_id (id l) passenger in
  set_queue (queue l ++ [passenger]) l.

(** [max(ps, key=lambda p: p['time.enter_lift'])] continued from a current
    best: the key of every element is read ([KeyError] when absent) and the
    best is replaced only by a strictly larger key, so the first maximal
    element wins. *)
Fixpoint max_enter_lift_from (best : Passenger.t) (best_key : Z)
         (ps : list Passenger.t) : result Passenger.t :=
  match ps with
  | [] => Ok best
  | p :: rest =>
      match Passenger.time_enter_lift p with
      | None => Raise (KeyError "time.enter_lift")
      | Some k =>
          if best_key <? k then max_enter_lift_from p k rest
          else max_enter_lift_from best best_key rest
      end
  end.

Definition max_enter_lift (ps : list Passenger.t) : result Passenger.t :=
  match ps with
  | [] => Raise (ValueError "max() arg is an empty sequence")
  | p :: rest =>
      match Passenger.time_enter_lift p with
      | None => Raise (KeyError "time.enter_lift")
      | Some k => max_enter_lift_from p k rest
      end
  end.

(** Lines 155-164 of [check_departure]: the threshold check and the
    waiting-time check, reached when the queue is empty and also after a
    passenger was let in. *)
Definition check_departure_triggers (l : t) (clock : Z) : t * result unit :=
  if Rge_dec (IZR (len (passengers l)))
             (capacity_threshold l * IZR (capacity l))%R
  then depart l clock
  else if 0 <? len (passengers l) then
    match max_enter_lift (passengers l) with
    | Raise e => (l, Raise e)
    | Ok recent_p =>
        match Passenger.time_enter_lift recent_p with
        | None => (l, Raise (KeyError "time.enter_lift"))
        | Some entered =>
            let waiting_time := clock - entered in
            if 10 <? waiting_time then depart l clock
            else (l, Ok tt)
        end
    end
  else (l, Ok tt).

(** [check_departure(clock)]. *)
Definition check_departure (l : t) (clock : Z) : t * result unit :=
  match queue l with
  | passenger :: rest =>                   (* len(self.queue) > 0 *)
      if len (passengers l) <? capacity l then
        let l := set_queue rest l in       (* self.queue.pop(0) *)
        let passenger := Passenger.set_time_enter_lift clock passenger in
        let l := fst (add_passenger l passenger) in
        check_departure_triggers l clock
      else depart l clock
  | [] => check_departure_triggers l clock
  end.

End Lift.

(** ** Simulation *)

Module Simulation.

Inductive strategy : Type := Greedy | Nearest | Grouping | Random.

(** The simulation object.  [traffic] and [assignment_func] are [None]
    until set.  [assignment_times] holds wall-clock measurements only and
    is omitted. *)
Record t : Type := mk {
  id : Z;
  iterations : Z;
  clock : Z;
  number_of_lifts : Z;
  traffic : option (list Passenger.t);
  assignment_func : option strategy;
  arrivals : list Passenger.t;
  q : list Passenger.t;
  lifts : list Lift.t;
  total_traffic : Z
}.

Definition set_clock (v : Z) (s : t) : t :=
  mk (id s) (iterations s) v (number_of_lifts s) (traffic s)
     (assignment_func s) (arrivals s) (q s) (lifts s) (total_traffic s).

Definition set_traffic_field (v : option (list Passenger.t)) (s : t) : t :=
  mk (id s) (iterations s) (clock s) (number_of_lifts s) v
     (assignment_func s) (arrivals s) (q s) (lifts s) (total_traffic s).

Definition set_assignment_func_field (v : option strategy) (s : t) : t :=
  mk (id s) (iterations s) (clock s) (number_of_lifts s) (traffic s)
     v (arrivals s) (q s) (lifts s) (total_traffic s).

Definition set_arrivals (v : list Passenger.t) (s : t) : t :=
  mk (id s) (iterations s) (clock s) (number_of_lifts s) (traffic s)
     (assignment_func s) v (q s) (lifts s) (total_traffic s).

Definition set_q (v : list Passenger.t) (s : t) : t :=
  mk (id s) (iterations s) (clock s) (number_of_lifts s) (traffic s)
     (assignment_func s) (arrivals s) v (lifts s) (total_traffic s).

Definition set_lifts (v : list Lift.t) (s : t) : t :=
  mk (id s) (iterations s) (clock s) (number_of_lifts s) (traffic s)
     (assignment_func s) (arrivals s) (q s) v (total_traffic s).

Definition set_total_traffic (v : Z) (s : t) : t :=
  mk (id s) (iterations s) (clock s) (number_of_lifts s) (traffic s)
     (assignment_func s) (arrivals s) (q s) (lifts s) v.

(** The lifts [__init__] builds: ids [0 .. n-1], the given capacity and
    threshold, and the defaults of [Lift.__init__] for the rest. *)
Fixpoint make_lifts (n : nat) (first_id capacity : Z) (threshold : R)
  : result (list Lift.t) :=
  match n with
  | O => Ok []
  | S n' =>
      lift <- Lift.init first_id capacity 5 1 0 4 threshold ;;
      rest <- make_lifts n' (first_id + 1) capacity threshold ;;
      Ok (lift :: rest)
  end.

(** [__init__(id_n, iterations)]. *)
Definition init (id_n iterations : Z) : result t :=
  lifts <- make_lifts 8 0 10 (8 / 10)%R ;;
  Ok (mk id_n iterations 0 8 None None [] [] lifts 0).

(** [set_traffic(t)]. *)
Definition set_traffic (s : t) (tr : list Passenger.t) : t :=
  set_traffic_field (Some tr) (set_total_traffic (len tr) s).

(** [set_assignment_func(name)]. *)
Definition set_assignment_func (s : t) (name : string) : t * result unit :=
  if String.eqb name "greedy"
  then (set_assignment_func_field (Some Greedy) s, Ok tt)
  else if String.eqb name "nearest"
  then (set_assignment_func_field (Some Nearest) s, Ok tt)
  else if String.eqb name "grouping"
  then (set_assignment_func_field (Some Grouping) s, Ok tt)
  else if String.eqb name "random"
  then (set_assignment_func_field (Some Random) s, Ok tt)
  else (s, Raise (ValueError "The assignment func name is not recognised.")).

(** The lifts paired with their position in [self.lifts]: a sorted or
    filtered copy of [self.lifts] holds the same lift objects, and the
    position tells which one a later [queue_passenger] mutates. *)
Definition enumerate (ls : list Lift.t) : list (nat * Lift.t) :=
  combine (seq 0 (length ls)) ls.

Fixpoint update_nth (i : nat) (f : Lift.t -> Lift.t) (ls : list Lift.t)
  : list Lift.t :=
  match ls, i with
  | [], _ => []
  | l :: rest, O => f l :: rest
  | l :: rest, S i' => l :: update_nth i' f rest
  end.

(** [self.lifts[i].queue_passenger(passenger, self.clock)]. *)
Definition queue_on (s : t) (i : nat) (passenger : Passenger.t) : t :=
  set_lifts
    (update_nth i (fun l => Lift.queue_passenger l passenger (clock s))
                (lifts s)) s.

(** [assign_greedy(passenger)]. *)
Definition assign_greedy (s : t) (passenger : Passenger.t)
  : t * result unit :=
  let lifts_by_queue_length :=
    sorted (fun il => Lift.get_queue_length (snd il)) Z.leb
           (enumerate (lifts s)) in
  match lifts_by_queue_length with
  | [] => (s, Raise (IndexError "list index out of range"))
  | (i, _) :: _ => (queue_on s i passenger, Ok tt)
  end.

(** [assign_nearest_lift(passenger)]. *)
Definition assign_nearest_lift (s : t) (passenger : Passenger.t)
  : t * result unit :=
  let lifts_by_proximity :=
    sorted (fun il => Lift.get_arrival_time (snd il)) Z.leb
           (enumerate (lifts s)) in
  match find (fun il => Lift.get_queue_length (snd il)
                        <? Lift.capacity (snd il))
             lifts_by_proximity with
  | Some (i, _) => (queue_on s i passenger, Ok tt)
  | None => assign_greedy s passenger
  end.

Fixpoint avg_floors (ls : list Lift.t) : result (list Q) :=
  match ls with
  | [] => Ok []
  | l :: rest =>
      a <- Lift.get_avg_floor l ;;
      avgs <- avg_floors rest ;;
      Ok (a :: avgs)
  end.

(** [assign_grouping(passenger)].  [get_avg_floor] is evaluated on every
    lift first; an exception of one of these calls ends the method. *)
Definition assign_grouping (s : t) (passenger : Passenger.t)
  : t * result unit :=
  match avg_floors (lifts s) with
  | Raise e => (s, Raise e)
  | Ok avgs =>
      let with_avg := combine (seq 0 (length (lifts s))) avgs in
      let empty_lifts := filter (fun ia => Qeq_bool (snd ia) 0) with_avg in
      let lbnaf :=
        sorted (fun ia => Qabs (snd ia
                                - inject_Z (Passenger.destination passenger)))
               Qle_bool with_avg in
      match lbnaf with
      | [] => (s, Raise (IndexError "list index out of range"))
      | (best, best_avg) :: _ =>
          match empty_lifts with
          | (first_empty, _) :: _ =>
              if negb (Qle_bool 5 best_avg)      (* avg floor < 5 *)
              then (queue_on s best passenger, Ok tt)
              else (queue_on s first_empty passenger, Ok tt)
          | [] => (queue_on s best passenger, Ok tt)
          end
      end
  end.

(** [assign_random(passenger)]; [r] is the value [np.random.randint]
    returns. *)
Definition assign_random (s : t) (passenger : Passenger.t) (r : nat)
  : t * result unit :=
  match nth_error (lifts s) r with
  | None => (s, Raise (IndexError "list index out of range"))
  | Some _ => (queue_on s r passenger, Ok tt)
  end.

(** [self.assignment_func(waiting_passenger)]. *)
Definition call_assignment_func (s : t) (passenger : Passenger.t) (r : nat)
  : t * result unit :=
  match assignment_func s with
  | None => (s, Raise (TypeError "'NoneType' object is not callable"))
  | Some Greedy => assign_greedy s passenger
  | Some Nearest => assign_nearest_lift s passenger
  | Some Grouping => assign_grouping s passenger
  | Some Random => assign_random s passenger r
  end.

(** The random values one [step] consumes: the batch size drawn by
    [np.random.randint(2, 5)] and the lift index the [j]-th assignment of
    the tick would draw. *)
Record draws : Type := mk_draws {
  batch : nat;
  pick : nat -> nat
}.

(** NEW ARRIVALS: the [while] loop of [step]. *)
Fixpoint new_arrivals (clock : Z) (traffic q : list Passenger.t)
  : list Passenger.t * list Passenger.t :=
  match traffic with
  | [] => ([], q)
  | user :: rest =>
      if clock <? Passenger.time_start user then (traffic, q)
      else new_arrivals clock rest (q ++ [user])
  end.

(** ASSIGNMENT ALGORITHM: the [for _ in range(...)] loop of [step]; [j]
    counts the assignments made so far in this tick. *)
Fixpoint assign_loop (s : t) (d : draws) (j : nat) (n : nat)
  : t * result unit :=
  match n with
  | O => (s, Ok tt)
  | S n' =>
      match q s with
      | [] => (s, Ok tt)
      | waiting_passenger :: rest =>
          let s := set_q rest s in
          match call_assignment_func s waiting_passenger (pick d j) with
          | (s, Raise e) => (s, Raise e)
          | (s, Ok _) => assign_loop s d (S j) n'
          end
      end
  end.

(** UPDATE THE LIFT STATES: the [for lift in self.lifts] loop of [step]. *)
Fixpoint update_lifts (clock : Z) (ls : list Lift.t)
         (arrivals : list Passenger.t)
  : list Lift.t * list Passenger.t * result unit :=
  match ls with
  | [] => ([], arrivals, Ok tt)
  | lift :: rest =>
      let lift := Lift.update lift in
      if Lift.is_available lift then
        match Lift.check_departure lift clock with
        | (lift, Raise e) => (lift :: rest, arrivals, Raise e)
        | (lift, Ok _) =>
            let '(rest, arrivals, r) := update_lifts clock rest arrivals in
            (lift :: rest, arrivals, r)
        end
      else
        let (lift, completed) := Lift.check_arrival lift clock in
        let '(rest, arrivals, r) :=
          update_lifts clock rest (arrivals ++ completed) in
        (lift :: rest, arrivals, r)
  end.

(** [step()]. *)
Definition step (s : t) (d : draws) : t * result unit :=
  match traffic s with
  | None => (s, Raise (TypeError "object of type 'NoneType' has no len()"))
  | Some tr =>
      let (tr, waiting) := new_arrivals (clock s) tr (q s) in
      let s := set_q waiting (set_traffic_field (Some tr) s) in
      match assign_loop s d 0 (batch d) with
      | (s, Raise e) => (s, Raise e)
      | (s, Ok _) =>
          let '(ls, arr, r) := update_lifts (clock s) (lifts s) (arrivals s) in
          let s := set_arrivals arr (set_lifts ls s) in
          match r with
          | Raise e => (s, Raise e)
          | Ok _ => (set_clock (clock s + 1) s, Ok tt)
          end
      end
  end.

(** Consecutive calls of [step], one per entry of [ds], as the loop of
    [run] makes them; an exception ends the sequence. *)
Fixpoint steps (s : t) (ds : list draws) : t * result unit :=
  match ds with
  | [] => (s, Ok tt)
  | d :: rest =>
      match step s d with
      | (s, Raise e) => (s, Raise e)
      | (s, Ok _) => steps s rest
      end
  end.

(** The [while] loop of [run].  [rnd c] are the draws of the step made at
    clock [c]; [fuel] bounds the number of iterations. *)
Fixpoint run_loop (fuel : nat) (s : t) (rnd : Z -> draws)
  : t * result unit :=
  match fuel with
  | O => (s, Ok tt)
  | S fuel' =>
      if clock s <? iterations s then
        match step s (rnd (clock s)) with
        | (s, Raise e) => (s, Raise e)
        | (s, Ok _) =>
            if len (arrivals s) =? total_traffic s then (s, Ok tt)
            else run_loop fuel' s rnd
        end
      else (s, Ok tt)
  end.

(** [run()].  The clock grows by one with every completed step, so
    [iterations - clock] iterations are all the loop can make.  Of the
    summary that is printed afterwards only the percentage can fail:
    [len(self.arrivals)/self.total_traffic*100] divides by zero when the
    traffic was empty. *)
Definition run (s : t) (rnd : Z -> draws) : t * result unit :=
  match traffic s with
  | None =>
      (s, Raise (TypeError
                   "Traffic variable has not been set for the simulation."))
  | Some _ =>
      match assignment_func s with
      | None =>
          (s, Raise (TypeError
                "Assignment function has not been set for the simulation."))
      | Some _ =>
          match run_loop (Z.to_nat (iterations s - clock s)) s rnd with
          | (s, Raise e) => (s, Raise e)
          | (s, Ok _) =>
              if total_traffic s =? 0
              then (s, Raise (ZeroDivisionError "division by zero"))
              else (s, Ok tt)
          end
      end
  end.

End Simulation.

(** * Vocabulary of the properties, and the states of the examples *)

(** The keys along the list are non-decreasing. *)
Definition ascending {A : Type} (key : A -> Z) (xs : list A) : Prop :=
  StronglySorted Z.le (map key xs).

(** [len(boarded) <= capacity]. *)
Definition boarded_within_capacity (l : Lift.t) : Prop :=
  len (Lift.passengers l) <= Lift.capacity l.

(** The enter-lift times of the boarded passengers that have one, and how
    long each has waited at [clock]. *)
Definition enter_times (ps : list Passenger.t) : list Z :=
  flat_map (fun p => match Passenger.time_enter_lift p with
                     | Some t => [t]
                     | None => []
                     end) ps.

Definition waits (clock : Z) (ps : list Passenger.t) : list Z :=
  map (fun t => clock - t) (enter_times ps).

Definition longest (ws : list Z) : option Z :=
  match ws with
  | [] => None
  | w :: rest => Some (fold_left Z.max rest w)
  end.

Definition shortest (ws : list Z) : option Z :=
  match ws with
  | [] => None
  | w :: rest => Some (fold_left Z.min rest w)
  end.

Definition stamped (p : Passenger.t) : Prop :=
  Passenger.time_enter_lift p <> None.

(** The boarded count has not reached [capacity_threshold * capacity]. *)
Definition below_threshold (l : Lift.t) : Prop :=
  (IZR (len (Lift.passengers l))
   < Lift.capacity_threshold l * IZR (Lift.capacity l))%R.

(** A lift of capacity 10 and threshold 0.8 holding two passengers that
    entered at ticks 0 and 5, with nobody queued. *)
Definition two_boarded_lift : Lift.t :=
  Lift.mk 0 10 5 1 0 4 (25 / 2) 5 true 0
          [Passenger.mk 3 0 (Some 0) (Some 0) (Some 0) None None None;
           Passenger.mk 6 2 (Some 2) (Some 0) (Some 5) None None None]
          [] None [] [(0%R, 0)] [] false (8 / 10).


(** The lift of the specification's end-to-end scenario: capacity 1,
    threshold 1.0, one passenger for floor 5 in its queue. *)
Definition single_seat_lift : Lift.t :=
  Lift.mk 0 1 5 1 0 4 (25 / 2) 5 true 0 [] [] None
          [Passenger.mk 5 0 (Some 0) (Some 0) None None None None]
          [(0%R, 0)] [] false 1.

(** [smv] and [tmv] hold what [__init__] computes from [vmax] and [acc]; no
    method changes any of the four. *)
Definition init_kinematics (l : Lift.t) : Prop :=
  Lift.smv l = (Lift.vmax l ^ 2 / (2 * Lift.acc l))%R
  /\ Lift.tmv l = (Lift.vmax l / Lift.acc l)%R.

(** The arithmetic mean of a list of floors. *)
Definition mean (ds : list Z) : Q :=
  Qdiv (inject_Z (fold_right Z.add 0 ds)) (inject_Z (len ds)).

(** Capacity 4, four boarded passengers for floor 3 and one queued for
    floor 7. *)
Definition five_batch_lift : Lift.t :=
  Lift.mk 2 4 5 1 0 4 (25 / 2) 5 true 0
          [Passenger.mk 3 0 (Some 0) (Some 2) (Some 1) None None None;
           Passenger.mk 3 0 (Some 0) (Some 2) (Some 2) None None None;
           Passenger.mk 3 1 (Some 1) (Some 2) (Some 3) None None None;
           Passenger.mk 3 1 (Some 1) (Some 2) (Some 4) None None None]
          [] None
          [Passenger.mk 7 2 (Some 2) (Some 2) None None None None]
          [(0%R, 0)] [] false 1.

(** Floor differences along a visit order starting from floor [prev]. *)
Fixpoint deltas (prev : Z) (floors : list Z) : list Z :=
  match floors with
  | [] => []
  | n :: rest => (n - prev) :: deltas n rest
  end.

(** Cumulative times along a list of leg times, started at [time]. *)
Fixpoint running (time : R) (legs : list R) : list R :=
  match legs with
  | [] => []
  | t :: rest => (time + t)%R :: running (time + t)%R rest
  end.

Definition total (legs : list R) : R := fold_right Rplus 0%R legs.

(** Each passenger with the travelling time of the same position. *)
Definition stamp_all (ps : list Passenger.t) (times : list R)
  : list Passenger.t :=
  map (fun pt => Passenger.set_time_travelling (snd pt) (fst pt))
      (combine ps times).

(** [legs] are the times [travel_time] returns for the floor differences
    [ns]. *)
Definition leg_times (l : Lift.t) (ns : list Z) (legs : list R) : Prop :=
  Forall2 (fun n t => Lift.travel_time l n = Ok t) ns legs.

(** Boarding order 5, 2, 2, 8; the two passengers for floor 2 arrived at the
    building at ticks 1 and 2. *)
Definition four_boarded_lift : Lift.t :=
  Lift.mk 1 8 5 1 0 4 (25 / 2) 5 true 0
          [Passenger.mk 5 0 (Some 0) (Some 1) (Some 0) None None None;
           Passenger.mk 2 1 (Some 1) (Some 1) (Some 1) None None None;
           Passenger.mk 2 2 (Some 2) (Some 1) (Some 2) None None None;
           Passenger.mk 8 3 (Some 3) (Some 1) (Some 3) None None None]
          [] None [] [(0%R, 0)] [] false 1.

(** [l'] is [l] still away: not available, same scheduled return, same
    boarded passengers -- provided [l] was away with its return scheduled
    before tick [t]. *)
Definition stays_away (t : Z) (l l' : Lift.t) : Prop :=
  Lift.available l = false -> Lift.arrival_time l < t ->
  Lift.available l' = false
  /\ Lift.arrival_time l' = Lift.arrival_time l
  /\ Lift.passengers l' = Lift.passengers l.

Definition lifts_stay_away (t : Z) (ls ls' : list Lift.t) : Prop :=
  forall i l,
    nth_error ls i = Some l ->
    exists l', nth_error ls' i = Some l' /\ stays_away t l l'.

(** Door time 0, threshold 0, nobody boarded or queued. *)
Definition threshold_zero_lift : Lift.t :=
  Lift.mk 0 8 5 1 0 4 (25 / 2) 5 true 0 [] [] None [] [(0%R, 0)] [] false 0.

(** Passengers a lift holds, boarded or queued, and the passengers of a
    whole simulation: not yet arrived at the building, waiting in the lobby,
    held by a lift, or completed. *)
Definition lift_load (l : Lift.t) : nat :=
  length (Lift.passengers l) + length (Lift.queue l).

Definition lifts_load (ls : list Lift.t) : nat :=
  list_sum (map lift_load ls).

Definition population (s : Simulation.t) : nat :=
  match Simulation.traffic s with
  | Some tr => length tr
  | None => 0
  end
  + length (Simulation.q s)
  + lifts_load (Simulation.lifts s)
  + length (Simulation.arrivals s).

(** A lift that is away (return scheduled for tick 9) with one passenger
    queued on it meanwhile. *)
Definition away_lift : Lift.t :=
  Lift.mk 3 8 5 1 0 4 (25 / 2) 5 false 9 [] [] None
          [Passenger.mk 4 1 (Some 1) (Some 3) None None None None]
          [(0%R, 0)] [] false 1.

(** A lift whose boarded passengers include one for floor -1. *)
Definition basement_lift : Lift.t :=
  Lift.mk 4 8 5 1 0 4 (25 / 2) 5 true 0
          [Passenger.mk 3 0 (Some 0) (Some 4) (Some 0) None None None;
           Passenger.mk (-1) 1 (Some 1) (Some 4) (Some 1) None None None]
          [] None [] [(0%R, 0)] [] false 1.

(** An idle lift with [n] passengers queued on it, and a simulation at
    clock 7 whose four lifts have 3, 1, 4 and 1 passengers queued, with the
    greedy strategy selected and one passenger waiting in the lobby. *)
Definition lift_with_queue (id : Z) (n : nat) : Lift.t :=
  Lift.mk id 8 5 1 0 4 (25 / 2) 5 true 0 [] [] None
          (repeat (Passenger.mk 2 0 (Some 0) (Some id) None None None None) n)
          [(0%R, 0)] [] false 1.

Definition four_lift_sim : Simulation.t :=
  Simulation.mk 0 100 7 4 (Some []) (Some Simulation.Greedy) []
                [Passenger.new 6 7]
                [lift_with_queue 0 3; lift_with_queue 1 1;
                 lift_with_queue 2 4; lift_with_queue 3 1]
                1.

(** [l'] is the same physical unit as [l]: identity, capacity, kinematic
    parameters and threshold agree. *)
Definition same_unit (l l' : Lift.t) : Prop :=
  Lift.id l' = Lift.id l
  /\ Lift.capacity l' = Lift.capacity l
  /\ Lift.vmax l' = Lift.vmax l
  /\ Lift.acc l' = Lift.acc l
  /\ Lift.td l' = Lift.td l
  /\ Lift.df l' = Lift.df l
  /\ Lift.smv l' = Lift.smv l
  /\ Lift.tmv l' = Lift.tmv l
  /\ Lift.capacity_threshold l' = Lift.capacity_threshold l.

(** What the lift loop of [step] does to one lift at tick [clock], and the
    passengers that lift hands back. *)
Definition tick (clock : Z) (l : Lift.t) : Lift.t :=
  if Lift.is_available (Lift.update l)
  then fst (Lift.check_departure (Lift.update l) clock)
  else fst (Lift.check_arrival (Lift.update l) clock).

Definition returned (clock : Z) (l : Lift.t) : list Passenger.t :=
  if Lift.is_available (Lift.update l) then []
  else snd (Lift.check_arrival (Lift.update l) clock).

(** Two lifts with the same availability, schedule and boarded
    passengers. *)
Definition same_trip (l l' : Lift.t) : Prop :=
  Lift.available l' = Lift.available l
  /\ Lift.arrival_time l' = Lift.arrival_time l
  /\ Lift.passengers l' = Lift.passengers l.

(** A simulation at clock 9 whose only lift is away with two passengers
    and due back at tick 9. *)
Definition returning_sim : Simulation.t :=
  Simulation.mk 0 100 9 1 (Some []) (Some Simulation.Greedy) [] []
    [Lift.mk 0 8 5 1 0 4 (25 / 2) 5 false 9
       [Passenger.mk 1 0 (Some 0) (Some 0) (Some 1) (Some 3) (Some 2%R) None;
        Passenger.mk 2 0 (Some 0) (Some 0) (Some 2) (Some 3) (Some 4%R) None]
       [2%R; 4%R] (Some 6%R) [] [(0%R, 0)] [] false 1]
    2.

(** A lift waiting in the lobby with nobody boarded or queued and a
    positive departure threshold. *)
Definition idle (l : Lift.t) : Prop :=
  Lift.available l = true
  /\ Lift.queue l = []
  /\ Lift.passengers l = []
  /\ (0 < Lift.capacity_threshold l * IZR (Lift.capacity l))%R.

(** The lift [Lift(id=i, capacity=10, capacity_threshold=0.8)] and the
    simulation [Simulation(id_n, iterations)] as constructed. *)
Definition default_lift (i : Z) : Lift.t :=
  Lift.mk i 10 5 1 0 4 (5 ^ 2 / (2 * 1)) (5 / 1) true 0 [] [] None []
          [(0%R, 0)] [] false (8 / 10).

Definition default_sim (id_n iterations : Z) : Simulation.t :=
  Simulation.mk id_n iterations 0 8 None None [] []
                (map default_lift [0; 1; 2; 3; 4; 5; 6; 7]) 0.

(** The constructed simulation with the greedy strategy, an iteration cap
    of 2 and one passenger who reaches the building at tick 5. *)
Definition early_sim : Simulation.t :=
  Simulation.mk 1 2 0 8 (Some [Passenger.new 3 5]) (Some Simulation.Greedy)
                [] [] (map default_lift [0; 1; 2; 3; 4; 5; 6; 7]) 1.

(** A lift that can make any trip its passengers ask for: positive
    [vmax], [acc] and capacity, non-negative floor height, every boarded
    passenger stamped with an enter-lift time, and nobody boarded or queued
    for a floor below 0. *)
Definition lift_sound (l : Lift.t) : Prop :=
  (0 < Lift.vmax l)%R /\ (0 < Lift.acc l)%R /\ (0 <= Lift.df l)%R
  /\ 0 < Lift.capacity l
  /\ Forall stamped (Lift.passengers l)
  /\ Forall (fun p => 0 <= Passenger.destination p) (Lift.passengers l)
  /\ Forall (fun p => 0 <= Passenger.destination p) (Lift.queue l).

(** A simulation that is set up (traffic and strategy set, at least one
    lift), whose lifts are sound and whose passengers still to be assigned
    go to floors [>= 0]. *)
Definition sim_sound (s : Simulation.t) : Prop :=
  (exists tr, Simulation.traffic s = Some tr
              /\ Forall (fun p => 0 <= Passenger.destination p) tr)
  /\ Forall (fun p => 0 <= Passenger.destination p) (Simulation.q s)
  /\ Simulation.assignment_func s <> None
  /\ Simulation.lifts s <> []
  /\ Forall lift_sound (Simulation.lifts s).

(** The indices [assign_random] draws in one step are positions of
    [self.lifts], as [np.random.randint(0, number_of_lifts)] gives them. *)
Definition draws_in_range (s : Simulation.t) (d : Simulation.draws) : Prop :=
  forall j, (Simulation.pick d j < length (Simulation.lifts s))%nat.

(** The constructed simulation with the grouping strategy and three
    passengers arriving at ticks 0, 0 and 2. *)
Definition busy_sim : Simulation.t :=
  fst (Simulation.set_assignment_func
         (Simulation.set_traffic
            (default_sim 1 3600)
            [Passenger.new 3 0; Passenger.new 7 0; Passenger.new 3 2])
         "grouping").

(** What identifies a passenger throughout: the immutable inputs. *)
Definition origin (p : Passenger.t) : Z * Z :=
  (Passenger.destination p, Passenger.time_start p).

(** The line of a lift: its boarded passengers, then its queue. *)
Definition line (l : Lift.t) : list (Z * Z) :=
  map origin (Lift.passengers l ++ Lift.queue l).

(** [abs(lift.get_avg_floor() - passenger['destination'])]: the key by
    which [assign_grouping] orders the lifts. *)
Definition floor_gap (p : Passenger.t) (a : Q) : Q :=
  Qabs (a - inject_Z (Passenger.destination p)).

(** No lift has an average floor nearer to the passenger's floor than
    [a]. *)
Definition nearest (s : Simulation.t) (p : Passenger.t) (a : Q) : Prop :=
  forall j l b,
    nth_error (Simulation.lifts s) j = Some l ->
    Lift.get_avg_floor l = Ok b ->
    (floor_gap p a <= floor_gap p b)%Q.



(** * Properties *)

(** ** The stable sort *)

Section SortedFacts.
Context {A : Type} (key : A -> Z).

Lemma insert_by_length (x : A) (xs : list A) :
  length (insert_by key Z.leb x xs) = S (length xs).
Proof.
  induction xs as [|y ys IH]; simpl; [reflexivity|].
  destruct (key x <=? key y); simpl; congruence.
Qed.

Lemma sorted_length (xs : list A) :
  length (sorted key Z.leb xs) = length xs.
Proof.
  induction xs as [|x xs IH]; simpl; [reflexivity|].
  rewrite insert_by_length; congruence.
Qed.

Lemma insert_by_perm (x : A) (xs : list A) :
  Permutation (x :: xs) (insert_by key Z.leb x xs).
Proof.
  induction xs as [|y ys IH]; simpl; [apply Permutation_refl|].
  destruct (key x <=? key y); [apply Permutation_refl|].
  eapply perm_trans; [apply perm_swap|]. now apply perm_skip.
Qed.

Lemma sorted_perm (xs : list A) : Permutation xs (sorted key Z.leb xs).
Proof.
  induction xs as [|x xs IH]; simpl; [constructor|].
  eapply perm_trans; [apply perm_skip, IH|apply insert_by_perm].
Qed.

Lemma insert_by_ascending (x : A) (xs : list A) :
  ascending key xs -> ascending key (insert_by key Z.leb x xs).
Proof.
  unfold ascending.
  induction xs as [|y ys IH]; simpl; intros Hs.
  - repeat constructor.
  - destruct (key x <=? key y) eqn:E.
    + apply Z.leb_le in E. simpl. constructor; [exact Hs|].
      constructor; [exact E|].
      inversion Hs as [|? ? _ Hall]; subst.
      eapply Forall_impl; [|exact Hall]. intros; lia.
    + apply Z.leb_gt in E. inversion Hs as [|? ? Hs' Hall]; subst.
      simpl. constructor; [now apply IH|].
      assert (Hp : Permutation (map key (x :: ys))
                               (map key (insert_by key Z.leb x ys)))
        by apply Permutation_map, insert_by_perm.
      eapply Permutation_Forall; [exact Hp|].
      simpl. constructor; [lia|exact Hall].
Qed.

Lemma sorted_ascending (xs : list A) :
  ascending key (sorted key Z.leb xs).
Proof.
  induction xs as [|x xs IH]; simpl.
  - constructor.
  - now apply insert_by_ascending.
Qed.

(** Stability: the elements of any one key come out in the order they went
    in. *)
Lemma insert_by_filter (d : Z) (x : A) (xs : list A) :
  filter (fun a => key a =? d) (insert_by key Z.leb x xs)
  = filter (fun a => key a =? d) (x :: xs).
Proof.
  induction xs as [|y ys IH]; [reflexivity|].
  simpl insert_by. destruct (key x <=? key y) eqn:E; [reflexivity|].
  apply Z.leb_gt in E.
  simpl in *. rewrite IH.
  destruct (key x =? d) eqn:Ex, (key y =? d) eqn:Ey; try reflexivity.
  apply Z.eqb_eq in Ex, Ey. lia.
Qed.

Lemma sorted_stable (d : Z) (xs : list A) :
  filter (fun a => key a =? d) (sorted key Z.leb xs)
  = filter (fun a => key a =? d) xs.
Proof.
  induction xs as [|x xs IH]; [reflexivity|].
  simpl sorted. rewrite insert_by_filter. simpl. now rewrite IH.
Qed.
End SortedFacts.

(** ** Lift: fields that the operations leave alone *)

Module LiftFacts.
Import Lift.

Lemma visit_length l clock time prev_n ps :
  length (fst (fst (fst (visit l clock time prev_n ps)))) = length ps.
Proof.
  revert time prev_n.
  induction ps as [|p ps IH]; intros time prev_n; simpl; [reflexivity|].
  destruct (travel_time l (Passenger.destination p - prev_n)) as [dt|e];
    [|reflexivity].
  specialize (IH (time + dt)%R (Passenger.destination p)).
  destruct (visit l clock (time + dt) (Passenger.destination p) ps)
    as [[[ps' times] locs] r].
  simpl in *. congruence.
Qed.

(** What [update_trip_times] never touches. *)
Lemma update_trip_times_frame l clock :
  let l' := fst (update_trip_times l clock) in
  capacity l' = capacity l /\ available l' = available l
  /\ arrival_time l' = arrival_time l /\ queue l' = queue l
  /\ length (passengers l') = length (passengers l).
Proof.
  unfold update_trip_times.
  set (l1 := set_loc_history _ _).
  pose proof (visit_length l1 clock 0%R 0 (passengers l1)) as Hlen.
  destruct (visit l1 clock 0%R 0 (passengers l1)) as [[[ps' times] locs] r].
  simpl in Hlen. rewrite sorted_length in Hlen.
  destruct r as [[time prev_n]|e]; simpl.
  - match goal with
    | |- context [travel_time ?x ?n] => destruct (travel_time x n)
    end; simpl; repeat split; congruence.
  - repeat split; congruence.
Qed.

Lemma depart_frame l clock :
  let l' := fst (depart l clock) in
  capacity l' = capacity l /\ available l' = false
  /\ queue l' = queue l
  /\ length (passengers l') = length (passengers l).
Proof.
  unfold depart.
  set (l1 := set_passengers _ _).
  pose proof (update_trip_times_frame l1 clock) as H.
  destruct (update_trip_times l1 clock) as [l2 [time|e]];
    simpl in *; subst l1; simpl in *; rewrite length_map in H;
    repeat split; tauto.
Qed.

Lemma check_departure_triggers_frame l clock :
  let l' := fst (check_departure_triggers l clock) in
  capacity l' = capacity l /\ queue l' = queue l
  /\ length (passengers l') = length (passengers l).
Proof.
  unfold check_departure_triggers.
  pose proof (depart_frame l clock) as Hd. simpl in Hd.
  destruct (Rge_dec _ _); [tauto|].
  destruct (0 <? len (passengers l)); [|simpl; tauto].
  destruct (max_enter_lift (passengers l)) as [p|e]; [|simpl; tauto].
  destruct (Passenger.time_enter_lift p); [|simpl; tauto].
  destruct (10 <? clock - _); simpl; tauto.
Qed.

End LiftFacts.

(** ** Arrival *)

(** C4: [check_arrival(current_time)] returns a non-empty batch only when
    [current_time] equals [arrival_time].  On equality it returns exactly the
    boarded passengers, each stamped with arrival time [current_time], and
    leaves the lift with an empty boarded set and [available = True]; on
    inequality it returns the empty batch and the lift is unchanged. *)
Theorem check_arrival_spec (l : Lift.t) (current_time : Z) :
  (snd (Lift.check_arrival l current_time) <> [] ->
   current_time = Lift.arrival_time l)
  /\ (current_time = Lift.arrival_time l ->
      Lift.check_arrival l current_time
      = (Lift.set_available true (Lift.set_passengers [] l),
         map (Passenger.set_time_arrival current_time) (Lift.passengers l))
      /\ Lift.passengers (fst (Lift.check_arrival l current_time)) = []
      /\ Lift.available (fst (Lift.check_arrival l current_time)) = true
      /\ Forall (fun p => Passenger.time_arrival p = Some current_time)
                (snd (Lift.check_arrival l current_time))
      /\ map Passenger.destination (snd (Lift.check_arrival l current_time))
         = map Passenger.destination (Lift.passengers l))
  /\ (current_time <> Lift.arrival_time l ->
      Lift.check_arrival l current_time = (l, [])).
Proof.
  unfold Lift.check_arrival.
  destruct (current_time =? Lift.arrival_time l) eqn:E.
  - apply Z.eqb_eq in E. split; [intros _; exact E|]. split; [|congruence].
    intros _. simpl. repeat split.
    + apply Forall_forall. intros p Hp. apply in_map_iff in Hp.
      destruct Hp as [p0 [<- _]]. reflexivity.
    + rewrite map_map. reflexivity.
  - apply Z.eqb_neq in E. split; [simpl; congruence|].
    split; [congruence|reflexivity].
Qed.

(** ** Capacity threshold setter *)

(** C3 (the code against the claim): whatever value is passed, a float in
    [0, 1] included, [set_capacity_threshold] raises [TypeError] and leaves
    the threshold as it was. *)
Theorem set_capacity_threshold_always_raises (l : Lift.t) (ct : pyval) :
  exists msg, Lift.set_capacity_threshold l ct = (l, Raise (TypeError msg)).
Proof.
  destruct ct; simpl; eexists; reflexivity.
Qed.

(** ** The capacity invariant *)

Lemma add_passenger_within_capacity l p :
  boarded_within_capacity l ->
  boarded_within_capacity (fst (Lift.add_passenger l p)).
Proof.
  unfold boarded_within_capacity, Lift.add_passenger, len. intros H.
  destruct (Z.of_nat (length (Lift.passengers l)) <? Lift.capacity l) eqn:E;
    simpl; [|exact H].
  apply Z.ltb_lt in E.
  destruct (Lift.available l); simpl; [|exact H].
  rewrite length_app. simpl. lia.
Qed.

Lemma depart_within_capacity l clock :
  boarded_within_capacity l ->
  boarded_within_capacity (fst (Lift.depart l clock)).
Proof.
  unfold boarded_within_capacity, len.
  destruct (LiftFacts.depart_frame l clock) as (Hc & _ & _ & Hl).
  rewrite Hc, Hl. tauto.
Qed.

Lemma check_departure_triggers_within_capacity l clock :
  boarded_within_capacity l ->
  boarded_within_capacity (fst (Lift.check_departure_triggers l clock)).
Proof.
  unfold boarded_within_capacity, len.
  destruct (LiftFacts.check_departure_triggers_frame l clock) as (Hc & _ & Hl).
  rewrite Hc, Hl. tauto.
Qed.

Lemma check_departure_within_capacity l clock :
  boarded_within_capacity l ->
  boarded_within_capacity (fst (Lift.check_departure l clock)).
Proof.
  intros H. unfold Lift.check_departure.
  destruct (Lift.queue l) as [|p rest].
  - now apply check_departure_triggers_within_capacity.
  - destruct (len (Lift.passengers l) <? Lift.capacity l).
    + apply check_departure_triggers_within_capacity.
      apply add_passenger_within_capacity. exact H.
    + now apply depart_within_capacity.
Qed.

Lemma check_arrival_within_capacity l current_time :
  boarded_within_capacity l ->
  boarded_within_capacity (fst (Lift.check_arrival l current_time)).
Proof.
  unfold boarded_within_capacity, Lift.check_arrival, len. intros H.
  destruct (current_time =? Lift.arrival_time l); simpl; lia.
Qed.

(** A property of single lifts that the lift operations preserve holds of
    every lift after a [step], however the step ends. *)
Section StepPreserves.
Variable P : Lift.t -> Prop.
Hypothesis P_queue_passenger :
  forall l p clock, P l -> P (Lift.queue_passenger l p clock).
Hypothesis P_update : forall l, P l -> P (Lift.update l).
Hypothesis P_check_departure :
  forall l clock, P l -> P (fst (Lift.check_departure l clock)).
Hypothesis P_check_arrival :
  forall l clock, P l -> P (fst (Lift.check_arrival l clock)).

Lemma queue_on_preserves s i p :
  Forall P (Simulation.lifts s) ->
  Forall P (Simulation.lifts (Simulation.queue_on s i p)).
Proof.
  simpl. generalize (Simulation.lifts s) as ls. intros ls H. revert i.
  induction H as [|l ls Hl Hls IH]; intros i.
  - destruct i; constructor.
  - destruct i as [|i]; simpl; constructor; auto.
Qed.

Lemma assign_greedy_preserves s p :
  Forall P (Simulation.lifts s) ->
  Forall P (Simulation.lifts (fst (Simulation.assign_greedy s p))).
Proof.
  intros H. unfold Simulation.assign_greedy.
  destruct (sorted _ _ _) as [|[i l0] rest]; simpl; [exact H|].
  now apply queue_on_preserves.
Qed.

Lemma call_assignment_func_preserves s p r :
  Forall P (Simulation.lifts s) ->
  Forall P (Simulation.lifts (fst (Simulation.call_assignment_func s p r))).
Proof.
  intros H. unfold Simulation.call_assignment_func.
  destruct (Simulation.assignment_func s) as [[| | |]|]; [| | | |exact H].
  - now apply assign_greedy_preserves.
  - unfold Simulation.assign_nearest_lift.
    destruct (find _ _) as [[i l0]|].
    + now apply queue_on_preserves.
    + now apply assign_greedy_preserves.
  - unfold Simulation.assign_grouping.
    destruct (Simulation.avg_floors _) as [avgs|e]; [|exact H].
    destruct (sorted _ _ _) as [|[best best_avg] ?]; [exact H|].
    destruct (filter _ _) as [|[first_empty ?] ?];
      [now apply queue_on_preserves|].
    destruct (negb _); now apply queue_on_preserves.
  - unfold Simulation.assign_random.
    destruct (nth_error _ _); [now apply queue_on_preserves|exact H].
Qed.

Lemma assign_loop_preserves d n :
  forall s j,
    Forall P (Simulation.lifts s) ->
    Forall P (Simulation.lifts (fst (Simulation.assign_loop s d j n))).
Proof.
  induction n as [|n IH]; intros s j H; simpl; [exact H|].
  destruct (Simulation.q s) as [|p rest]; [exact H|].
  pose proof (call_assignment_func_preserves
                (Simulation.set_q rest s) p (Simulation.pick d j) H) as H1.
  destruct (Simulation.call_assignment_func
              (Simulation.set_q rest s) p (Simulation.pick d j))
    as [s1 [[]|e]]; simpl in *; [now apply IH|exact H1].
Qed.

Lemma update_lifts_preserves clock ls :
  Forall P ls ->
  forall arrivals,
    Forall P (fst (fst (Simulation.update_lifts clock ls arrivals))).
Proof.
  induction 1 as [|l ls Hl Hls IH]; intros arrivals; simpl;
    [constructor|].
  unfold Lift.is_available.
  change (Lift.available (Lift.update l)) with (Lift.available l).
  destruct (Lift.available l).
  - pose proof (P_check_departure _ clock (P_update _ Hl)) as H1.
    destruct (Lift.check_departure (Lift.update l) clock) as [l1 [[]|e]].
    + specialize (IH arrivals).
      destruct (Simulation.update_lifts clock ls arrivals)
        as [[ls' arr'] r]. simpl in *. now constructor.
    + simpl in *. now constructor.
  - pose proof (P_check_arrival _ clock (P_update _ Hl)) as H1.
    destruct (Lift.check_arrival (Lift.update l) clock) as [l1 completed].
    specialize (IH (arrivals ++ completed)).
    destruct (Simulation.update_lifts clock ls (arrivals ++ completed))
      as [[ls' arr'] r]. simpl in *. now constructor.
Qed.

Lemma step_preserves s d :
  Forall P (Simulation.lifts s) ->
  Forall P (Simulation.lifts (fst (Simulation.step s d))).
Proof.
  intros H. unfold Simulation.step.
  destruct (Simulation.traffic s) as [tr|]; [|exact H].
  destruct (Simulation.new_arrivals (Simulation.clock s) tr
                                    (Simulation.q s)) as [tr' waiting].
  set (s0 := Simulation.set_q waiting
               (Simulation.set_traffic_field (Some tr') s)).
  pose proof (assign_loop_preserves d (Simulation.batch d) s0 0 H) as H1.
  destruct (Simulation.assign_loop s0 d 0 (Simulation.batch d))
    as [s1 [[]|e]]; simpl in *; [|exact H1].
  pose proof (update_lifts_preserves (Simulation.clock s1) _ H1
                (Simulation.arrivals s1)) as H2.
  destruct (Simulation.update_lifts (Simulation.clock s1)
              (Simulation.lifts s1) (Simulation.arrivals s1))
    as [[ls arr] r]. simpl in H2.
  destruct r as [[]|e]; exact H2.
Qed.
End StepPreserves.

(** C5: [len(boarded) <= capacity] holds for a newly constructed lift (of
    non-negative capacity) and is preserved by [queue_passenger],
    [add_passenger], [check_departure], [depart] and [check_arrival], also
    when one of them ends in an exception.  [add_passenger] appends exactly
    when [len(boarded) < capacity] and the lift is available, and otherwise
    returns [False] leaving the lift unchanged; [check_departure] on a lift
    that is already full boards nobody.  Hence the bound holds of every lift
    of a simulation after every [step]. *)
Theorem capacity_invariant :
  (forall id capacity vmax acc door_time floor_height threshold l,
      0 <= capacity ->
      Lift.init id capacity vmax acc door_time floor_height threshold = Ok l ->
      boarded_within_capacity l)
  /\ (forall l p clock,
         boarded_within_capacity l ->
         boarded_within_capacity (Lift.queue_passenger l p clock))
  /\ (forall l p,
         boarded_within_capacity l ->
         boarded_within_capacity (fst (Lift.add_passenger l p)))
  /\ (forall l clock,
         boarded_within_capacity l ->
         boarded_within_capacity (fst (Lift.check_departure l clock)))
  /\ (forall l clock,
         boarded_within_capacity l ->
         boarded_within_capacity (fst (Lift.depart l clock)))
  /\ (forall l current_time,
         boarded_within_capacity l ->
         boarded_within_capacity (fst (Lift.check_arrival l current_time)))
  /\ (forall l p,
         len (Lift.passengers l) < Lift.capacity l ->
         Lift.available l = true ->
         Lift.add_passenger l p
         = (Lift.set_passengers (Lift.passengers l ++ [p]) l, true))
  /\ (forall l p,
         ~ (len (Lift.passengers l) < Lift.capacity l
            /\ Lift.available l = true) ->
         Lift.add_passenger l p = (l, false))
  /\ (forall l clock,
         Lift.capacity l <= len (Lift.passengers l) ->
         length (Lift.passengers (fst (Lift.check_departure l clock)))
         = length (Lift.passengers l))
  /\ (forall s d,
         Forall boarded_within_capacity (Simulation.lifts s) ->
         Forall boarded_within_capacity
                (Simulation.lifts (fst (Simulation.step s d)))).
Proof.
  split; [|split; [|split; [|split; [|split; [|split; [|split; [|split;
    [|split]]]]]]]].
  - intros id capacity vmax acc door_time floor_height threshold l Hcap.
    unfold Lift.init.
    destruct (Req_dec_T _ _); [discriminate|].
    destruct (Req_dec_T _ _); [discriminate|].
    intros [= <-]. unfold boarded_within_capacity, len. simpl. exact Hcap.
  - intros l p clock H. exact H.
  - intros l p. apply add_passenger_within_capacity.
  - intros l clock. apply check_departure_within_capacity.
  - intros l clock. apply depart_within_capacity.
  - intros l t. apply check_arrival_within_capacity.
  - intros l p Hlt Hav. unfold Lift.add_passenger.
    apply Z.ltb_lt in Hlt. rewrite Hlt, Hav. reflexivity.
  - intros l p Hn. unfold Lift.add_passenger.
    destruct (len (Lift.passengers l) <? Lift.capacity l) eqn:E;
      [|reflexivity].
    apply Z.ltb_lt in E.
    destruct (Lift.available l); [|reflexivity].
    exfalso. apply Hn. split; [exact E|reflexivity].
  - intros l clock Hfull. unfold Lift.check_departure.
    destruct (Lift.queue l) as [|p rest].
    + apply LiftFacts.check_departure_triggers_frame.
    + destruct (len (Lift.passengers l) <? Lift.capacity l) eqn:E.
      * apply Z.ltb_lt in E. lia.
      * apply LiftFacts.depart_frame.
  - intros s d. apply step_preserves.
    + intros l p clock H. exact H.
    + intros l H. exact H.
    + intros l clock. apply check_departure_within_capacity.
    + intros l clock. apply check_arrival_within_capacity.
Qed.

(** ** Departure decision *)

Lemma max_enter_lift_from_spec (ps : list Passenger.t) :
  Forall stamped ps ->
  forall best k,
    Passenger.time_enter_lift best = Some k ->
    exists p,
      Lift.max_enter_lift_from best k ps = Ok p
      /\ Passenger.time_enter_lift p = Some (fold_left Z.max (enter_times ps) k).
Proof.
  induction 1 as [|p ps Hp _ IH]; intros best k Hk; simpl.
  - exists best. split; [reflexivity|exact Hk].
  - unfold stamped in Hp.
    destruct (Passenger.time_enter_lift p) as [t|] eqn:Et; [|congruence].
    simpl. destruct (k <? t) eqn:E.
    + apply Z.ltb_lt in E. replace (Z.max k t) with t by lia.
      now apply IH.
    + apply Z.ltb_ge in E. replace (Z.max k t) with k by lia.
      now apply IH.
Qed.

Lemma fold_min_waits (clock : Z) (ts : list Z) :
  forall t,
    fold_left Z.min (map (fun t => clock - t) ts) (clock - t)
    = clock - fold_left Z.max ts t.
Proof.
  induction ts as [|u ts IH]; intros t; simpl; [reflexivity|].
  replace (Z.min (clock - t) (clock - u)) with (clock - Z.max t u) by lia.
  apply IH.
Qed.

(** The waiting-time check reads the passenger that entered last, whose
    wait is the shortest. *)
Lemma max_enter_lift_shortest (clock : Z) (ps : list Passenger.t) :
  Forall stamped ps -> ps <> [] ->
  exists p t w,
    Lift.max_enter_lift ps = Ok p
    /\ Passenger.time_enter_lift p = Some t
    /\ shortest (waits clock ps) = Some w
    /\ w = clock - t.
Proof.
  intros Hall Hne. destruct ps as [|p0 ps]; [congruence|].
  inversion Hall as [|? ? Hp0 Hps]; subst. unfold stamped in Hp0.
  unfold Lift.max_enter_lift, waits. simpl.
  destruct (Passenger.time_enter_lift p0) as [t0|] eqn:E0; [|congruence].
  destruct (max_enter_lift_from_spec ps Hps p0 t0 E0) as [p [Hmax Hkey]].
  exists p, (fold_left Z.max (enter_times ps) t0),
         (clock - fold_left Z.max (enter_times ps) t0).
  simpl. rewrite fold_min_waits. auto.
Qed.

Lemma check_departure_triggers_below (l : Lift.t) (clock : Z) :
  below_threshold l ->
  Lift.check_departure_triggers l clock
  = if 0 <? len (Lift.passengers l) then
      match Lift.max_enter_lift (Lift.passengers l) with
      | Raise e => (l, Raise e)
      | Ok recent_p =>
          match Passenger.time_enter_lift recent_p with
          | None => (l, Raise (KeyError "time.enter_lift"))
          | Some entered =>
              if 10 <? clock - entered then Lift.depart l clock
              else (l, Ok tt)
          end
      end
    else (l, Ok tt).
Proof.
  unfold below_threshold, Lift.check_departure_triggers. intros H.
  destruct (Rge_dec _ _) as [Hge|_]; [lra|reflexivity].
Qed.

Lemma check_departure_triggers_met (l : Lift.t) (clock : Z) :
  ~ below_threshold l ->
  Lift.check_departure_triggers l clock = Lift.depart l clock.
Proof.
  unfold below_threshold, Lift.check_departure_triggers. intros H.
  destruct (Rge_dec _ _) as [_|Hn]; [reflexivity|lra].
Qed.

(** C1, as the code has it: with an empty queue, a positive boarded count
    below the threshold and every boarded passenger stamped with an
    enter-lift time, [check_departure(clock)] departs exactly when the wait
    of the most recently boarded passenger, which is the shortest wait over
    the boarded passengers, exceeds 10 ticks; otherwise the lift is left as
    it is. *)
Theorem check_departure_timeout (l : Lift.t) (clock : Z) :
  Lift.queue l = [] ->
  below_threshold l ->
  0 < len (Lift.passengers l) ->
  Forall stamped (Lift.passengers l) ->
  exists w,
    shortest (waits clock (Lift.passengers l)) = Some w
    /\ Lift.check_departure l clock
       = (if 10 <? w then Lift.depart l clock else (l, Ok tt))
    /\ (Lift.available l = true ->
        (Lift.available (fst (Lift.check_departure l clock)) = false
         <-> 10 < w)).
Proof.
  intros Hq Hbelow Hpos Hall.
  assert (Hne : Lift.passengers l <> [])
    by (intros E; rewrite E in Hpos; cbv in Hpos; discriminate).
  destruct (max_enter_lift_shortest clock _ Hall Hne)
    as (p & t & w & Hmax & Hkey & Hshort & ->).
  exists (clock - t). split; [exact Hshort|].
  assert (Hcd : Lift.check_departure l clock
                = (if 10 <? clock - t then Lift.depart l clock
                   else (l, Ok tt))).
  { unfold Lift.check_departure. rewrite Hq.
    rewrite check_departure_triggers_below by exact Hbelow.
    apply Z.ltb_lt in Hpos. rewrite Hpos, Hmax, Hkey. reflexivity. }
  split; [exact Hcd|].
  intros Hav. rewrite Hcd.
  destruct (10 <? clock - t) eqn:E.
  - apply Z.ltb_lt in E.
    destruct (LiftFacts.depart_frame l clock) as (_ & Hd & _). tauto.
  - apply Z.ltb_ge in E. simpl. rewrite Hav. split; [discriminate|lia].
Qed.

Lemma two_boarded_lift_below : below_threshold two_boarded_lift.
Proof. unfold below_threshold, len. simpl. lra. Defined.

Lemma two_boarded_lift_stamped :
  Forall stamped (Lift.passengers two_boarded_lift).
Proof. repeat constructor; discriminate. Defined.

(** C1, the claim as stated, fails: at tick 12 the longest-waiting boarded
    passenger has waited 12 > 10 ticks, the queue is empty and the boarded
    count (2) is positive and below the threshold (8), yet the lift does not
    depart. *)
Lemma check_departure_longest_wait_counterexample :
  Lift.queue two_boarded_lift = []
  /\ below_threshold two_boarded_lift
  /\ 0 < len (Lift.passengers two_boarded_lift)
  /\ longest (waits 12 (Lift.passengers two_boarded_lift)) = Some 12
  /\ Lift.check_departure two_boarded_lift 12 = (two_boarded_lift, Ok tt)
  /\ Lift.available (fst (Lift.check_departure two_boarded_lift 12)) = true.
Proof.
  assert (H : Lift.check_departure two_boarded_lift 12
              = (two_boarded_lift, Ok tt)).
  { unfold Lift.check_departure. simpl Lift.queue. cbv iota.
    rewrite check_departure_triggers_below
      by exact two_boarded_lift_below.
    reflexivity. }
  repeat split; try reflexivity.
  - exact two_boarded_lift_below.
  - exact H.
  - rewrite H. reflexivity.
Qed.

Lemma check_departure_timeout_witness :
  exists w,
    shortest (waits 12 (Lift.passengers two_boarded_lift)) = Some w
    /\ Lift.check_departure two_boarded_lift 12
       = (if 10 <? w then Lift.depart two_boarded_lift 12
          else (two_boarded_lift, Ok tt))
    /\ (Lift.available two_boarded_lift = true ->
        (Lift.available (fst (Lift.check_departure two_boarded_lift 12))
         = false <-> 10 < w)).
Proof.
  apply (check_departure_timeout two_boarded_lift 12).
  - reflexivity.
  - exact two_boarded_lift_below.
  - reflexivity.
  - exact two_boarded_lift_stamped.
Defined.








(** ** Kinematic model *)

Local Open Scope R_scope.

Lemma init_gives_kinematics id capacity vmax acc door_time floor_height
      threshold l :
  Lift.init id capacity vmax acc door_time floor_height threshold = Ok l ->
  init_kinematics l
  /\ Lift.vmax l = vmax /\ Lift.acc l = acc /\ Lift.td l = door_time
  /\ Lift.df l = floor_height.
Proof.
  unfold Lift.init.
  destruct (Req_dec_T _ _); [discriminate|].
  destruct (Req_dec_T _ _); [discriminate|].
  intros [= <-]. unfold init_kinematics. simpl. repeat split.
Qed.

Lemma dist_nonneg (l : Lift.t) (n : Z) :
  0 <= Lift.df l -> (0 <= n)%Z -> 0 <= Lift.df l * IZR n.
Proof.
  intros Hdf Hn. apply Rmult_le_pos; [exact Hdf|].
  now apply IZR_le in Hn.
Qed.

Lemma div_nonneg (x y : R) : 0 <= x -> 0 < y -> 0 <= x / y.
Proof.
  intros Hx Hy. unfold Rdiv. apply Rmult_le_pos; [exact Hx|].
  left. now apply Rinv_0_lt_compat.
Qed.

(** C6: for a floor height [>= 0] and [n >= 0] the distance is [>= 0], one
    of the two velocity-profile conditions holds, and [travel_time(n)] never
    reaches the third branch ([raise ValueError()]). *)
Theorem travel_time_branches_exhaustive (l : Lift.t) (n : Z) :
  0 <= Lift.df l ->
  (0 <= n)%Z ->
  0 <= Lift.df l * IZR n
  /\ (Lift.df l * IZR n > 2 * Lift.smv l
      \/ Lift.df l * IZR n <= 2 * Lift.smv l)
  /\ Lift.travel_time l n <> Raise (ValueError "").
Proof.
  intros Hdf Hn. split; [now apply dist_nonneg|]. split.
  - destruct (Rle_dec (Lift.df l * IZR n) (2 * Lift.smv l));
      [right; assumption|left; lra].
  - unfold Lift.travel_time.
    destruct (Rgt_dec _ _) as [Hgt|Hngt].
    + destruct (Req_dec_T _ _); discriminate.
    + destruct (Rle_dec _ _) as [Hle|Hnle]; [|lra].
      destruct (Req_dec_T _ _); [discriminate|].
      destruct (Rlt_dec _ _); discriminate.
Qed.

Lemma travel_time_branches_exhaustive_witness :
  0 <= Lift.df single_seat_lift * IZR 5
  /\ (Lift.df single_seat_lift * IZR 5 > 2 * Lift.smv single_seat_lift
      \/ Lift.df single_seat_lift * IZR 5 <= 2 * Lift.smv single_seat_lift)
  /\ Lift.travel_time single_seat_lift 5 <> Raise (ValueError "").
Proof.
  apply (travel_time_branches_exhaustive single_seat_lift 5).
  - simpl. lra.
  - lia.
Defined.

(** The two formulas of [travel_time], by the branch the distance selects,
    for a lift with positive [vmax] and [acc]. *)
Lemma travel_time_cases (l : Lift.t) (n : Z) :
  0 < Lift.vmax l -> 0 < Lift.acc l -> 0 <= Lift.df l -> (0 <= n)%Z ->
  let dist := Lift.df l * IZR n in
  (dist > 2 * Lift.smv l
   /\ Lift.travel_time l n
      = Ok (2 * Lift.tmv l + (dist - 2 * Lift.smv l) / Lift.vmax l
            + 2 * Lift.td l))
  \/ (dist <= 2 * Lift.smv l
      /\ Lift.travel_time l n
         = Ok (2 * Lift.td l + 2 * sqrt (dist / Lift.acc l))).
Proof.
  intros Hv Ha Hdf Hn dist.
  pose proof (dist_nonneg l n Hdf Hn) as Hd. fold dist in Hd.
  unfold Lift.travel_time. fold dist.
  destruct (Rgt_dec dist (2 * Lift.smv l)) as [Hgt|Hngt].
  - left. split; [exact Hgt|].
    destruct (Req_dec_T (Lift.vmax l) 0); [lra|reflexivity].
  - right. split; [lra|].
    destruct (Rle_dec dist (2 * Lift.smv l)); [|lra].
    destruct (Req_dec_T (Lift.acc l) 0); [lra|].
    destruct (Rlt_dec (dist / Lift.acc l) 0) as [Hneg|]; [|reflexivity].
    pose proof (div_nonneg dist (Lift.acc l) Hd Ha). lra.
Qed.

(** At the switch-over distance [2 * smv] the triangular profile takes
    [2 * tmv]. *)
Lemma sqrt_at_switch (l : Lift.t) :
  init_kinematics l -> 0 < Lift.vmax l -> 0 < Lift.acc l ->
  sqrt (2 * Lift.smv l / Lift.acc l) = Lift.tmv l.
Proof.
  intros [Hs Ht] Hv Ha. rewrite Hs, Ht.
  replace (2 * (Lift.vmax l ^ 2 / (2 * Lift.acc l)) / Lift.acc l)
    with ((Lift.vmax l / Lift.acc l) * (Lift.vmax l / Lift.acc l))
    by (field; lra).
  apply sqrt_square. apply div_nonneg; lra.
Qed.

(** Zero floors: only the two door events remain. *)
Lemma travel_time_at_zero (l : Lift.t) :
  init_kinematics l -> 0 < Lift.vmax l -> 0 < Lift.acc l ->
  Lift.travel_time l 0 = Ok (2 * Lift.td l).
Proof.
  intros Hk Hv Ha. unfold Lift.travel_time. rewrite Rmult_0_r.
  destruct Hk as [Hs _].
  assert (0 <= Lift.smv l)
    by (rewrite Hs; apply div_nonneg; nra).
  destruct (Rgt_dec 0 (2 * Lift.smv l)); [lra|].
  destruct (Rle_dec 0 (2 * Lift.smv l)); [|lra].
  destruct (Req_dec_T (Lift.acc l) 0); [lra|].
  unfold Rdiv. rewrite Rmult_0_l.
  destruct (Rlt_dec 0 0); [lra|].
  rewrite sqrt_0. f_equal. lra.
Qed.

(** C7: on a lift with [vmax > 0], [acc > 0], [door_time >= 0] and
    [floor_height >= 0], [travel_time] returns a value for every [n >= 0],
    these values are non-decreasing in [n], and [travel_time(0)] is
    [2 * door_time]. *)
Theorem travel_time_monotone (l : Lift.t) :
  init_kinematics l ->
  0 < Lift.vmax l -> 0 < Lift.acc l -> 0 <= Lift.td l -> 0 <= Lift.df l ->
  (forall n m : Z,
      (0 <= n)%Z -> (n <= m)%Z ->
      exists tn tm,
        Lift.travel_time l n = Ok tn /\ Lift.travel_time l m = Ok tm
        /\ tn <= tm)
  /\ Lift.travel_time l 0 = Ok (2 * Lift.td l).
Proof.
  intros Hk Hv Ha Htd Hdf. split.
  - intros n m Hn Hnm.
    assert (Hm : (0 <= m)%Z) by lia.
    assert (Hdist : Lift.df l * IZR n <= Lift.df l * IZR m)
      by (apply Rmult_le_compat_l; [exact Hdf|now apply IZR_le]).
    pose proof (dist_nonneg l n Hdf Hn) as Hdn.
    assert (Hinv : 0 < / Lift.acc l) by now apply Rinv_0_lt_compat.
    assert (Hinvv : 0 < / Lift.vmax l) by now apply Rinv_0_lt_compat.
    destruct (travel_time_cases l n Hv Ha Hdf Hn) as [[Hgn ->]|[Hln ->]];
      destruct (travel_time_cases l m Hv Ha Hdf Hm) as [[Hgm ->]|[Hlm ->]];
      do 2 eexists; (split; [reflexivity|]); (split; [reflexivity|]).
    + unfold Rdiv.
      assert ((Lift.df l * IZR n - 2 * Lift.smv l) * / Lift.vmax l
              <= (Lift.df l * IZR m - 2 * Lift.smv l) * / Lift.vmax l)
        by (apply Rmult_le_compat_r; lra).
      lra.
    + lra.
    + assert (Hsq : sqrt (Lift.df l * IZR n / Lift.acc l) <= Lift.tmv l).
      { rewrite <- (sqrt_at_switch l Hk Hv Ha). apply sqrt_le_1_alt.
        unfold Rdiv. apply Rmult_le_compat_r; lra. }
      assert (0 <= (Lift.df l * IZR m - 2 * Lift.smv l) / Lift.vmax l)
        by (apply div_nonneg; lra).
      lra.
    + assert (sqrt (Lift.df l * IZR n / Lift.acc l)
              <= sqrt (Lift.df l * IZR m / Lift.acc l)).
      { apply sqrt_le_1_alt. unfold Rdiv. apply Rmult_le_compat_r; lra. }
      lra.
  - now apply travel_time_at_zero.
Qed.

Lemma single_seat_lift_kinematics : init_kinematics single_seat_lift.
Proof. unfold init_kinematics. simpl. split; field. Defined.

Lemma travel_time_monotone_witness :
  (forall n m : Z,
      (0 <= n)%Z -> (n <= m)%Z ->
      exists tn tm,
        Lift.travel_time single_seat_lift n = Ok tn
        /\ Lift.travel_time single_seat_lift m = Ok tm
        /\ tn <= tm)
  /\ Lift.travel_time single_seat_lift 0
     = Ok (2 * Lift.td single_seat_lift).
Proof.
  apply (travel_time_monotone single_seat_lift).
  - exact single_seat_lift_kinematics.
  - simpl. lra.
  - simpl. lra.
  - simpl. lra.
  - simpl. lra.
Defined.

Local Close Scope R_scope.

(** ** Average destination floor *)

Lemma fold_left_add (ds : list Z) :
  forall a, fold_left Z.add ds a = a + fold_right Z.add 0 ds.
Proof.
  induction ds as [|d ds IH]; intros a; simpl; [lia|].
  rewrite IH. lia.
Qed.

Lemma average_mean (ps : list Passenger.t) :
  ps <> [] ->
  Lift.average ps (len ps) = Ok (mean (map Passenger.destination ps)).
Proof.
  intros Hne. unfold Lift.average, mean, Lift.sum_destinations.
  destruct (len ps =? 0) eqn:E.
  - apply Z.eqb_eq in E. destruct ps; [congruence|]. unfold len in E.
    simpl in E. lia.
  - rewrite fold_left_add. unfold len. rewrite length_map. reflexivity.
Qed.

Lemma last_entries {A : Type} (k : Z) (xs : list A) :
  0 < k <= len xs ->
  exists front,
    xs = front ++ Lift.slice_from_neg k xs
    /\ len (Lift.slice_from_neg k xs) = k.
Proof.
  unfold len, Lift.slice_from_neg. intros [Hk Hle].
  apply Z.ltb_lt in Hk as Hk'. rewrite Hk'.
  exists (firstn (length xs - Z.to_nat k) xs). split.
  - symmetry. apply firstn_skipn.
  - rewrite length_skipn. lia.
Qed.

(** C9: with [batch = boarded + queue] and a positive capacity,
    [get_avg_floor()] returns 0 on an empty batch, the mean of all batch
    destinations when the batch is smaller than the capacity, 0 when the
    batch size is a positive multiple of the capacity, and otherwise the
    mean of the destinations of the last [size mod capacity] entries.  With
    capacity 4, destinations 3,3,3,3,7 give 7 and 3,3,3,3 give 0. *)
Theorem get_avg_floor_spec (l : Lift.t) :
  0 < Lift.capacity l ->
  let batch := Lift.passengers l ++ Lift.queue l in
  let total := len batch in
  (total = 0 -> Lift.get_avg_floor l = Ok 0%Q)
  /\ (0 < total < Lift.capacity l ->
      Lift.get_avg_floor l = Ok (mean (map Passenger.destination batch)))
  /\ (0 < total -> total mod Lift.capacity l = 0 ->
      Lift.get_avg_floor l = Ok 0%Q)
  /\ (Lift.capacity l <= total -> total mod Lift.capacity l <> 0 ->
      exists front tail,
        batch = front ++ tail
        /\ len tail = total mod Lift.capacity l
        /\ Lift.get_avg_floor l
           = Ok (mean (map Passenger.destination tail)))
  /\ (Lift.capacity l = 4 ->
      map Passenger.destination batch = [3; 3; 3; 3; 7] ->
      Lift.get_avg_floor l = Ok 7%Q)
  /\ (Lift.capacity l = 4 ->
      map Passenger.destination batch = [3; 3; 3; 3] ->
      Lift.get_avg_floor l = Ok 0%Q).
Proof.
  intros Hcap batch total. unfold Lift.get_avg_floor.
  fold batch. fold total.
  assert (Hc0 : (Lift.capacity l =? 0) = false) by (apply Z.eqb_neq; lia).
  repeat split.
  - intros ->. reflexivity.
  - intros [Hpos Hlt].
    assert (E0 : (total =? 0) = false) by (apply Z.eqb_neq; lia).
    apply Z.ltb_lt in Hlt. rewrite E0, Hlt.
    apply average_mean. intros E. subst total. rewrite E in Hpos.
    cbv in Hpos. discriminate.
  - intros Hpos Hmod.
    assert (E0 : (total =? 0) = false) by (apply Z.eqb_neq; lia).
    rewrite E0, Hc0, Hmod.
    destruct (total <? Lift.capacity l) eqn:Elt; [|reflexivity].
    apply Z.ltb_lt in Elt. rewrite Z.mod_small in Hmod by lia. lia.
  - intros Hge Hmod.
    assert (E0 : (total =? 0) = false) by (apply Z.eqb_neq; lia).
    assert (Elt : (total <? Lift.capacity l) = false)
      by (apply Z.ltb_ge; lia).
    assert (Er : (total mod Lift.capacity l =? 0) = false)
      by (now apply Z.eqb_neq).
    rewrite E0, Elt, Hc0, Er.
    pose proof (Z.mod_pos_bound total (Lift.capacity l) Hcap) as Hb.
    destruct (last_entries (total mod Lift.capacity l) batch)
      as [front [Hsplit Hlen]]; [subst total; lia|].
    exists front, (Lift.slice_from_neg (total mod Lift.capacity l) batch).
    split; [exact Hsplit|]. split; [exact Hlen|].
    apply average_mean. intros E. rewrite E in Hlen.
    change (@len Passenger.t []) with 0 in Hlen. lia.
  - intros Hc4 Hd. subst total. rewrite Hc4.
    destruct batch as [|p1 [|p2 [|p3 [|p4 [|p5 [|p6 ?]]]]]];
      try discriminate Hd.
    injection Hd as H1 H2 H3 H4 H5.
    destruct p5 as [d5 ? ? ? ? ? ? ?]. simpl in H5. subst d5.
    vm_compute. reflexivity.
  - intros Hc4 Hd. subst total. rewrite Hc4.
    destruct batch as [|p1 [|p2 [|p3 [|p4 [|p5 ?]]]]];
      try discriminate Hd.
    reflexivity.
Qed.

Lemma get_avg_floor_spec_witness :
  Lift.get_avg_floor five_batch_lift = Ok 7%Q.
Proof.
  destruct (get_avg_floor_spec five_batch_lift) as (_ & _ & _ & _ & H & _).
  - reflexivity.
  - apply H; reflexivity.
Defined.

(** ** Round trip *)

Lemma travel_time_returns (l : Lift.t) (n : Z) :
  (0 < Lift.vmax l)%R -> (0 < Lift.acc l)%R -> (0 <= Lift.df l)%R ->
  0 <= n ->
  exists t, Lift.travel_time l n = Ok t.
Proof.
  intros Hv Ha Hdf Hn.
  destruct (travel_time_cases l n Hv Ha Hdf Hn) as [[_ H]|[_ H]];
    eexists; exact H.
Qed.

Lemma last_cons {A : Type} (xs : list A) :
  forall x d, last (x :: xs) d = last xs x.
Proof.
  induction xs as [|y ys IH]; intros x d; [reflexivity|].
  change (last (x :: y :: ys) d) with (last (y :: ys) d).
  now rewrite (IH y d), (IH y x).
Qed.

Lemma last_running (legs : list R) :
  forall time, last (running time legs) time = (time + total legs)%R.
Proof.
  induction legs as [|t legs IH]; intros time.
  - simpl. unfold total. simpl. lra.
  - change (running time (t :: legs))
      with ((time + t)%R :: running (time + t)%R legs).
    rewrite last_cons, IH. unfold total. simpl. lra.
Qed.

Lemma visit_spec (l : Lift.t) (clock : Z) (ps : list Passenger.t) :
  (0 < Lift.vmax l)%R -> (0 < Lift.acc l)%R -> (0 <= Lift.df l)%R ->
  forall time prev_n,
    StronglySorted Z.le (prev_n :: map Passenger.destination ps) ->
    exists legs,
      leg_times l (deltas prev_n (map Passenger.destination ps)) legs
      /\ Lift.visit l clock time prev_n ps
         = (stamp_all ps (running time legs),
            running time legs,
            combine (map (fun t => (t + IZR clock)%R) (running time legs))
                    (map Passenger.destination ps),
            Ok ((time + total legs)%R,
                last (map Passenger.destination ps) prev_n)).
Proof.
  intros Hv Ha Hdf.
  induction ps as [|p ps IH]; intros time prev_n Hs.
  - exists []. split; [constructor|]. simpl. unfold total. simpl.
    now rewrite Rplus_0_r.
  - inversion Hs as [|? ? Hs' Hall]; subst.
    inversion Hall as [|? ? Hle _]; subst.
    destruct (travel_time_returns l (Passenger.destination p - prev_n)
                                  Hv Ha Hdf) as [dt Hdt]; [lia|].
    destruct (IH (time + dt)%R (Passenger.destination p) Hs')
      as [legs [Hlegs Hvisit]].
    exists (dt :: legs). split; [now constructor|].
    change (map Passenger.destination (p :: ps))
      with (Passenger.destination p :: map Passenger.destination ps).
    rewrite last_cons.
    simpl. rewrite Hdt, Hvisit. unfold total. simpl.
    replace (time + (dt + fold_right Rplus 0 legs))%R
      with (time + dt + fold_right Rplus 0 legs)%R by lra.
    reflexivity.
Qed.

Lemma travel_time_same_kinematics (l l' : Lift.t) (n : Z) :
  Lift.df l' = Lift.df l -> Lift.smv l' = Lift.smv l ->
  Lift.tmv l' = Lift.tmv l -> Lift.vmax l' = Lift.vmax l ->
  Lift.acc l' = Lift.acc l -> Lift.td l' = Lift.td l ->
  Lift.travel_time l' n = Lift.travel_time l n.
Proof.
  unfold Lift.travel_time. intros -> -> -> -> -> ->. reflexivity.
Qed.

Lemma leg_times_same_kinematics (l l' : Lift.t) ns legs :
  (forall n, Lift.travel_time l' n = Lift.travel_time l n) ->
  leg_times l' ns legs -> leg_times l ns legs.
Proof.
  intros Heq H. induction H; constructor; [|assumption].
  now rewrite <- Heq.
Qed.

Lemma stamp_all_travelling (ps : list Passenger.t) (times : list R) :
  length times = length ps ->
  map Passenger.time_travelling (stamp_all ps times) = map Some times.
Proof.
  revert times. unfold stamp_all.
  induction ps as [|p ps IH]; intros [|t times] Hlen; simpl in *;
    try discriminate; [reflexivity|].
  f_equal. apply IH. now injection Hlen.
Qed.

Lemma stamp_all_origin (ps : list Passenger.t) (times : list R) :
  length times = length ps ->
  map origin (stamp_all ps times) = map origin ps.
Proof.
  revert times. unfold stamp_all.
  induction ps as [|p ps IH]; intros [|t times] Hlen; simpl in *;
    try discriminate; [reflexivity|].
  f_equal. apply IH. now injection Hlen.
Qed.

Lemma fold_left_Rplus_total (legs : list R) :
  forall a, fold_left Rplus legs a = (a + total legs)%R.
Proof.
  unfold total.
  induction legs as [|t legs IH]; intros a; simpl; [lra|].
  rewrite IH. lra.
Qed.

Lemma stamp_all_destinations (ps : list Passenger.t) (times : list R) :
  length times = length ps ->
  map Passenger.destination (stamp_all ps times)
  = map Passenger.destination ps.
Proof.
  revert times. unfold stamp_all.
  induction ps as [|p ps IH]; intros [|t times] Hlen; simpl in *;
    try discriminate; [reflexivity|].
  f_equal. apply IH. now injection Hlen.
Qed.

Lemma running_length (legs : list R) :
  forall time, length (running time legs) = length legs.
Proof.
  induction legs as [|t legs IH]; intros time; simpl; [reflexivity|].
  now rewrite IH.
Qed.

Lemma deltas_length (floors : list Z) :
  forall prev, length (deltas prev floors) = length floors.
Proof.
  induction floors as [|n floors IH]; intros prev; simpl; [reflexivity|].
  now rewrite IH.
Qed.

Lemma sorted_map_key {A : Type} (key : A -> Z) (xs : list A) :
  map key (sorted key Z.leb xs) = sorted (fun k => k) Z.leb (map key xs).
Proof.
  induction xs as [|x xs IH]; [reflexivity|].
  simpl. rewrite <- IH. clear IH.
  induction (sorted key Z.leb xs) as [|y ys IHy]; [reflexivity|].
  simpl. destruct (key x <=? key y); [reflexivity|].
  simpl. now rewrite IHy.
Qed.

Lemma comp_travel_loop_running (l : Lift.t) (floors : list Z) :
  forall time prev_n legs,
    leg_times l (deltas prev_n floors) legs ->
    Lift.comp_travel_loop l time prev_n floors = Ok (running time legs).
Proof.
  induction floors as [|n floors IH]; intros time prev_n legs H;
    inversion H as [|? t ? legs' Ht Hrest]; subst; simpl.
  - reflexivity.
  - rewrite Ht. simpl. rewrite (IH _ _ _ Hrest). reflexivity.
Qed.

(** C8: on a lift with [vmax > 0], [acc > 0], [floor_height >= 0] whose
    boarded passengers go to floors [>= 0], [update_trip_times(clock)]
    visits the boarded passengers in the order of the stable ascending sort
    by destination: the floors are non-decreasing, and passengers of the
    same destination keep their boarding order (boarding order 5,2,2,8 is
    visited as 2,2,5,8).  It returns the sum of [travel_time] over the
    consecutive floor differences from floor 0 plus [travel_time] of the
    return leg from the last destination to floor 0, added up from left to
    right, and stamps each passenger with the cumulative time at its own
    stop, as [comp_travel] gives it: read back in visit order, the
    [time.travelling] entries are these cumulative times, the passengers
    are otherwise who they were, and the same times are appended to
    [passenger_travel_times]. *)
Theorem update_trip_times_spec (l : Lift.t) (clock : Z) :
  (0 < Lift.vmax l)%R -> (0 < Lift.acc l)%R -> (0 <= Lift.df l)%R ->
  Forall (fun p => 0 <= Passenger.destination p) (Lift.passengers l) ->
  let visit_order := sorted Passenger.destination Z.leb (Lift.passengers l) in
  let floors := map Passenger.destination visit_order in
  StronglySorted Z.le floors
  /\ Permutation (Lift.passengers l) visit_order
  /\ (forall d,
         filter (fun p => Passenger.destination p =? d) visit_order
         = filter (fun p => Passenger.destination p =? d) (Lift.passengers l))
  /\ (map Passenger.destination (Lift.passengers l) = [5; 2; 2; 8] ->
      floors = [2; 2; 5; 8])
  /\ exists legs back,
      leg_times l (deltas 0 floors) legs
      /\ Lift.travel_time l (Z.abs (0 - last floors 0)) = Ok back
      /\ snd (Lift.update_trip_times l clock) = Ok (total legs + back)%R
      /\ Lift.passengers (fst (Lift.update_trip_times l clock))
         = stamp_all visit_order (running 0%R legs)
      /\ map Passenger.destination
             (Lift.passengers (fst (Lift.update_trip_times l clock)))
         = floors
      /\ Lift.comp_travel l (0 :: floors) = Ok (0%R :: running 0%R legs)
      /\ Lift.loc_history (fst (Lift.update_trip_times l clock))
         = Lift.loc_history l
           ++ [(IZR clock, 0)]
           ++ combine (map (fun t => (t + IZR clock)%R) (running 0%R legs))
                      floors
           ++ [((total legs + back + IZR clock)%R, 0)]
      /\ map Passenger.time_travelling
             (Lift.passengers (fst (Lift.update_trip_times l clock)))
         = map Some (running 0%R legs)
      /\ map origin (Lift.passengers (fst (Lift.update_trip_times l clock)))
         = map origin visit_order
      /\ Lift.passenger_travel_times (fst (Lift.update_trip_times l clock))
         = Lift.passenger_travel_times l ++ running 0%R legs
      /\ snd (Lift.update_trip_times l clock)
         = Ok (fold_left Rplus (legs ++ [back]) 0%R).
Proof.
  intros Hv Ha Hdf Hdest visit_order floors.
  assert (Hasc : StronglySorted Z.le floors)
    by apply (sorted_ascending Passenger.destination).
  assert (Hperm : Permutation (Lift.passengers l) visit_order)
    by apply sorted_perm.
  split; [exact Hasc|]. split; [exact Hperm|].
  split; [intros d; apply sorted_stable|].
  split.
  { intros H. unfold floors, visit_order.
    rewrite sorted_map_key, H. reflexivity. }
  assert (Hfrom0 : StronglySorted Z.le (0 :: floors)).
  { constructor; [exact Hasc|]. unfold floors.
    apply Forall_map. eapply Permutation_Forall; [exact Hperm|exact Hdest]. }
  set (l1 := Lift.set_loc_history
               (Lift.loc_history (Lift.set_passengers visit_order l)
                ++ [(IZR clock, 0)])
               (Lift.set_passengers visit_order l)).
  assert (Hsame : forall n, Lift.travel_time l1 n = Lift.travel_time l n)
    by (intros n; apply travel_time_same_kinematics; reflexivity).
  destruct (visit_spec l1 clock visit_order Hv Ha Hdf 0%R 0 Hfrom0)
    as [legs [Hlegs Hvisit]].
  fold floors in Hlegs, Hvisit.
  apply (leg_times_same_kinematics l l1) in Hlegs; [|exact Hsame].
  destruct (travel_time_returns l (Z.abs (0 - last floors 0)) Hv Ha Hdf)
    as [back Hback]; [lia|].
  exists legs, back.
  split; [exact Hlegs|]. split; [exact Hback|].
  assert (Hlen : length (running 0%R legs) = length visit_order).
  { rewrite running_length.
    rewrite <- (Forall2_length Hlegs), deltas_length.
    unfold floors. now rewrite length_map. }
  assert (Hrun : Lift.update_trip_times l clock
                 = (Lift.set_loc_history
                      (Lift.loc_history l
                       ++ [(IZR clock, 0)]
                       ++ combine (map (fun t => (t + IZR clock)%R)
                                       (running 0%R legs)) floors
                       ++ [((total legs + back + IZR clock)%R, 0)])
                      (Lift.set_passenger_travel_times
                         (Lift.passenger_travel_times l ++ running 0%R legs)
                         (Lift.set_passengers
                            (stamp_all visit_order (running 0%R legs)) l)),
                    Ok (total legs + back)%R)).
  { unfold Lift.update_trip_times. fold visit_order. fold l1.
    change (Lift.passengers l1) with visit_order.
    rewrite Hvisit.
    match goal with
    | |- context [Lift.travel_time ?x (Z.abs (0 - last floors 0))] =>
        replace (Lift.travel_time x (Z.abs (0 - last floors 0)))
          with (Ok (A := R) back)
          by (rewrite <- Hback; symmetry;
              apply travel_time_same_kinematics; reflexivity)
    end.
    unfold Lift.set_loc_history, Lift.set_passenger_travel_times,
      Lift.set_passengers, l1. simpl.
    rewrite Rplus_0_l, <- !app_assoc. reflexivity. }
  rewrite Hrun. simpl.
  split; [reflexivity|]. split; [reflexivity|].
  split; [now apply stamp_all_destinations|].
  split.
  { rewrite (comp_travel_loop_running l floors 0%R 0 legs Hlegs).
    reflexivity. }
  split; [reflexivity|].
  split; [now apply stamp_all_travelling|].
  split; [now apply stamp_all_origin|].
  split; [reflexivity|].
  rewrite fold_left_app. simpl. rewrite fold_left_Rplus_total.
  f_equal. lra.
Qed.

Lemma update_trip_times_spec_witness :
  map Passenger.destination
      (Lift.passengers (fst (Lift.update_trip_times four_boarded_lift 4)))
  = [2; 2; 5; 8]
  /\ map Passenger.time_start
         (sorted Passenger.destination Z.leb
                 (Lift.passengers four_boarded_lift))
     = [1; 2; 0; 3]
  /\ map origin
         (Lift.passengers (fst (Lift.update_trip_times four_boarded_lift 4)))
     = [(2, 1); (2, 2); (5, 0); (8, 3)]
  /\ exists times,
      map Passenger.time_travelling
          (Lift.passengers (fst (Lift.update_trip_times four_boarded_lift 4)))
      = map Some times
      /\ Lift.passenger_travel_times
           (fst (Lift.update_trip_times four_boarded_lift 4))
         = times.
Proof.
  destruct (update_trip_times_spec four_boarded_lift 4)
    as (_ & _ & _ & Hex & legs & back & _ & _ & _ & _ & Hd & _ & _
        & Htrav & Horigin & Htimes & _).
  - simpl. lra.
  - simpl. lra.
  - simpl. lra.
  - repeat constructor; simpl; lia.
  - split; [rewrite Hd; apply Hex; reflexivity|].
    split; [reflexivity|].
    split; [rewrite Horigin; reflexivity|].
    exists (running 0%R legs). split; [exact Htrav|exact Htimes].
Defined.

(** ** A lift that never comes back *)

Lemma stays_away_refl t l : stays_away t l l.
Proof. unfold stays_away. auto. Qed.

Lemma stays_away_trans t t' l1 l2 l3 :
  t <= t' ->
  stays_away t l1 l2 -> stays_away t' l2 l3 -> stays_away t l1 l3.
Proof.
  unfold stays_away. intros Hle H12 H23 Hav Harr.
  destruct (H12 Hav Harr) as (Hav2 & Harr2 & Hps2).
  destruct (H23 Hav2) as (Hav3 & Harr3 & Hps3); [lia|].
  repeat split; congruence.
Qed.

Lemma lifts_stay_away_refl t ls : lifts_stay_away t ls ls.
Proof.
  intros i l H. exists l. split; [exact H|apply stays_away_refl].
Qed.

Lemma lifts_stay_away_trans t t' ls1 ls2 ls3 :
  t <= t' ->
  lifts_stay_away t ls1 ls2 -> lifts_stay_away t' ls2 ls3 ->
  lifts_stay_away t ls1 ls3.
Proof.
  intros Hle H12 H23 i l1 H1.
  destruct (H12 i l1 H1) as (l2 & H2 & Hs12).
  destruct (H23 i l2 H2) as (l3 & H3 & Hs23).
  exists l3. split; [exact H3|].
  eapply stays_away_trans; eassumption.
Qed.

Lemma lifts_stay_away_cons t l l' ls ls' :
  stays_away t l l' -> lifts_stay_away t ls ls' ->
  lifts_stay_away t (l :: ls) (l' :: ls').
Proof.
  intros Hl Hls [|i] x H; simpl in *.
  - injection H as <-. exists l'. auto.
  - now apply Hls.
Qed.

Lemma update_nth_stays_away t (f : Lift.t -> Lift.t) :
  (forall l, stays_away t l (f l)) ->
  forall i ls, lifts_stay_away t ls (Simulation.update_nth i f ls).
Proof.
  intros Hf i ls. revert i.
  induction ls as [|l ls IH]; intros i.
  - destruct i; apply lifts_stay_away_refl.
  - destruct i as [|i]; simpl.
    + apply lifts_stay_away_cons; [apply Hf|apply lifts_stay_away_refl].
    + apply lifts_stay_away_cons; [apply stays_away_refl|apply IH].
Qed.

Lemma queue_passenger_stays_away t l p clock :
  stays_away t l (Lift.queue_passenger l p clock).
Proof. unfold stays_away. simpl. auto. Qed.

(** Every assignment strategy leaves the clock alone and touches the lifts
    only through [queue_passenger]. *)
Lemma queue_on_stays_away t s i p :
  lifts_stay_away t (Simulation.lifts s)
                  (Simulation.lifts (Simulation.queue_on s i p))
  /\ Simulation.clock (Simulation.queue_on s i p) = Simulation.clock s.
Proof.
  split; [|reflexivity]. simpl.
  apply update_nth_stays_away. intros l. apply queue_passenger_stays_away.
Qed.

Lemma assign_greedy_stays_away t s p :
  let s' := fst (Simulation.assign_greedy s p) in
  lifts_stay_away t (Simulation.lifts s) (Simulation.lifts s')
  /\ Simulation.clock s' = Simulation.clock s.
Proof.
  unfold Simulation.assign_greedy.
  destruct (sorted _ _ _) as [|[i l0] rest]; simpl.
  - split; [apply lifts_stay_away_refl|reflexivity].
  - apply queue_on_stays_away.
Qed.

Lemma call_assignment_func_stays_away t s p r :
  let s' := fst (Simulation.call_assignment_func s p r) in
  lifts_stay_away t (Simulation.lifts s) (Simulation.lifts s')
  /\ Simulation.clock s' = Simulation.clock s.
Proof.
  assert (Hrefl : lifts_stay_away t (Simulation.lifts s) (Simulation.lifts s)
                  /\ Simulation.clock s = Simulation.clock s)
    by (split; [apply lifts_stay_away_refl|reflexivity]).
  unfold Simulation.call_assignment_func.
  destruct (Simulation.assignment_func s) as [[| | |]|]; [| | | |exact Hrefl].
  - apply assign_greedy_stays_away.
  - unfold Simulation.assign_nearest_lift.
    destruct (find _ _) as [[i l0]|].
    + apply queue_on_stays_away.
    + apply assign_greedy_stays_away.
  - unfold Simulation.assign_grouping.
    destruct (Simulation.avg_floors _) as [avgs|e]; [|exact Hrefl].
    destruct (sorted _ _ _) as [|[best best_avg] ?]; [exact Hrefl|].
    destruct (filter _ _) as [|[first_empty ?] ?];
      [apply queue_on_stays_away|].
    destruct (negb _); apply queue_on_stays_away.
  - unfold Simulation.assign_random.
    destruct (nth_error _ _); [apply queue_on_stays_away|exact Hrefl].
Qed.

Lemma assign_loop_stays_away t d n :
  forall s j,
    let s' := fst (Simulation.assign_loop s d j n) in
    lifts_stay_away t (Simulation.lifts s) (Simulation.lifts s')
    /\ Simulation.clock s' = Simulation.clock s.
Proof.
  induction n as [|n IH]; intros s j; simpl.
  - split; [apply lifts_stay_away_refl|reflexivity].
  - destruct (Simulation.q s) as [|p rest]; simpl.
    + split; [apply lifts_stay_away_refl|reflexivity].
    + pose proof (call_assignment_func_stays_away
                    t (Simulation.set_q rest s) p (Simulation.pick d j))
        as [Hl Hc].
      destruct (Simulation.call_assignment_func
                  (Simulation.set_q rest s) p (Simulation.pick d j))
        as [s1 [[]|e]]; simpl in *.
      * destruct (IH s1 (S j)) as [Hl' Hc']. split.
        -- eapply lifts_stay_away_trans; [apply Z.le_refl|exact Hl|exact Hl'].
        -- congruence.
      * split; assumption.
Qed.

(** A lift that is away with its return scheduled before [clock] gets no
    match in [check_arrival(clock)]. *)
Lemma check_arrival_stays_away clock l :
  stays_away clock l (fst (Lift.check_arrival l clock)).
Proof.
  unfold stays_away, Lift.check_arrival. intros Hav Harr.
  destruct (clock =? Lift.arrival_time l) eqn:E.
  - apply Z.eqb_eq in E. lia.
  - simpl. auto.
Qed.

Lemma update_lifts_stays_away clock ls :
  forall arrivals,
    lifts_stay_away clock ls
                    (fst (fst (Simulation.update_lifts clock ls arrivals))).
Proof.
  induction ls as [|l ls IH]; intros arrivals; simpl.
  - apply lifts_stay_away_refl.
  - unfold Lift.is_available.
    change (Lift.available (Lift.update l)) with (Lift.available l).
    destruct (Lift.available l) eqn:Eav.
    + assert (Hl : forall l', stays_away clock l l').
      { intros l' Hav _. congruence. }
      destruct (Lift.check_departure (Lift.update l) clock) as [l1 [[]|e]].
      * specialize (IH arrivals).
        destruct (Simulation.update_lifts clock ls arrivals)
          as [[ls' arr'] r]. simpl in *.
        apply lifts_stay_away_cons; [apply Hl|exact IH].
      * simpl. apply lifts_stay_away_cons;
          [apply Hl|apply lifts_stay_away_refl].
    + pose proof (check_arrival_stays_away clock (Lift.update l)) as Hl.
      destruct (Lift.check_arrival (Lift.update l) clock)
        as [l1 completed].
      specialize (IH (arrivals ++ completed)).
      destruct (Simulation.update_lifts clock ls (arrivals ++ completed))
        as [[ls' arr'] r]. simpl in *.
      apply lifts_stay_away_cons; [exact Hl|exact IH].
Qed.

Lemma step_stays_away s d :
  let s' := fst (Simulation.step s d) in
  lifts_stay_away (Simulation.clock s)
                  (Simulation.lifts s) (Simulation.lifts s')
  /\ Simulation.clock s <= Simulation.clock s'
  /\ (snd (Simulation.step s d) = Ok tt ->
      Simulation.clock s' = Simulation.clock s + 1).
Proof.
  unfold Simulation.step.
  destruct (Simulation.traffic s) as [tr|]; simpl.
  2:{ split; [apply lifts_stay_away_refl|]. split; [lia|discriminate]. }
  destruct (Simulation.new_arrivals (Simulation.clock s) tr (Simulation.q s))
    as [tr' waiting].
  set (s0 := Simulation.set_q waiting
               (Simulation.set_traffic_field (Some tr') s)).
  pose proof (assign_loop_stays_away (Simulation.clock s) d
                (Simulation.batch d) s0 0) as [Hl Hc].
  destruct (Simulation.assign_loop s0 d 0 (Simulation.batch d))
    as [s1 [[]|e]]; simpl in *.
  2:{ split; [exact Hl|]. split; [lia|discriminate]. }
  pose proof (update_lifts_stays_away (Simulation.clock s1)
                (Simulation.lifts s1) (Simulation.arrivals s1)) as Hu.
  destruct (Simulation.update_lifts (Simulation.clock s1)
              (Simulation.lifts s1) (Simulation.arrivals s1))
    as [[ls arr] r]. simpl in Hu.
  assert (Hall : lifts_stay_away (Simulation.clock s)
                                 (Simulation.lifts s) ls).
  { eapply lifts_stay_away_trans; [|exact Hl|exact Hu]. lia. }
  destruct r as [[]|e]; simpl.
  - split; [exact Hall|]. split; [lia|intros _; lia].
  - split; [exact Hall|]. split; [lia|discriminate].
Qed.

Lemma steps_stays_away ds :
  forall s,
    lifts_stay_away (Simulation.clock s) (Simulation.lifts s)
                    (Simulation.lifts (fst (Simulation.steps s ds))).
Proof.
  induction ds as [|d ds IH]; intros s; simpl.
  - apply lifts_stay_away_refl.
  - pose proof (step_stays_away s d) as (Hl & Hc & _).
    destruct (Simulation.step s d) as [s1 [[]|e]]; simpl in *.
    + eapply lifts_stay_away_trans; [exact Hc|exact Hl|apply IH].
    + exact Hl.
Qed.

Lemma depart_zero_rtt (l : Lift.t) (clock : Z) :
  snd (Lift.depart l clock) = Ok tt ->
  Lift.rtt (fst (Lift.depart l clock)) = Some 0%R ->
  Lift.arrival_time (fst (Lift.depart l clock)) = clock
  /\ Lift.available (fst (Lift.depart l clock)) = false.
Proof.
  intros Hok Hrtt. split; [|apply LiftFacts.depart_frame].
  revert Hok Hrtt. unfold Lift.depart.
  destruct (Lift.update_trip_times _ clock) as [l2 [time|e]]; simpl;
    [|discriminate].
  intros _ [= ->]. apply Zceil_eq. lra.
Qed.

Lemma threshold_zero_lift_departs (clock : Z) :
  let r := Lift.check_departure threshold_zero_lift clock in
  snd r = Ok tt
  /\ Lift.rtt (fst r) = Some 0%R
  /\ Lift.arrival_time (fst r) = clock
  /\ Lift.available (fst r) = false
  /\ Lift.passengers (fst r) = [].
Proof.
  assert (Hmet : ~ below_threshold threshold_zero_lift)
    by (unfold below_threshold, len; simpl; lra).
  assert (Hcd : Lift.check_departure threshold_zero_lift clock
                = Lift.depart threshold_zero_lift clock).
  { unfold Lift.check_departure. simpl Lift.queue. cbv iota.
    now apply check_departure_triggers_met. }
  assert (Hok : snd (Lift.depart threshold_zero_lift clock) = Ok tt
                /\ Lift.rtt (fst (Lift.depart threshold_zero_lift clock))
                   = Some 0%R
                /\ Lift.passengers (fst (Lift.depart threshold_zero_lift clock))
                   = []).
  { unfold Lift.depart, Lift.update_trip_times.
    cbn -[Lift.travel_time Zceil IZR Rplus Rmult Rdiv].
    match goal with
    | |- context [Lift.travel_time ?x 0] =>
        rewrite (travel_time_at_zero x)
    end.
    - cbn -[Zceil IZR Rplus Rmult Rdiv].
      repeat split. f_equal. lra.
    - unfold init_kinematics. simpl. split; field.
    - simpl. lra.
    - simpl. lra. }
  destruct Hok as (Hs & Hrtt & Hps).
  cbv zeta. rewrite Hcd.
  destruct (depart_zero_rtt threshold_zero_lift clock Hs Hrtt) as [Harr Hav].
  repeat split; assumption.
Qed.

(** C10: a departure at clock [c] whose round-trip time is 0 schedules the
    return for [c] itself and leaves the lift unavailable; this happens for
    a lift with door time 0, threshold 0 and nobody boarded.  A [step] that
    completes moves the clock on by one, and a lift that is unavailable
    with its return scheduled before the current clock is still
    unavailable, with the same schedule and the same boarded passengers,
    after any number of further steps, whatever is drawn or assigned and
    also when a step raises. *)
Theorem zero_round_trip_never_returns :
  (forall l c,
      snd (Lift.depart l c) = Ok tt ->
      Lift.rtt (fst (Lift.depart l c)) = Some 0%R ->
      Lift.arrival_time (fst (Lift.depart l c)) = c
      /\ Lift.available (fst (Lift.depart l c)) = false)
  /\ (forall c,
         let r := Lift.check_departure threshold_zero_lift c in
         snd r = Ok tt
         /\ Lift.rtt (fst r) = Some 0%R
         /\ Lift.arrival_time (fst r) = c
         /\ Lift.available (fst r) = false
         /\ Lift.passengers (fst r) = [])
  /\ (forall s d,
         snd (Simulation.step s d) = Ok tt ->
         Simulation.clock (fst (Simulation.step s d))
         = Simulation.clock s + 1)
  /\ (forall l current_time,
         Lift.available l = false ->
         Lift.arrival_time l < current_time ->
         Lift.check_arrival l current_time = (l, []))
  /\ (forall s i l ds,
         nth_error (Simulation.lifts s) i = Some l ->
         Lift.available l = false ->
         Lift.arrival_time l < Simulation.clock s ->
         exists l',
           nth_error (Simulation.lifts (fst (Simulation.steps s ds))) i
           = Some l'
           /\ Lift.available l' = false
           /\ Lift.arrival_time l' = Lift.arrival_time l
           /\ Lift.passengers l' = Lift.passengers l)
  /\ (forall s d i l ds,
         snd (Simulation.step s d) = Ok tt ->
         nth_error (Simulation.lifts (fst (Simulation.step s d))) i = Some l ->
         Lift.available l = false ->
         Lift.arrival_time l = Simulation.clock s ->
         exists l',
           nth_error
             (Simulation.lifts
                (fst (Simulation.steps (fst (Simulation.step s d)) ds))) i
           = Some l'
           /\ Lift.available l' = false).
Proof.
  split; [exact depart_zero_rtt|].
  split; [exact threshold_zero_lift_departs|].
  split; [intros s d; apply step_stays_away|].
  split; [|split].
  - intros l t _ Harr. unfold Lift.check_arrival.
    destruct (t =? Lift.arrival_time l) eqn:E; [|reflexivity].
    apply Z.eqb_eq in E. lia.
  - intros s i l ds Hnth Hav Harr.
    destruct (steps_stays_away ds s i l Hnth) as (l' & Hnth' & Hstay).
    exists l'. split; [exact Hnth'|]. now apply Hstay.
  - intros s d i l ds Hok Hnth Hav Harr.
    destruct (step_stays_away s d) as (_ & _ & Hclock).
    specialize (Hclock Hok).
    destruct (steps_stays_away ds (fst (Simulation.step s d)) i l Hnth)
      as (l' & Hnth' & Hstay).
    exists l'. split; [exact Hnth'|]. apply Hstay; [exact Hav|lia].
Qed.

(** * Further properties of the code *)

(** ** The stable sort, for any order on the keys *)

Section SortedAny.
Context {A K : Type} (key : A -> K) (leb : K -> K -> bool).

Lemma insert_by_perm_any (x : A) (xs : list A) :
  Permutation (x :: xs) (insert_by key leb x xs).
Proof.
  induction xs as [|y ys IH]; simpl; [apply Permutation_refl|].
  destruct (leb (key x) (key y)); [apply Permutation_refl|].
  eapply perm_trans; [apply perm_swap|]. now apply perm_skip.
Qed.

Lemma sorted_perm_any (xs : list A) : Permutation xs (sorted key leb xs).
Proof.
  induction xs as [|x xs IH]; simpl; [constructor|].
  eapply perm_trans; [apply perm_skip, IH|apply insert_by_perm_any].
Qed.

Lemma sorted_head_in (xs : list A) (h : A) (t : list A) :
  sorted key leb xs = h :: t -> In h xs.
Proof.
  intros H. eapply Permutation_in.
  - apply Permutation_sym, sorted_perm_any.
  - rewrite H. now left.
Qed.
End SortedAny.

(** ** Positions in [self.lifts] *)

Lemma combine_seq_in {B : Type} (xs : list B) :
  forall a i x,
    In (i, x) (combine (seq a (length xs)) xs) ->
    (a <= i)%nat /\ nth_error xs (i - a) = Some x.
Proof.
  induction xs as [|y ys IH]; intros a i x; simpl; [intros []|].
  intros [[= <- <-]|Hin].
  - rewrite Nat.sub_diag. auto.
  - destruct (IH (S a) i x Hin) as [Hle Hnth]. split; [lia|].
    replace (i - a)%nat with (S (i - S a)) by lia. exact Hnth.
Qed.

Lemma enumerate_in (ls : list Lift.t) (i : nat) (l : Lift.t) :
  In (i, l) (Simulation.enumerate ls) ->
  nth_error ls i = Some l /\ (i < length ls)%nat.
Proof.
  intros H. apply combine_seq_in in H. destruct H as [_ H].
  rewrite Nat.sub_0_r in H. split; [exact H|].
  apply nth_error_Some. congruence.
Qed.

Lemma combine_seq_index {B : Type} (n : nat) (ys : list B) (i : nat) (y : B) :
  In (i, y) (combine (seq 0 n) ys) -> (i < n)%nat.
Proof.
  intros H. apply in_combine_l in H. apply in_seq in H. lia.
Qed.

(** ** What an assignment does *)

(** Either the strategy raised and the simulation is as it was, or the
    passenger was queued on one lift of [self.lifts]. *)
Lemma assign_greedy_outcome (s : Simulation.t) (p : Passenger.t) :
  (exists e, Simulation.assign_greedy s p = (s, Raise e))
  \/ (exists i, (i < length (Simulation.lifts s))%nat
                /\ Simulation.assign_greedy s p
                   = (Simulation.queue_on s i p, Ok tt)).
Proof.
  unfold Simulation.assign_greedy.
  destruct (sorted _ _ _) as [|[i l0] rest] eqn:E.
  - left. eexists. reflexivity.
  - right. exists i. split; [|reflexivity].
    apply sorted_head_in in E. now apply enumerate_in in E.
Qed.

Lemma call_assignment_func_outcome (s : Simulation.t) (p : Passenger.t)
      (r : nat) :
  (exists e, Simulation.call_assignment_func s p r = (s, Raise e))
  \/ (exists i, (i < length (Simulation.lifts s))%nat
                /\ Simulation.call_assignment_func s p r
                   = (Simulation.queue_on s i p, Ok tt)).
Proof.
  unfold Simulation.call_assignment_func.
  destruct (Simulation.assignment_func s) as [[| | |]|].
  - apply assign_greedy_outcome.
  - unfold Simulation.assign_nearest_lift.
    destruct (find _ _) as [[i l0]|] eqn:E; [|apply assign_greedy_outcome].
    right. exists i. split; [|reflexivity].
    apply find_some in E. destruct E as [E _].
    eapply Permutation_in in E; [|apply Permutation_sym, sorted_perm_any].
    now apply enumerate_in in E.
  - unfold Simulation.assign_grouping.
    destruct (Simulation.avg_floors _) as [avgs|e];
      [|left; eexists; reflexivity].
    destruct (sorted _ _ _) as [|[best best_avg] ?] eqn:Es;
      [left; eexists; reflexivity|].
    assert (Hbest : (best < length (Simulation.lifts s))%nat).
    { apply sorted_head_in in Es. now apply combine_seq_index in Es. }
    destruct (filter _ _) as [|[first_empty a] ?] eqn:Ef.
    + right. exists best. auto.
    + assert (Hfirst : (first_empty < length (Simulation.lifts s))%nat).
      { assert (Hin : In (first_empty, a)
                         (filter (fun ia : nat * Q => Qeq_bool (snd ia) 0)
                                 (combine
                                    (seq 0 (length (Simulation.lifts s)))
                                    avgs)))
          by (rewrite Ef; now left).
        apply filter_In in Hin. destruct Hin as [Hin _].
        now apply combine_seq_index in Hin. }
      right. destruct (negb _); eexists; split; try reflexivity; assumption.
  - unfold Simulation.assign_random.
    destruct (nth_error _ r) eqn:E; [|left; eexists; reflexivity].
    right. exists r. split; [|reflexivity].
    apply nth_error_Some. congruence.
  - left. eexists. reflexivity.
Qed.

Lemma update_nth_length (i : nat) (f : Lift.t -> Lift.t) (ls : list Lift.t) :
  length (Simulation.update_nth i f ls) = length ls.
Proof.
  revert i. induction ls as [|l ls IH]; intros [|i]; simpl; auto.
Qed.

Lemma update_nth_same (f : Lift.t -> Lift.t) (ls : list Lift.t) :
  forall i l,
    nth_error ls i = Some l ->
    nth_error (Simulation.update_nth i f ls) i = Some (f l).
Proof.
  induction ls as [|l0 ls IH]; intros [|i] l; simpl; try discriminate.
  - now intros [= ->].
  - apply IH.
Qed.

Lemma update_nth_other (f : Lift.t -> Lift.t) (ls : list Lift.t) :
  forall i j,
    j <> i ->
    nth_error (Simulation.update_nth i f ls) j = nth_error ls j.
Proof.
  induction ls as [|l0 ls IH]; intros [|i] [|j] Hne; simpl;
    try reflexivity; try congruence.
  apply IH. congruence.
Qed.

(** X1: an assignment that raises leaves the simulation as it was; one
    that returns has appended the passenger, stamped with lobby time
    [clock] and the lift's id, to the queue of exactly one lift of
    [self.lifts], and has changed nothing else: not the other lifts, not
    that lift's boarded passengers, availability or schedule, not the
    clock, the lobby queue, the traffic or the arrivals. *)
Theorem assignment_queues_on_one_lift (s : Simulation.t) (p : Passenger.t)
        (r : nat) :
  let out := Simulation.call_assignment_func s p r in
  (forall e, snd out = Raise e -> fst out = s)
  /\ (snd out = Ok tt ->
      exists i l,
        nth_error (Simulation.lifts s) i = Some l
        /\ nth_error (Simulation.lifts (fst out)) i
           = Some (Lift.queue_passenger l p (Simulation.clock s))
        /\ Lift.queue (Lift.queue_passenger l p (Simulation.clock s))
           = Lift.queue l
             ++ [Passenger.set_lift_id (Lift.id l)
                   (Passenger.set_time_lobby (Simulation.clock s) p)]
        /\ Lift.passengers (Lift.queue_passenger l p (Simulation.clock s))
           = Lift.passengers l
        /\ Lift.available (Lift.queue_passenger l p (Simulation.clock s))
           = Lift.available l
        /\ Lift.arrival_time (Lift.queue_passenger l p (Simulation.clock s))
           = Lift.arrival_time l
        /\ (forall j, j <> i ->
                      nth_error (Simulation.lifts (fst out)) j
                      = nth_error (Simulation.lifts s) j)
        /\ length (Simulation.lifts (fst out)) = length (Simulation.lifts s)
        /\ Simulation.clock (fst out) = Simulation.clock s
        /\ Simulation.q (fst out) = Simulation.q s
        /\ Simulation.traffic (fst out) = Simulation.traffic s
        /\ Simulation.arrivals (fst out) = Simulation.arrivals s).
Proof.
  cbv zeta.
  destruct (call_assignment_func_outcome s p r)
    as [[e ->]|[i [Hi ->]]]; cbn [fst snd].
  - split; [reflexivity|discriminate].
  - split; [discriminate|]. intros _.
    destruct (nth_error (Simulation.lifts s) i) as [l|] eqn:E.
    2:{ apply nth_error_None in E. lia. }
    exists i, l. split; [exact E|].
    change (Simulation.lifts (Simulation.queue_on s i p))
      with (Simulation.update_nth
              i (fun l => Lift.queue_passenger l p (Simulation.clock s))
              (Simulation.lifts s)).
    split.
    { exact (update_nth_same
               (fun l => Lift.queue_passenger l p (Simulation.clock s))
               _ i l E). }
    repeat split.
    + intros j Hj. now apply update_nth_other.
    + apply update_nth_length.
Qed.

(** ** Conservation of passengers *)

Lemma check_departure_load (l : Lift.t) (clock : Z) :
  Lift.available l = true ->
  lift_load (fst (Lift.check_departure l clock)) = lift_load l.
Proof.
  intros Hav. unfold lift_load, Lift.check_departure.
  destruct (Lift.queue l) as [|p rest] eqn:Hq.
  - destruct (LiftFacts.check_departure_triggers_frame l clock)
      as (_ & Hq' & Hl). rewrite Hq', Hl, Hq. reflexivity.
  - destruct (len (Lift.passengers l) <? Lift.capacity l) eqn:E.
    + unfold Lift.add_passenger. simpl. rewrite E, Hav. simpl.
      match goal with
      | |- context [Lift.check_departure_triggers ?x clock] =>
          destruct (LiftFacts.check_departure_triggers_frame x clock)
            as (_ & Hq' & Hl)
      end.
      rewrite Hq', Hl. simpl. rewrite length_app. simpl. lia.
    + destruct (LiftFacts.depart_frame l clock) as (_ & _ & Hq' & Hl).
      rewrite Hq', Hl, Hq. reflexivity.
Qed.

Lemma check_arrival_load (l : Lift.t) (clock : Z) :
  (lift_load (fst (Lift.check_arrival l clock))
   + length (snd (Lift.check_arrival l clock)))%nat
  = lift_load l.
Proof.
  unfold lift_load, Lift.check_arrival.
  destruct (clock =? Lift.arrival_time l); simpl; [|lia].
  rewrite length_map. lia.
Qed.

Lemma update_lifts_load (clock : Z) (ls : list Lift.t) :
  forall arrivals,
    (lifts_load (fst (fst (Simulation.update_lifts clock ls arrivals)))
     + length (snd (fst (Simulation.update_lifts clock ls arrivals))))%nat
    = (lifts_load ls + length arrivals)%nat.
Proof.
  unfold lifts_load.
  induction ls as [|l ls IH]; intros arrivals; simpl; [reflexivity|].
  unfold Lift.is_available.
  change (Lift.available (Lift.update l)) with (Lift.available l).
  destruct (Lift.available l) eqn:Hav.
  - pose proof (check_departure_load (Lift.update l) clock Hav) as Hl.
    change (lift_load (Lift.update l)) with (lift_load l) in Hl.
    destruct (Lift.check_departure (Lift.update l) clock) as [l1 [[]|e]];
      simpl in Hl.
    + specialize (IH arrivals).
      destruct (Simulation.update_lifts clock ls arrivals)
        as [[ls' arr'] r]. simpl in *. lia.
    + simpl. lia.
  - pose proof (check_arrival_load (Lift.update l) clock) as Hl.
    change (lift_load (Lift.update l)) with (lift_load l) in Hl.
    destruct (Lift.check_arrival (Lift.update l) clock) as [l1 completed].
    simpl in Hl.
    specialize (IH (arrivals ++ completed)). rewrite length_app in IH.
    destruct (Simulation.update_lifts clock ls (arrivals ++ completed))
      as [[ls' arr'] r]. simpl in *. lia.
Qed.

Lemma update_nth_load (f : Lift.t -> Lift.t) :
  (forall l, lift_load (f l) = S (lift_load l)) ->
  forall ls i,
    (i < length ls)%nat ->
    lifts_load (Simulation.update_nth i f ls) = S (lifts_load ls).
Proof.
  intros Hf. unfold lifts_load.
  induction ls as [|l ls IH]; intros [|i] Hi; simpl in *; try lia.
  - rewrite Hf. lia.
  - rewrite IH by lia. lia.
Qed.

Lemma queue_on_load (s : Simulation.t) (i : nat) (p : Passenger.t) :
  (i < length (Simulation.lifts s))%nat ->
  lifts_load (Simulation.lifts (Simulation.queue_on s i p))
  = S (lifts_load (Simulation.lifts s)).
Proof.
  intros Hi.
  change (Simulation.lifts (Simulation.queue_on s i p))
    with (Simulation.update_nth
            i (fun l => Lift.queue_passenger l p (Simulation.clock s))
            (Simulation.lifts s)).
  apply update_nth_load; [|exact Hi].
  intros l. unfold lift_load. simpl. rewrite length_app. simpl. lia.
Qed.

(** The assignment loop moves passengers from the lobby queue to lift
    queues; a passenger is lost only when its assignment raises. *)
Lemma assign_loop_load (d : Simulation.draws) (n : nat) :
  forall s j,
    let out := Simulation.assign_loop s d j n in
    (length (Simulation.q (fst out))
     + lifts_load (Simulation.lifts (fst out))
     <= length (Simulation.q s) + lifts_load (Simulation.lifts s))%nat
    /\ (snd out = Ok tt ->
        (length (Simulation.q (fst out))
         + lifts_load (Simulation.lifts (fst out)))%nat
        = (length (Simulation.q s) + lifts_load (Simulation.lifts s))%nat)
    /\ Simulation.traffic (fst out) = Simulation.traffic s
    /\ Simulation.arrivals (fst out) = Simulation.arrivals s
    /\ Simulation.clock (fst out) = Simulation.clock s.
Proof.
  induction n as [|n IH]; intros s j; simpl.
  - repeat split; auto.
  - destruct (Simulation.q s) as [|p rest] eqn:Hq; simpl.
    + rewrite Hq. repeat split; auto.
    + destruct (call_assignment_func_outcome
                  (Simulation.set_q rest s) p (Simulation.pick d j))
        as [[e ->]|[i [Hi ->]]].
      * simpl. repeat split; try lia. discriminate.
      * specialize (IH (Simulation.queue_on (Simulation.set_q rest s) i p)
                       (S j)).
        cbv zeta in IH. destruct IH as (Hle & Heq & Ht & Ha & Hc).
        pose proof (queue_on_load (Simulation.set_q rest s) i p Hi) as Hload.
        simpl in Hi, Hload.
        change (Simulation.q (Simulation.queue_on
                                (Simulation.set_q rest s) i p))
          with rest in Hle, Heq.
        simpl in Ht, Ha, Hc.
        repeat split; try assumption.
        -- simpl in *. lia.
        -- intros Hok. specialize (Heq Hok). simpl in *. lia.
Qed.

Lemma new_arrivals_length (clock : Z) (traffic : list Passenger.t) :
  forall q,
    (length (fst (Simulation.new_arrivals clock traffic q))
     + length (snd (Simulation.new_arrivals clock traffic q)))%nat
    = (length traffic + length q)%nat.
Proof.
  induction traffic as [|user rest IH]; intros q; simpl; [reflexivity|].
  destruct (clock <? Passenger.time_start user); simpl; [reflexivity|].
  rewrite IH, length_app. simpl. lia.
Qed.

(** X2: a [step] never creates a passenger, and one that completes
    conserves them: the passengers still in the traffic feed, in the lobby
    queue, queued on or boarded in a lift, and in the arrivals list are as
    many after the step as before.  The same holds over any sequence of
    steps, so the arrivals never outnumber the passengers the simulation
    started with. *)
Theorem step_conserves_passengers :
  (forall s d,
      (population (fst (Simulation.step s d)) <= population s)%nat
      /\ (snd (Simulation.step s d) = Ok tt ->
          population (fst (Simulation.step s d)) = population s))
  /\ (forall ds s,
         (population (fst (Simulation.steps s ds)) <= population s)%nat
         /\ (snd (Simulation.steps s ds) = Ok tt ->
             population (fst (Simulation.steps s ds)) = population s)
         /\ (length (Simulation.arrivals (fst (Simulation.steps s ds)))
             <= population s)%nat).
Proof.
  assert (Hstep : forall s d,
             (population (fst (Simulation.step s d)) <= population s)%nat
             /\ (snd (Simulation.step s d) = Ok tt ->
                 population (fst (Simulation.step s d)) = population s)).
  { intros s d. unfold Simulation.step.
    destruct (Simulation.traffic s) as [tr|] eqn:Htr; simpl;
      [|split; [lia|discriminate]].
    pose proof (new_arrivals_length (Simulation.clock s) tr (Simulation.q s))
      as Hin.
    destruct (Simulation.new_arrivals (Simulation.clock s) tr
                                      (Simulation.q s)) as [tr' waiting].
    simpl in Hin.
    set (s0 := Simulation.set_q waiting
                 (Simulation.set_traffic_field (Some tr') s)).
    pose proof (assign_loop_load d (Simulation.batch d) s0 0) as Hloop.
    cbv zeta in Hloop. destruct Hloop as (Hle & Heq & Ht & Ha & Hc).
    assert (Hpop0 : population s0 = population s)
      by (unfold population; subst s0; simpl; rewrite Htr; lia).
    destruct (Simulation.assign_loop s0 d 0 (Simulation.batch d))
      as [s1 [[]|e]]; simpl in *.
    2:{ split; [|discriminate]. unfold population in *.
        rewrite Ht, Ha. subst s0. simpl in *. rewrite Htr. lia. }
    specialize (Heq eq_refl).
    pose proof (update_lifts_load (Simulation.clock s1) (Simulation.lifts s1)
                  (Simulation.arrivals s1)) as Hu.
    destruct (Simulation.update_lifts (Simulation.clock s1)
                (Simulation.lifts s1) (Simulation.arrivals s1))
      as [[ls arr] r]. simpl in Hu.
    assert (Hpop : forall c,
               population
                 (Simulation.set_clock c
                    (Simulation.set_arrivals arr (Simulation.set_lifts ls s1)))
               = population s).
    { intros c. rewrite <- Hpop0. unfold population. simpl.
      rewrite Ht, Ha in *. subst s0. simpl in *. lia. }
    destruct r as [[]|e]; simpl.
    - rewrite (Hpop (Simulation.clock s1 + 1)). split; [lia|reflexivity].
    - change (Simulation.set_arrivals arr (Simulation.set_lifts ls s1))
        with (Simulation.set_clock (Simulation.clock s1)
                (Simulation.set_arrivals arr (Simulation.set_lifts ls s1)))
        at 1.
      rewrite Hpop. split; [lia|discriminate]. }
  split; [exact Hstep|].
  assert (Hsteps : forall ds s,
             (population (fst (Simulation.steps s ds)) <= population s)%nat
             /\ (snd (Simulation.steps s ds) = Ok tt ->
                 population (fst (Simulation.steps s ds)) = population s)).
  { induction ds as [|d ds IH]; intros s; simpl; [auto|].
    destruct (Hstep s d) as [Hle Heq].
    destruct (Simulation.step s d) as [s1 [[]|e]]; simpl in *.
    - destruct (IH s1) as [Hle' Heq']. split; [lia|].
      intros Hok. rewrite (Heq' Hok). now apply Heq.
    - split; [exact Hle|discriminate]. }
  intros ds s. destruct (Hsteps ds s) as [Hle Heq].
  split; [exact Hle|]. split; [exact Heq|].
  unfold population in Hle at 1. lia.
Qed.

(** X3: [check_departure] pops the head of the queue before
    [add_passenger] is asked, and ignores its answer.  Called on a lift
    that is not available, with a non-empty queue and boarding room, it
    therefore drops the popped passenger: it is neither in the queue nor
    boarded afterwards. *)
Theorem check_departure_unavailable_drops (l : Lift.t) (clock : Z)
        (p : Passenger.t) (rest : list Passenger.t) :
  Lift.available l = false ->
  Lift.queue l = p :: rest ->
  len (Lift.passengers l) < Lift.capacity l ->
  Lift.queue (fst (Lift.check_departure l clock)) = rest
  /\ length (Lift.passengers (fst (Lift.check_departure l clock)))
     = length (Lift.passengers l)
  /\ S (lift_load (fst (Lift.check_departure l clock))) = lift_load l.
Proof.
  intros Hav Hq Hroom. unfold lift_load, Lift.check_departure.
  rewrite Hq. apply Z.ltb_lt in Hroom. rewrite Hroom.
  unfold Lift.add_passenger. simpl. rewrite Hroom, Hav. simpl.
  match goal with
  | |- context [Lift.check_departure_triggers ?x clock] =>
      destruct (LiftFacts.check_departure_triggers_frame x clock)
        as (_ & Hq' & Hl)
  end.
  rewrite Hq', Hl. simpl. repeat split. lia.
Qed.

Lemma check_departure_unavailable_drops_witness :
  Lift.queue (fst (Lift.check_departure away_lift 5)) = []
  /\ length (Lift.passengers (fst (Lift.check_departure away_lift 5)))
     = length (Lift.passengers away_lift)
  /\ S (lift_load (fst (Lift.check_departure away_lift 5)))
     = lift_load away_lift.
Proof.
  apply (check_departure_unavailable_drops
           away_lift 5
           (Passenger.mk 4 1 (Some 1) (Some 3) None None None None) []);
    reflexivity.
Defined.

(** ** Departure: the trip that is scheduled, and the trip that fails *)

(** Whatever [travel_time] returns covers at least the two door events. *)
Lemma travel_time_lower_bound (l : Lift.t) (n : Z) (t : R) :
  init_kinematics l -> (0 < Lift.vmax l)%R -> (0 < Lift.acc l)%R ->
  Lift.travel_time l n = Ok t ->
  (2 * Lift.td l <= t)%R.
Proof.
  intros [_ Ht] Hv Ha. unfold Lift.travel_time.
  destruct (Rgt_dec _ _) as [Hgt|_].
  - destruct (Req_dec_T _ _); [discriminate|]. intros [= <-].
    assert (0 <= Lift.tmv l)%R by (rewrite Ht; apply div_nonneg; lra).
    assert (0 <= (Lift.df l * IZR n - 2 * Lift.smv l) / Lift.vmax l)%R
      by (apply div_nonneg; lra).
    lra.
  - destruct (Rle_dec _ _); [|discriminate].
    destruct (Req_dec_T _ _); [discriminate|].
    destruct (Rlt_dec _ _); [discriminate|]. intros [= <-].
    pose proof (sqrt_pos (Lift.df l * IZR n / Lift.acc l)). lra.
Qed.

Lemma leg_times_lower_bound (l : Lift.t) (ns : list Z) (legs : list R) :
  init_kinematics l -> (0 < Lift.vmax l)%R -> (0 < Lift.acc l)%R ->
  leg_times l ns legs ->
  Forall (fun t => (2 * Lift.td l <= t)%R) legs.
Proof.
  intros Hk Hv Ha H. induction H; constructor; [|assumption].
  eapply travel_time_lower_bound; eassumption.
Qed.

Lemma total_nonneg (legs : list R) :
  Forall (fun t => (0 <= t)%R) legs -> (0 <= total legs)%R.
Proof.
  unfold total. induction 1 as [|t legs Ht _ IH]; simpl; lra.
Qed.

Lemma running_bounds (legs : list R) :
  Forall (fun t => (0 <= t)%R) legs ->
  forall time,
    Forall (fun t => (time <= t <= time + total legs)%R) (running time legs).
Proof.
  induction 1 as [|t legs Ht Hlegs IH]; intros time; simpl; [constructor|].
  pose proof (total_nonneg legs Hlegs) as Htot.
  unfold total in *. simpl.
  constructor; [lra|].
  eapply Forall_impl; [|apply (IH (time + t)%R)].
  simpl. intros u Hu. lra.
Qed.

(** [update_trip_times] on a lift whose legs all have a travel time. *)
Lemma update_trip_times_run (l : Lift.t) (clock : Z) :
  (0 < Lift.vmax l)%R -> (0 < Lift.acc l)%R -> (0 <= Lift.df l)%R ->
  Forall (fun p => 0 <= Passenger.destination p) (Lift.passengers l) ->
  let visit_order := sorted Passenger.destination Z.leb (Lift.passengers l) in
  let floors := map Passenger.destination visit_order in
  exists legs back,
    leg_times l (deltas 0 floors) legs
    /\ Lift.travel_time l (Z.abs (0 - last floors 0)) = Ok back
    /\ length (running 0%R legs) = length visit_order
    /\ Lift.update_trip_times l clock
       = (Lift.set_loc_history
            (Lift.loc_history l
             ++ [(IZR clock, 0)]
             ++ combine (map (fun t => (t + IZR clock)%R) (running 0%R legs))
                        floors
             ++ [((total legs + back + IZR clock)%R, 0)])
            (Lift.set_passenger_travel_times
               (Lift.passenger_travel_times l ++ running 0%R legs)
               (Lift.set_passengers
                  (stamp_all visit_order (running 0%R legs)) l)),
          Ok (total legs + back)%R).
Proof.
  intros Hv Ha Hdf Hdest visit_order floors.
  assert (Hfrom0 : StronglySorted Z.le (0 :: floors)).
  { constructor; [apply (sorted_ascending Passenger.destination)|].
    unfold floors. apply Forall_map.
    eapply Permutation_Forall; [apply sorted_perm|exact Hdest]. }
  set (l1 := Lift.set_loc_history
               (Lift.loc_history (Lift.set_passengers visit_order l)
                ++ [(IZR clock, 0)])
               (Lift.set_passengers visit_order l)).
  assert (Hsame : forall n, Lift.travel_time l1 n = Lift.travel_time l n)
    by (intros n; apply travel_time_same_kinematics; reflexivity).
  destruct (visit_spec l1 clock visit_order Hv Ha Hdf 0%R 0 Hfrom0)
    as [legs [Hlegs Hvisit]].
  fold floors in Hlegs, Hvisit.
  apply (leg_times_same_kinematics l l1) in Hlegs; [|exact Hsame].
  destruct (travel_time_returns l (Z.abs (0 - last floors 0)) Hv Ha Hdf)
    as [back Hback]; [lia|].
  exists legs, back.
  split; [exact Hlegs|]. split; [exact Hback|]. split.
  { rewrite running_length.
    rewrite <- (Forall2_length Hlegs), deltas_length.
    unfold floors. now rewrite length_map. }
  unfold Lift.update_trip_times. fold visit_order. fold l1.
  change (Lift.passengers l1) with visit_order.
  rewrite Hvisit.
  match goal with
  | |- context [Lift.travel_time ?x (Z.abs (0 - last floors 0))] =>
      replace (Lift.travel_time x (Z.abs (0 - last floors 0)))
        with (Ok (A := R) back)
        by (rewrite <- Hback; symmetry;
            apply travel_time_same_kinematics; reflexivity)
  end.
  unfold Lift.set_loc_history, Lift.set_passenger_travel_times,
    Lift.set_passengers, l1. simpl.
  rewrite Rplus_0_l, <- !app_assoc. reflexivity.
Qed.

Lemma stamp_all_in (ps : list Passenger.t) (times : list R)
      (x : Passenger.t) :
  In x (stamp_all ps times) ->
  exists p t, In p ps /\ In t times
              /\ x = Passenger.set_time_travelling t p.
Proof.
  unfold stamp_all. intros H. apply in_map_iff in H.
  destruct H as [[p t] [<- Hin]]. exists p, t. simpl.
  split; [eapply in_combine_l; exact Hin|].
  split; [eapply in_combine_r; exact Hin|reflexivity].
Qed.

(** X4: on a lift with the kinematics of [__init__], [vmax > 0],
    [acc > 0], [door_time >= 0], [floor_height >= 0] and boarded
    destinations [>= 0], [depart(clock)] returns normally.  The lift is then
    unavailable, its queue untouched, its round-trip time is at least the
    two door events of one leg, and its return is scheduled never before
    [clock] and less than one tick away from [clock + rtt] (the tick is
    [math.ceil] of the float sum; the statement does not depend on how
    that sum is rounded).  The boarded passengers are
    the same (by destination), each stamped with departure time [clock] and
    a travelling time between 0 and the round-trip time. *)
Theorem depart_schedules_trip (l : Lift.t) (clock : Z) :
  init_kinematics l ->
  (0 < Lift.vmax l)%R -> (0 < Lift.acc l)%R ->
  (0 <= Lift.td l)%R -> (0 <= Lift.df l)%R ->
  Forall (fun p => 0 <= Passenger.destination p) (Lift.passengers l) ->
  exists r,
    snd (Lift.depart l clock) = Ok tt
    /\ Lift.rtt (fst (Lift.depart l clock)) = Some r
    /\ (2 * Lift.td l <= r)%R
    /\ (IZR clock + r - 1
        < IZR (Lift.arrival_time (fst (Lift.depart l clock)))
        < IZR clock + r + 1)%R
    /\ clock <= Lift.arrival_time (fst (Lift.depart l clock))
    /\ Lift.available (fst (Lift.depart l clock)) = false
    /\ Lift.queue (fst (Lift.depart l clock)) = Lift.queue l
    /\ Permutation
         (map Passenger.destination
              (Lift.passengers (fst (Lift.depart l clock))))
         (map Passenger.destination (Lift.passengers l))
    /\ Forall (fun p =>
                 Passenger.time_departure p = Some clock
                 /\ exists t, Passenger.time_travelling p = Some t
                              /\ (0 <= t <= r)%R)
              (Lift.passengers (fst (Lift.depart l clock))).
Proof.
  intros Hk Hv Ha Htd Hdf Hdest.
  set (ps0 := map (Passenger.set_time_departure clock) (Lift.passengers l)).
  set (l0 := Lift.set_passengers ps0 (Lift.set_available false l)).
  assert (Hdest0 : Forall (fun p => 0 <= Passenger.destination p)
                          (Lift.passengers l0)).
  { simpl. unfold ps0. apply Forall_map.
    eapply Forall_impl; [|exact Hdest]. auto. }
  destruct (update_trip_times_run l0 clock Hv Ha Hdf Hdest0)
    as (legs & back & Hlegs & Hback & Hlen & Hrun).
  assert (Hk0 : init_kinematics l0) by exact Hk.
  pose proof (leg_times_lower_bound l0 _ _ Hk0 Hv Ha Hlegs) as Hlow.
  pose proof (travel_time_lower_bound l0 _ _ Hk0 Hv Ha Hback) as Hbacklow.
  change (Lift.td l0) with (Lift.td l) in Hlow, Hbacklow.
  assert (Hnonneg : Forall (fun t => (0 <= t)%R) legs)
    by (eapply Forall_impl; [|exact Hlow]; simpl; intros; lra).
  pose proof (total_nonneg legs Hnonneg) as Htot.
  exists (total legs + back)%R.
  assert (Hd : Lift.depart l clock
               = match Lift.update_trip_times l0 clock with
                 | (l1, Raise e) => (l1, Raise e)
                 | (l1, Ok time) =>
                     (Lift.set_arrival_time
                        (Zceil (IZR clock + time))
                        (Lift.set_rtt (Some time) l1), Ok tt)
                 end) by reflexivity.
  rewrite Hd, Hrun. clear Hd.
  cbn [fst snd Lift.rtt Lift.arrival_time Lift.available Lift.queue
       Lift.passengers Lift.set_rtt Lift.set_arrival_time
       Lift.set_loc_history Lift.set_passenger_travel_times
       Lift.set_passengers Lift.set_available l0].
  split; [reflexivity|]. split; [reflexivity|]. split; [lra|].
  pose proof (Zceil_bound (IZR clock + (total legs + back))) as Hceil.
  split; [lra|]. split.
  { apply le_IZR. lra. }
  split; [reflexivity|]. split; [reflexivity|]. split.
  - rewrite stamp_all_destinations by exact Hlen.
    eapply perm_trans.
    + apply Permutation_map, Permutation_sym, sorted_perm.
    + unfold ps0. rewrite map_map. simpl. apply Permutation_refl.
  - apply Forall_forall. intros x Hx.
    apply stamp_all_in in Hx. destruct Hx as (p & t & Hp & Ht & ->).
    split.
    + eapply Permutation_in in Hp;
        [|apply Permutation_sym, sorted_perm].
      unfold ps0 in Hp. apply in_map_iff in Hp.
      destruct Hp as [p0 [<- _]]. reflexivity.
    + exists t. split; [reflexivity|].
      pose proof (running_bounds legs Hnonneg 0%R) as Hb.
      rewrite Forall_forall in Hb. specialize (Hb t Ht). lra.
Qed.

Lemma depart_schedules_trip_witness :
  exists r,
    snd (Lift.depart four_boarded_lift 4) = Ok tt
    /\ Lift.rtt (fst (Lift.depart four_boarded_lift 4)) = Some r
    /\ (2 * Lift.td four_boarded_lift <= r)%R
    /\ (IZR 4 + r - 1
        < IZR (Lift.arrival_time (fst (Lift.depart four_boarded_lift 4)))
        < IZR 4 + r + 1)%R
    /\ 4 <= Lift.arrival_time (fst (Lift.depart four_boarded_lift 4))
    /\ Lift.available (fst (Lift.depart four_boarded_lift 4)) = false
    /\ Lift.queue (fst (Lift.depart four_boarded_lift 4))
       = Lift.queue four_boarded_lift
    /\ Permutation
         (map Passenger.destination
              (Lift.passengers (fst (Lift.depart four_boarded_lift 4))))
         (map Passenger.destination (Lift.passengers four_boarded_lift))
    /\ Forall (fun p =>
                 Passenger.time_departure p = Some 4
                 /\ exists t, Passenger.time_travelling p = Some t
                              /\ (0 <= t <= r)%R)
              (Lift.passengers (fst (Lift.depart four_boarded_lift 4))).
Proof.
  apply (depart_schedules_trip four_boarded_lift 4).
  - unfold init_kinematics. simpl. split; field.
  - simpl. lra.
  - simpl. lra.
  - simpl. lra.
  - simpl. lra.
  - repeat constructor; simpl; lia.
Defined.

(** A distance below zero is a [math.sqrt] domain error. *)
Lemma travel_time_negative (l : Lift.t) (n : Z) :
  (0 < Lift.df l)%R -> (0 < Lift.acc l)%R -> (0 <= Lift.smv l)%R ->
  n < 0 ->
  Lift.travel_time l n = Raise (ValueError "math domain error").
Proof.
  intros Hdf Ha Hs Hn. unfold Lift.travel_time.
  assert (Hneg : (Lift.df l * IZR n < 0)%R).
  { apply IZR_lt in Hn. nra. }
  destruct (Rgt_dec _ _); [lra|].
  destruct (Rle_dec _ _); [|lra].
  destruct (Req_dec_T _ _); [lra|].
  destruct (Rlt_dec _ _) as [|Hn0]; [reflexivity|].
  exfalso. apply Hn0. unfold Rdiv.
  assert (0 < / Lift.acc l)%R by now apply Rinv_0_lt_compat.
  nra.
Qed.

Lemma sorted_head_least {A : Type} (key : A -> Z) (xs : list A)
      (h : A) (t : list A) :
  sorted key Z.leb xs = h :: t ->
  forall x, In x xs -> key h <= key x.
Proof.
  intros E x Hx.
  pose proof (sorted_ascending key xs) as Hs. unfold ascending in Hs.
  rewrite E in Hs. simpl in Hs.
  apply (Permutation_in _ (sorted_perm key xs)) in Hx. rewrite E in Hx.
  destruct Hx as [<-|Hx]; [lia|].
  inversion Hs as [|? ? _ Hall]; subst.
  rewrite Forall_forall in Hall. apply Hall. now apply in_map.
Qed.

(** X5: a boarded passenger for a floor below 0 makes [depart(clock)]
    fail.  The lift has the kinematics of [__init__] with [acc > 0] and
    [floor_height > 0]; the first leg of the sorted trip then has a negative
    distance and [math.sqrt] raises [ValueError].  By then the lift is
    already marked unavailable and the passengers are sorted and stamped
    with the departure time, but no return is scheduled: [arrival_time] and
    [rtt] are as before, and nobody has a travelling time from this trip. *)
Theorem depart_below_ground_fails (l : Lift.t) (clock : Z) :
  init_kinematics l ->
  (0 < Lift.acc l)%R -> (0 < Lift.df l)%R ->
  Exists (fun p => Passenger.destination p < 0) (Lift.passengers l) ->
  (exists msg, snd (Lift.depart l clock) = Raise (ValueError msg))
  /\ Lift.available (fst (Lift.depart l clock)) = false
  /\ Lift.arrival_time (fst (Lift.depart l clock)) = Lift.arrival_time l
  /\ Lift.rtt (fst (Lift.depart l clock)) = Lift.rtt l
  /\ Lift.passenger_travel_times (fst (Lift.depart l clock))
     = Lift.passenger_travel_times l
  /\ Lift.passengers (fst (Lift.depart l clock))
     = sorted Passenger.destination Z.leb
              (map (Passenger.set_time_departure clock) (Lift.passengers l)).
Proof.
  intros [Hs _] Ha Hdf Hex.
  assert (Hsmv : (0 <= Lift.smv l)%R).
  { rewrite Hs. apply div_nonneg; [|lra].
    pose proof (pow2_ge_0 (Lift.vmax l)). lra. }
  set (ps0 := map (Passenger.set_time_departure clock) (Lift.passengers l)).
  set (l0 := Lift.set_passengers ps0 (Lift.set_available false l)).
  assert (Hd : Lift.depart l clock
               = match Lift.update_trip_times l0 clock with
                 | (l1, Raise e) => (l1, Raise e)
                 | (l1, Ok time) =>
                     (Lift.set_arrival_time
                        (Zceil (IZR clock + time))
                        (Lift.set_rtt (Some time) l1), Ok tt)
                 end) by reflexivity.
  apply Exists_exists in Hex. destruct Hex as [p [Hp Hneg]].
  assert (Hp0 : In (Passenger.set_time_departure clock p) ps0)
    by (unfold ps0; now apply in_map).
  destruct (sorted Passenger.destination Z.leb ps0) as [|h t] eqn:E.
  { apply (Permutation_in _ (sorted_perm Passenger.destination ps0)) in Hp0.
    rewrite E in Hp0. destruct Hp0. }
  pose proof (sorted_head_least Passenger.destination ps0 h t E _ Hp0) as Hh.
  simpl in Hh.
  rewrite Hd. clear Hd. unfold Lift.update_trip_times.
  change (Lift.passengers l0) with ps0. rewrite E.
  cbn [Lift.passengers Lift.set_passengers Lift.set_loc_history Lift.visit].
  rewrite travel_time_negative; [|exact Hdf|exact Ha|exact Hsmv|lia].
  cbn. split; [eexists; reflexivity|]. repeat split; try reflexivity.
  now rewrite app_nil_r.
Qed.

Lemma depart_below_ground_fails_witness :
  (exists msg, snd (Lift.depart basement_lift 2) = Raise (ValueError msg))
  /\ Lift.available (fst (Lift.depart basement_lift 2)) = false
  /\ Lift.arrival_time (fst (Lift.depart basement_lift 2))
     = Lift.arrival_time basement_lift
  /\ Lift.rtt (fst (Lift.depart basement_lift 2)) = Lift.rtt basement_lift
  /\ Lift.passenger_travel_times (fst (Lift.depart basement_lift 2))
     = Lift.passenger_travel_times basement_lift
  /\ Lift.passengers (fst (Lift.depart basement_lift 2))
     = sorted Passenger.destination Z.leb
              (map (Passenger.set_time_departure 2)
                   (Lift.passengers basement_lift)).
Proof.
  apply (depart_below_ground_fails basement_lift 2).
  - unfold init_kinematics. simpl. split; field.
  - simpl. lra.
  - simpl. lra.
  - apply Exists_cons_tl, Exists_cons_hd. simpl. lia.
Defined.

(** ** Cumulative travel times *)

Lemma legs_exist (l : Lift.t) (floors : list Z) :
  (0 < Lift.vmax l)%R -> (0 < Lift.acc l)%R -> (0 <= Lift.df l)%R ->
  forall prev,
    StronglySorted Z.le (prev :: floors) ->
    exists legs, leg_times l (deltas prev floors) legs.
Proof.
  intros Hv Ha Hdf.
  induction floors as [|n floors IH]; intros prev Hs; simpl.
  - exists []. constructor.
  - inversion Hs as [|? ? Hs' Hall]; subst.
    inversion Hall as [|? ? Hle _]; subst.
    destruct (travel_time_returns l (n - prev) Hv Ha Hdf) as [t Ht]; [lia|].
    destruct (IH n Hs') as [legs Hlegs].
    exists (t :: legs). now constructor.
Qed.

Lemma running_sorted (legs : list R) :
  Forall (fun t => (0 <= t)%R) legs ->
  forall time, StronglySorted Rle (time :: running time legs).
Proof.
  induction 1 as [|t legs Ht Hlegs IH]; intros time; simpl.
  - repeat constructor.
  - constructor; [apply IH|].
    pose proof (running_bounds (t :: legs)
                               (Forall_cons _ Ht Hlegs) time) as Hb.
    simpl in Hb. eapply Forall_impl; [|exact Hb]. simpl. intros; lra.
Qed.

(** X6: [comp_travel] needs a starting floor: on the empty list it raises
    [IndexError].  On a non-empty list of non-decreasing floors (lift with
    the kinematics of [__init__], [vmax > 0], [acc > 0], [door_time >= 0],
    [floor_height >= 0]) it returns one time per floor, the first being 0
    and the times non-decreasing.  It takes no absolute value of a floor
    difference: a list that starts by going down raises [ValueError]
    ([acc > 0], [floor_height > 0]). *)
Theorem comp_travel_cumulative (l : Lift.t) :
  Lift.comp_travel l [] = Raise (IndexError "list index out of range")
  /\ (init_kinematics l ->
      (0 < Lift.vmax l)%R -> (0 < Lift.acc l)%R ->
      (0 <= Lift.td l)%R -> (0 <= Lift.df l)%R ->
      forall floors,
        floors <> [] ->
        StronglySorted Z.le floors ->
        exists times,
          Lift.comp_travel l floors = Ok times
          /\ length times = length floors
          /\ hd_error times = Some 0%R
          /\ StronglySorted Rle times)
  /\ (init_kinematics l ->
      (0 < Lift.acc l)%R -> (0 < Lift.df l)%R ->
      forall a b rest,
        b < a ->
        exists msg,
          Lift.comp_travel l (a :: b :: rest) = Raise (ValueError msg)).
Proof.
  split; [reflexivity|]. split.
  - intros Hk Hv Ha Htd Hdf floors Hne Hs.
    destruct floors as [|f0 rest]; [congruence|].
    destruct (legs_exist l rest Hv Ha Hdf f0 Hs) as [legs Hlegs].
    exists (0%R :: running 0%R legs). simpl.
    rewrite (comp_travel_loop_running l rest 0%R f0 legs Hlegs). simpl.
    split; [reflexivity|]. split.
    + rewrite running_length, <- (Forall2_length Hlegs), deltas_length.
      reflexivity.
    + split; [reflexivity|]. apply running_sorted.
      pose proof (leg_times_lower_bound l _ _ Hk Hv Ha Hlegs) as Hlow.
      eapply Forall_impl; [|exact Hlow]. simpl. intros; lra.
  - intros [Hs _] Ha Hdf a b rest Hlt. simpl.
    rewrite travel_time_negative;
      [eexists; reflexivity|exact Hdf|exact Ha| |lia].
    rewrite Hs. apply div_nonneg; [|lra].
    pose proof (pow2_ge_0 (Lift.vmax l)). lra.
Qed.

Lemma comp_travel_cumulative_witness :
  exists times,
    Lift.comp_travel single_seat_lift [0; 2; 2; 7] = Ok times
    /\ length times = 4%nat
    /\ hd_error times = Some 0%R
    /\ StronglySorted Rle times.
Proof.
  destruct (comp_travel_cumulative single_seat_lift) as (_ & H & _).
  apply H.
  - exact single_seat_lift_kinematics.
  - simpl. lra.
  - simpl. lra.
  - simpl. lra.
  - simpl. lra.
  - discriminate.
  - repeat constructor; lia.
Defined.

(** ** Which lift a strategy picks *)

(** The head of a stable sort is the first of the least elements. *)
Lemma sorted_head_first {A : Type} (key : A -> Z) (xs : list A) :
  forall h t,
    sorted key Z.leb xs = h :: t ->
    exists pre post,
      xs = pre ++ h :: post
      /\ (forall x, In x pre -> key h < key x)
      /\ (forall x, In x post -> key h <= key x).
Proof.
  induction xs as [|x rest IH]; intros h t E; [discriminate|].
  simpl in E. destruct (sorted key Z.leb rest) as [|h' t'] eqn:Er.
  - assert (rest = []).
    { apply length_zero_iff_nil. rewrite <- (sorted_length key rest), Er.
      reflexivity. }
    subst rest. simpl in E. injection E as <- <-.
    exists [], []. split; [reflexivity|]. split; intros ? [].
  - destruct (IH h' t' eq_refl) as (pre & post & Hrest & Hpre & Hpost).
    simpl in E. destruct (key x <=? key h') eqn:Ex.
    + apply Z.leb_le in Ex. injection E as <- <-.
      exists [], rest. split; [reflexivity|]. split; [intros ? []|].
      intros y Hy. rewrite Hrest in Hy. apply in_app_or in Hy.
      destruct Hy as [Hy|[<-|Hy]].
      * specialize (Hpre y Hy). lia.
      * exact Ex.
      * specialize (Hpost y Hy). lia.
    + apply Z.leb_gt in Ex. injection E as <- <-.
      exists (x :: pre), post. split; [rewrite Hrest; reflexivity|].
      split; [|exact Hpost].
      intros y [<-|Hy]; [exact Ex|now apply Hpre].
Qed.

Lemma combine_seq_nth {B : Type} (xs : list B) :
  forall a j x,
    nth_error xs j = Some x ->
    In ((a + j)%nat, x) (combine (seq a (length xs)) xs).
Proof.
  induction xs as [|y ys IH]; intros a [|j] x; simpl; try discriminate.
  - intros [= ->]. left. f_equal. lia.
  - intros H. right. replace (a + S j)%nat with (S a + j)%nat by lia.
    now apply IH.
Qed.

Lemma enumerate_nth (ls : list Lift.t) (j : nat) (l : Lift.t) :
  nth_error ls j = Some l -> In (j, l) (Simulation.enumerate ls).
Proof. intros H. apply (combine_seq_nth ls 0 j l H). Qed.

Lemma seq_split_after (n : nat) :
  forall a pre i post,
    seq a n = pre ++ i :: post ->
    forall x, In x post -> (i < x)%nat.
Proof.
  induction n as [|n IH]; intros a pre i post E x Hx; simpl in E.
  - destruct pre; discriminate.
  - destruct pre as [|p0 pre]; simpl in E; injection E as <- E.
    + rewrite <- E in Hx. apply in_seq in Hx. lia.
    + eapply IH; eassumption.
Qed.

Lemma map_fst_combine_eq {B C : Type} (xs : list B) :
  forall ys : list C,
    length xs = length ys -> map fst (combine xs ys) = xs.
Proof.
  induction xs as [|x xs IH]; intros [|y ys] H; simpl in *;
    try discriminate; [reflexivity|].
  f_equal. apply IH. now injection H.
Qed.

Lemma enumerate_split_after (ls : list Lift.t) pre i l post :
  Simulation.enumerate ls = pre ++ (i, l) :: post ->
  forall j l', In (j, l') post -> (i < j)%nat.
Proof.
  intros E j l' Hin.
  assert (Hfst : seq 0 (length ls) = map fst pre ++ i :: map fst post).
  { transitivity (map fst (Simulation.enumerate ls)).
    - unfold Simulation.enumerate. rewrite map_fst_combine_eq; [reflexivity|].
      apply length_seq.
    - rewrite E, map_app. reflexivity. }
  eapply seq_split_after; [exact Hfst|].
  change j with (fst (j, l')). now apply in_map.
Qed.

(** X7: with no lifts [assign_greedy] raises [IndexError].  Otherwise
    it queues the passenger on a lift whose queue is shortest, and among the
    lifts with a shortest queue on the first one of [self.lifts]. *)
Theorem assign_greedy_first_shortest (s : Simulation.t) (p : Passenger.t) :
  (Simulation.lifts s = [] ->
   Simulation.assign_greedy s p
   = (s, Raise (IndexError "list index out of range")))
  /\ (Simulation.lifts s <> [] ->
      exists i l,
        nth_error (Simulation.lifts s) i = Some l
        /\ Simulation.assign_greedy s p = (Simulation.queue_on s i p, Ok tt)
        /\ forall j l',
            nth_error (Simulation.lifts s) j = Some l' ->
            Lift.get_queue_length l <= Lift.get_queue_length l'
            /\ ((j < i)%nat ->
                Lift.get_queue_length l < Lift.get_queue_length l')).
Proof.
  unfold Simulation.assign_greedy. split.
  - intros ->. reflexivity.
  - intros Hne.
    destruct (sorted _ _ (Simulation.enumerate (Simulation.lifts s)))
      as [|[i l] t] eqn:E.
    { exfalso. apply Hne. apply length_zero_iff_nil.
      assert (Hl : length (Simulation.enumerate (Simulation.lifts s)) = 0%nat).
      { rewrite <- (sorted_length
                      (fun il : nat * Lift.t => Lift.get_queue_length (snd il))),
          E. reflexivity. }
      unfold Simulation.enumerate in Hl.
      rewrite length_combine, length_seq, Nat.min_id in Hl. exact Hl. }
    destruct (sorted_head_first _ _ _ _ E)
      as (pre & post & Hsplit & Hpre & Hpost).
    assert (Hin : In (i, l) (Simulation.enumerate (Simulation.lifts s)))
      by (rewrite Hsplit; apply in_or_app; right; now left).
    apply enumerate_in in Hin. destruct Hin as [Hnth _].
    exists i, l. split; [exact Hnth|]. split; [reflexivity|].
    intros j l' Hj. apply enumerate_nth in Hj as Hin'.
    rewrite Hsplit in Hin'. apply in_app_or in Hin'.
    destruct Hin' as [Hin'|[[= <- <-]|Hin']].
    + specialize (Hpre _ Hin'). simpl in Hpre. split; lia.
    + split; lia.
    + specialize (Hpost _ Hin'). simpl in Hpost. split; [exact Hpost|].
      pose proof (enumerate_split_after _ _ _ _ _ Hsplit j l' Hin'). lia.
Qed.

Lemma assign_greedy_first_shortest_witness :
  exists i l,
    nth_error (Simulation.lifts four_lift_sim) i = Some l
    /\ Simulation.assign_greedy four_lift_sim (Passenger.new 6 7)
       = (Simulation.queue_on four_lift_sim i (Passenger.new 6 7), Ok tt)
    /\ forall j l',
        nth_error (Simulation.lifts four_lift_sim) j = Some l' ->
        Lift.get_queue_length l <= Lift.get_queue_length l'
        /\ ((j < i)%nat ->
            Lift.get_queue_length l < Lift.get_queue_length l').
Proof.
  destruct (assign_greedy_first_shortest four_lift_sim (Passenger.new 6 7))
    as [_ H].
  apply H. discriminate.
Defined.

Lemma find_in_ascending {A : Type} (key : A -> Z) (f : A -> bool)
      (xs : list A) (x : A) :
  ascending key xs ->
  find f xs = Some x ->
  f x = true /\ In x xs
  /\ forall y, In y xs -> f y = true -> key x <= key y.
Proof.
  unfold ascending. induction xs as [|a xs IH]; simpl; [discriminate|].
  intros Hs E. inversion Hs as [|? ? Hs' Hall]; subst.
  destruct (f a) eqn:Ea.
  - injection E as <-. split; [exact Ea|]. split; [now left|].
    intros y [<-|Hy] _; [lia|].
    rewrite Forall_forall in Hall. apply Hall. now apply in_map.
  - destruct (IH Hs' E) as (Hfx & Hin & Hmin).
    split; [exact Hfx|]. split; [now right|].
    intros y [<-|Hy] Hfy; [congruence|now apply Hmin].
Qed.

(** X8: when no lift has a queue shorter than its capacity,
    [assign_nearest_lift] does what [assign_greedy] does.  Otherwise it
    queues the passenger on a lift whose queue is shorter than its capacity,
    and no other such lift has an earlier [arrival_time]. *)
Theorem assign_nearest_lift_choice (s : Simulation.t) (p : Passenger.t) :
  ((forall l, In l (Simulation.lifts s) ->
              Lift.capacity l <= Lift.get_queue_length l) ->
   Simulation.assign_nearest_lift s p = Simulation.assign_greedy s p)
  /\ ((exists l, In l (Simulation.lifts s)
                 /\ Lift.get_queue_length l < Lift.capacity l) ->
      exists i l,
        nth_error (Simulation.lifts s) i = Some l
        /\ Lift.get_queue_length l < Lift.capacity l
        /\ Simulation.assign_nearest_lift s p
           = (Simulation.queue_on s i p, Ok tt)
        /\ forall j l',
            nth_error (Simulation.lifts s) j = Some l' ->
            Lift.get_queue_length l' < Lift.capacity l' ->
            Lift.arrival_time l <= Lift.arrival_time l').
Proof.
  unfold Simulation.assign_nearest_lift.
  set (key := fun il : nat * Lift.t => Lift.get_arrival_time (snd il)).
  set (room := fun il : nat * Lift.t =>
                 Lift.get_queue_length (snd il) <? Lift.capacity (snd il)).
  set (by_proximity := sorted key Z.leb
                              (Simulation.enumerate (Simulation.lifts s))).
  assert (Hperm : Permutation (Simulation.enumerate (Simulation.lifts s))
                              by_proximity) by apply sorted_perm.
  split.
  - intros Hfull.
    destruct (find room by_proximity) as [[i l]|] eqn:E; [|reflexivity].
    apply find_some in E. destruct E as [Hin Hroom].
    apply (Permutation_in _ (Permutation_sym Hperm)) in Hin.
    apply enumerate_in in Hin. destruct Hin as [Hnth _].
    apply nth_error_In in Hnth. specialize (Hfull l Hnth).
    unfold room in Hroom. simpl in Hroom. apply Z.ltb_lt in Hroom. lia.
  - intros [l0 [Hin0 Hroom0]].
    destruct (find room by_proximity) as [[i l]|] eqn:E.
    + destruct (find_in_ascending key room by_proximity (i, l)
                  (sorted_ascending key _) E) as (Hroom & Hin & Hmin).
      apply (Permutation_in _ (Permutation_sym Hperm)) in Hin.
      apply enumerate_in in Hin. destruct Hin as [Hnth _].
      exists i, l. split; [exact Hnth|].
      split; [now apply Z.ltb_lt in Hroom|]. split; [reflexivity|].
      intros j l' Hj Hroom'.
      apply (Hmin (j, l')).
      * apply (Permutation_in _ Hperm). now apply enumerate_nth.
      * now apply Z.ltb_lt.
    + exfalso. apply In_nth_error in Hin0. destruct Hin0 as [j Hj].
      apply enumerate_nth in Hj. apply (Permutation_in _ Hperm) in Hj.
      pose proof (find_none _ _ E _ Hj) as Hn.
      unfold room in Hn. simpl in Hn. apply Z.ltb_ge in Hn. lia.
Qed.

Lemma assign_nearest_lift_choice_witness :
  exists i l,
    nth_error (Simulation.lifts four_lift_sim) i = Some l
    /\ Lift.get_queue_length l < Lift.capacity l
    /\ Simulation.assign_nearest_lift four_lift_sim (Passenger.new 6 7)
       = (Simulation.queue_on four_lift_sim i (Passenger.new 6 7), Ok tt)
    /\ forall j l',
        nth_error (Simulation.lifts four_lift_sim) j = Some l' ->
        Lift.get_queue_length l' < Lift.capacity l' ->
        Lift.arrival_time l <= Lift.arrival_time l'.
Proof.
  destruct (assign_nearest_lift_choice four_lift_sim (Passenger.new 6 7))
    as [_ H].
  apply H. exists (lift_with_queue 0 3).
  split; [now left|reflexivity].
Defined.

(** ** When an assignment raises *)

Lemma get_avg_floor_returns (l : Lift.t) :
  0 < Lift.capacity l -> exists a, Lift.get_avg_floor l = Ok a.
Proof.
  intros Hcap. unfold Lift.get_avg_floor.
  set (batch := Lift.passengers l ++ Lift.queue l).
  destruct (len batch =? 0) eqn:E0; [eexists; reflexivity|].
  apply Z.eqb_neq in E0.
  destruct (len batch <? Lift.capacity l) eqn:Elt.
  - unfold Lift.average. apply Z.eqb_neq in E0. rewrite E0.
    eexists; reflexivity.
  - apply Z.ltb_ge in Elt.
    assert (Hc0 : (Lift.capacity l =? 0) = false) by (apply Z.eqb_neq; lia).
    rewrite Hc0.
    destruct (len batch mod Lift.capacity l =? 0) eqn:Er;
      [eexists; reflexivity|].
    apply Z.eqb_neq in Er.
    pose proof (Z.mod_pos_bound (len batch) (Lift.capacity l) Hcap) as Hb.
    destruct (last_entries (len batch mod Lift.capacity l) batch)
      as [front [_ Hlen]]; [lia|].
    unfold Lift.average. rewrite Hlen.
    apply Z.eqb_neq in Er. rewrite Er. eexists; reflexivity.
Qed.

Lemma avg_floors_returns (ls : list Lift.t) :
  Forall (fun l => 0 < Lift.capacity l) ls ->
  exists avgs, Simulation.avg_floors ls = Ok avgs
               /\ length avgs = length ls.
Proof.
  induction 1 as [|l ls Hl _ IH]; simpl.
  - exists []. auto.
  - destruct (get_avg_floor_returns l Hl) as [a ->].
    destruct IH as [avgs [-> Hlen]]. simpl.
    exists (a :: avgs). simpl. auto.
Qed.

Lemma sorted_nonempty {A K : Type} (key : A -> K) (leb : K -> K -> bool)
      (xs : list A) :
  xs <> [] -> sorted key leb xs <> [].
Proof.
  intros Hne E. apply Hne.
  apply Permutation_nil. rewrite <- E. apply Permutation_sym, sorted_perm_any.
Qed.

Lemma call_assignment_func_returns (s : Simulation.t) (p : Passenger.t)
      (r : nat) (strat : Simulation.strategy) :
  Simulation.assignment_func s = Some strat ->
  Simulation.lifts s <> [] ->
  (strat = Simulation.Random -> (r < length (Simulation.lifts s))%nat) ->
  (strat = Simulation.Grouping ->
   Forall (fun l => 0 < Lift.capacity l) (Simulation.lifts s)) ->
  snd (Simulation.call_assignment_func s p r) = Ok tt.
Proof.
  unfold Simulation.call_assignment_func.
  intros -> Hne Hrand Hgroup.
  assert (Hgreedy : snd (Simulation.assign_greedy s p) = Ok tt).
  { unfold Simulation.assign_greedy.
    destruct (sorted _ _ _) as [|[i l] t] eqn:E; [|reflexivity].
    exfalso. revert E. apply sorted_nonempty.
    unfold Simulation.enumerate.
    destruct (Simulation.lifts s); [congruence|discriminate]. }
  destruct strat.
  - exact Hgreedy.
  - unfold Simulation.assign_nearest_lift.
    destruct (find _ _) as [[i l]|]; [reflexivity|exact Hgreedy].
  - unfold Simulation.assign_grouping.
    destruct (avg_floors_returns _ (Hgroup eq_refl)) as [avgs [-> Hlen]].
    destruct (sorted _ _ _) as [|[best best_avg] t] eqn:E.
    { exfalso. revert E. apply sorted_nonempty.
      destruct (Simulation.lifts s); [congruence|].
      destruct avgs; discriminate. }
    destruct (filter _ _) as [|[first_empty ?] ?]; [reflexivity|].
    destruct (negb _); reflexivity.
  - unfold Simulation.assign_random.
    destruct (nth_error _ r) eqn:E; [reflexivity|].
    apply nth_error_None in E. specialize (Hrand eq_refl). lia.
Qed.

(** X9: calling the assignment function raises [TypeError] when none was
    set and [IndexError] when the simulation has no lifts.  With at least
    one lift it returns normally for [greedy] and [nearest]; for [random]
    when the drawn index is below the number of lifts; and for [grouping]
    when every lift has a positive capacity. *)
Theorem assignment_raises_or_returns (s : Simulation.t) (p : Passenger.t)
        (r : nat) :
  (Simulation.assignment_func s = None ->
   Simulation.call_assignment_func s p r
   = (s, Raise (TypeError "'NoneType' object is not callable")))
  /\ (Simulation.assignment_func s <> None ->
      Simulation.lifts s = [] ->
      Simulation.call_assignment_func s p r
      = (s, Raise (IndexError "list index out of range")))
  /\ (forall strat,
         Simulation.assignment_func s = Some strat ->
         Simulation.lifts s <> [] ->
         (strat = Simulation.Random ->
          (r < length (Simulation.lifts s))%nat) ->
         (strat = Simulation.Grouping ->
          Forall (fun l => 0 < Lift.capacity l) (Simulation.lifts s)) ->
         snd (Simulation.call_assignment_func s p r) = Ok tt).
Proof.
  unfold Simulation.call_assignment_func. split; [|split].
  - intros ->. reflexivity.
  - intros Hsome Hnil.
    destruct (Simulation.assignment_func s) as [[| | |]|]; [| | | |congruence].
    + unfold Simulation.assign_greedy. rewrite Hnil. reflexivity.
    + unfold Simulation.assign_nearest_lift, Simulation.assign_greedy.
      rewrite Hnil. reflexivity.
    + unfold Simulation.assign_grouping. rewrite Hnil. reflexivity.
    + unfold Simulation.assign_random. rewrite Hnil.
      destruct r; reflexivity.
  - intros strat Hs Hne Hrand Hgroup.
    fold (Simulation.call_assignment_func s p r).
    now apply (call_assignment_func_returns s p r strat).
Qed.

Lemma assignment_raises_or_returns_witness :
  snd (Simulation.call_assignment_func four_lift_sim (Passenger.new 6 7) 0)
  = Ok tt.
Proof.
  destruct (assignment_raises_or_returns four_lift_sim (Passenger.new 6 7) 0)
    as (_ & _ & H).
  apply (H Simulation.Greedy); try reflexivity; discriminate.
Defined.

(** ** Intake and throttle of a step *)

(** X10: the intake loop moves a prefix of the traffic feed to the end of
    the lobby queue, in order: every moved entry is due
    ([time.start <= clock]) and the first entry left, if any, is not.  When
    the feed is sorted by [time.start] nothing due is left behind. *)
Theorem new_arrivals_moves_due_prefix (clock : Z)
        (traffic q : list Passenger.t) :
  exists moved,
    traffic = moved ++ fst (Simulation.new_arrivals clock traffic q)
    /\ snd (Simulation.new_arrivals clock traffic q) = q ++ moved
    /\ Forall (fun p => Passenger.time_start p <= clock) moved
    /\ match fst (Simulation.new_arrivals clock traffic q) with
       | [] => True
       | user :: _ => clock < Passenger.time_start user
       end
    /\ (ascending Passenger.time_start traffic ->
        Forall (fun p => clock < Passenger.time_start p)
               (fst (Simulation.new_arrivals clock traffic q))).
Proof.
  revert q. induction traffic as [|user rest IH]; intros q; simpl.
  - exists []. split; [reflexivity|].
    split; [symmetry; apply app_nil_r|]. repeat split; constructor.
  - destruct (clock <? Passenger.time_start user) eqn:E.
    + apply Z.ltb_lt in E. exists []. split; [reflexivity|].
      split; [symmetry; apply app_nil_r|]. simpl.
      repeat split; [constructor|exact E|].
      unfold ascending. simpl. intros Hs.
      inversion Hs as [|? ? _ Hall]; subst.
      constructor; [exact E|].
      rewrite Forall_map in Hall.
      eapply Forall_impl; [|exact Hall]. simpl. intros; lia.
    + apply Z.ltb_ge in E.
      destruct (IH (q ++ [user])) as (moved & Htr & Hq & Hdue & Hhead & Hsorted).
      exists (user :: moved). simpl.
      split; [now rewrite <- Htr|].
      split; [now rewrite Hq, <- app_assoc|].
      split; [now constructor|]. split; [exact Hhead|].
      unfold ascending in *. simpl. intros Hs.
      inversion Hs; subst. now apply Hsorted.
Qed.

Lemma assign_loop_takes (d : Simulation.draws) (n : nat) :
  forall s j,
    exists taken,
      Simulation.q s
      = taken ++ Simulation.q (fst (Simulation.assign_loop s d j n))
      /\ (length taken <= n)%nat
      /\ (snd (Simulation.assign_loop s d j n) = Ok tt ->
          length taken = Nat.min n (length (Simulation.q s))).
Proof.
  induction n as [|n IH]; intros s j; simpl.
  - exists []. auto.
  - destruct (Simulation.q s) as [|p rest] eqn:Hq; simpl.
    + exists []. rewrite Hq. simpl. repeat split; lia.
    + destruct (call_assignment_func_outcome
                  (Simulation.set_q rest s) p (Simulation.pick d j))
        as [[e ->]|[i [Hi ->]]].
      * exists [p]. simpl. repeat split; [lia|discriminate].
      * destruct (IH (Simulation.queue_on (Simulation.set_q rest s) i p)
                     (S j)) as (taken & Ht & Hle & Heq).
        change (Simulation.q (Simulation.queue_on
                                (Simulation.set_q rest s) i p))
          with rest in Ht, Heq.
        exists (p :: taken). simpl.
        split; [now rewrite <- Ht|]. split; [lia|].
        intros Hok. now rewrite (Heq Hok).
Qed.

(** X11: in one tick the assignment loop takes passengers from the head
    of the lobby queue only, in order, and at most as many as the drawn
    batch size; when no assignment raises it takes exactly
    [min(batch, len(q))] of them, and what it leaves is the rest of the
    queue. *)
Theorem assignment_throttle (s : Simulation.t) (d : Simulation.draws) :
  exists taken,
    Simulation.q s
    = taken
      ++ Simulation.q (fst (Simulation.assign_loop s d 0 (Simulation.batch d)))
    /\ (length taken <= Simulation.batch d)%nat
    /\ (snd (Simulation.assign_loop s d 0 (Simulation.batch d)) = Ok tt ->
        length taken
        = Nat.min (Simulation.batch d) (length (Simulation.q s))
        /\ lifts_load
             (Simulation.lifts
                (fst (Simulation.assign_loop s d 0 (Simulation.batch d))))
           = (lifts_load (Simulation.lifts s) + length taken)%nat).
Proof.
  destruct (assign_loop_takes d (Simulation.batch d) s 0)
    as (taken & Ht & Hle & Heq).
  exists taken. split; [exact Ht|]. split; [exact Hle|].
  intros Hok. split; [now apply Heq|].
  destruct (assign_loop_load d (Simulation.batch d) s 0)
    as (_ & Hload & _).
  specialize (Hload Hok).
  apply (f_equal (@length Passenger.t)) in Ht. rewrite length_app in Ht.
  lia.
Qed.

(** ** What a step never changes *)

(** A relation between the lift before and after, kept by every lift
    operation, relates the lifts of a simulation position by position
    across a [step]. *)
Section StepRelates.
Variable R : Lift.t -> Lift.t -> Prop.
Hypothesis R_refl : forall l, R l l.
Hypothesis R_trans : forall a b c, R a b -> R b c -> R a c.
Hypothesis R_queue_passenger :
  forall l p clock, R l (Lift.queue_passenger l p clock).
Hypothesis R_update : forall l, R l (Lift.update l).
Hypothesis R_check_departure :
  forall l clock, R l (fst (Lift.check_departure l clock)).
Hypothesis R_check_arrival :
  forall l clock, R l (fst (Lift.check_arrival l clock)).

Lemma related_refl (ls : list Lift.t) : Forall2 R ls ls.
Proof. induction ls; constructor; auto. Qed.

Lemma related_trans (xs ys zs : list Lift.t) :
  Forall2 R xs ys -> Forall2 R ys zs -> Forall2 R xs zs.
Proof.
  intros H. revert zs. induction H; intros zs Hz; inversion Hz; subst;
    constructor; eauto.
Qed.

Lemma update_nth_related (f : Lift.t -> Lift.t) :
  (forall l, R l (f l)) ->
  forall i ls, Forall2 R ls (Simulation.update_nth i f ls).
Proof.
  intros Hf i ls. revert i.
  induction ls as [|l ls IH]; intros [|i]; simpl; constructor; auto.
  apply related_refl.
Qed.

Lemma call_assignment_func_related (s : Simulation.t) (p : Passenger.t)
      (r : nat) :
  Forall2 R (Simulation.lifts s)
          (Simulation.lifts (fst (Simulation.call_assignment_func s p r))).
Proof.
  destruct (call_assignment_func_outcome s p r)
    as [[e ->]|[i [_ ->]]]; cbn [fst].
  - apply related_refl.
  - apply (update_nth_related
             (fun l => Lift.queue_passenger l p (Simulation.clock s))).
    intros l. apply R_queue_passenger.
Qed.

Lemma assign_loop_related (d : Simulation.draws) (n : nat) :
  forall s j,
    Forall2 R (Simulation.lifts s)
            (Simulation.lifts (fst (Simulation.assign_loop s d j n))).
Proof.
  induction n as [|n IH]; intros s j; simpl; [apply related_refl|].
  destruct (Simulation.q s) as [|p rest]; [apply related_refl|].
  pose proof (call_assignment_func_related
                (Simulation.set_q rest s) p (Simulation.pick d j)) as H.
  destruct (Simulation.call_assignment_func
              (Simulation.set_q rest s) p (Simulation.pick d j))
    as [s1 [[]|e]]; simpl in *; [|exact H].
  eapply related_trans; [exact H|apply IH].
Qed.

Lemma update_lifts_related (clock : Z) (ls : list Lift.t) :
  forall arrivals,
    Forall2 R ls (fst (fst (Simulation.update_lifts clock ls arrivals))).
Proof.
  induction ls as [|l ls IH]; intros arrivals; simpl; [constructor|].
  unfold Lift.is_available.
  change (Lift.available (Lift.update l)) with (Lift.available l).
  destruct (Lift.available l).
  - pose proof (R_trans _ _ _ (R_update l)
                        (R_check_departure (Lift.update l) clock)) as H.
    destruct (Lift.check_departure (Lift.update l) clock) as [l1 [[]|e]].
    + specialize (IH arrivals).
      destruct (Simulation.update_lifts clock ls arrivals)
        as [[ls' arr'] r]. simpl in *. now constructor.
    + simpl in *. constructor; [exact H|apply related_refl].
  - pose proof (R_trans _ _ _ (R_update l)
                        (R_check_arrival (Lift.update l) clock)) as H.
    destruct (Lift.check_arrival (Lift.update l) clock) as [l1 completed].
    specialize (IH (arrivals ++ completed)).
    destruct (Simulation.update_lifts clock ls (arrivals ++ completed))
      as [[ls' arr'] r]. simpl in *. now constructor.
Qed.

Lemma step_related (s : Simulation.t) (d : Simulation.draws) :
  Forall2 R (Simulation.lifts s)
          (Simulation.lifts (fst (Simulation.step s d))).
Proof.
  unfold Simulation.step.
  destruct (Simulation.traffic s) as [tr|]; [|apply related_refl].
  destruct (Simulation.new_arrivals (Simulation.clock s) tr
                                    (Simulation.q s)) as [tr' waiting].
  set (s0 := Simulation.set_q waiting
               (Simulation.set_traffic_field (Some tr') s)).
  pose proof (assign_loop_related d (Simulation.batch d) s0 0) as H.
  destruct (Simulation.assign_loop s0 d 0 (Simulation.batch d))
    as [s1 [[]|e]]; simpl in *; [|exact H].
  pose proof (update_lifts_related (Simulation.clock s1)
                (Simulation.lifts s1) (Simulation.arrivals s1)) as Hu.
  destruct (Simulation.update_lifts (Simulation.clock s1)
              (Simulation.lifts s1) (Simulation.arrivals s1))
    as [[ls arr] r]. simpl in Hu.
  destruct r as [[]|e]; simpl; eapply related_trans; eassumption.
Qed.

Lemma steps_related (ds : list Simulation.draws) :
  forall s,
    Forall2 R (Simulation.lifts s)
            (Simulation.lifts (fst (Simulation.steps s ds))).
Proof.
  induction ds as [|d ds IH]; intros s; simpl; [apply related_refl|].
  pose proof (step_related s d) as H.
  destruct (Simulation.step s d) as [s1 [[]|e]]; simpl in *; [|exact H].
  eapply related_trans; [exact H|apply IH].
Qed.
End StepRelates.

Lemma same_unit_refl (l : Lift.t) : same_unit l l.
Proof. unfold same_unit. repeat split. Qed.

Lemma same_unit_trans (a b c : Lift.t) :
  same_unit a b -> same_unit b c -> same_unit a c.
Proof.
  unfold same_unit.
  intros (H1 & H2 & H3 & H4 & H5 & H6 & H7 & H8 & H9)
         (K1 & K2 & K3 & K4 & K5 & K6 & K7 & K8 & K9).
  repeat split; congruence.
Qed.

Lemma update_trip_times_same_unit (l : Lift.t) (clock : Z) :
  same_unit l (fst (Lift.update_trip_times l clock)).
Proof.
  unfold Lift.update_trip_times.
  set (l1 := Lift.set_loc_history _ _).
  destruct (Lift.visit l1 clock 0%R 0 (Lift.passengers l1))
    as [[[ps' times] locs] r].
  destruct r as [[time prev_n]|e]; simpl.
  - match goal with
    | |- context [Lift.travel_time ?x ?n] => destruct (Lift.travel_time x n)
    end; unfold same_unit; simpl; repeat split.
  - unfold same_unit; simpl; repeat split.
Qed.

Lemma depart_same_unit (l : Lift.t) (clock : Z) :
  same_unit l (fst (Lift.depart l clock)).
Proof.
  unfold Lift.depart.
  set (l1 := Lift.set_passengers _ _).
  pose proof (update_trip_times_same_unit l1 clock) as H.
  destruct (Lift.update_trip_times l1 clock) as [l2 [time|e]];
    unfold same_unit in *; simpl in *; exact H.
Qed.

Lemma check_departure_triggers_same_unit (l : Lift.t) (clock : Z) :
  same_unit l (fst (Lift.check_departure_triggers l clock)).
Proof.
  unfold Lift.check_departure_triggers.
  destruct (Rge_dec _ _); [apply depart_same_unit|].
  destruct (0 <? len (Lift.passengers l)); [|apply same_unit_refl].
  destruct (Lift.max_enter_lift (Lift.passengers l)) as [p|e];
    [|apply same_unit_refl].
  destruct (Passenger.time_enter_lift p); [|apply same_unit_refl].
  destruct (10 <? clock - _); [apply depart_same_unit|apply same_unit_refl].
Qed.

Lemma check_departure_same_unit (l : Lift.t) (clock : Z) :
  same_unit l (fst (Lift.check_departure l clock)).
Proof.
  unfold Lift.check_departure.
  destruct (Lift.queue l) as [|p rest];
    [apply check_departure_triggers_same_unit|].
  destruct (len (Lift.passengers l) <? Lift.capacity l);
    [|apply depart_same_unit].
  match goal with
  | |- context [Lift.check_departure_triggers ?x clock] =>
      apply (same_unit_trans l x);
        [|apply check_departure_triggers_same_unit]
  end.
  unfold Lift.add_passenger. simpl.
  destruct (_ && _); unfold same_unit; simpl; repeat split.
Qed.

Lemma check_arrival_same_unit (l : Lift.t) (clock : Z) :
  same_unit l (fst (Lift.check_arrival l clock)).
Proof.
  unfold Lift.check_arrival.
  destruct (clock =? Lift.arrival_time l);
    unfold same_unit; simpl; repeat split.
Qed.

(** What the assignment loop leaves alone in the simulation object. *)
Lemma assign_loop_config (d : Simulation.draws) (n : nat) :
  forall s j,
    let s' := fst (Simulation.assign_loop s d j n) in
    Simulation.id s' = Simulation.id s
    /\ Simulation.iterations s' = Simulation.iterations s
    /\ Simulation.number_of_lifts s' = Simulation.number_of_lifts s
    /\ Simulation.assignment_func s' = Simulation.assignment_func s
    /\ Simulation.total_traffic s' = Simulation.total_traffic s.
Proof.
  induction n as [|n IH]; intros s j; simpl; [repeat split|].
  destruct (Simulation.q s) as [|p rest]; [repeat split|].
  destruct (call_assignment_func_outcome
              (Simulation.set_q rest s) p (Simulation.pick d j))
    as [[e ->]|[i [_ ->]]]; [repeat split|].
  apply (IH (Simulation.queue_on (Simulation.set_q rest s) i p) (S j)).
Qed.

Lemma step_config (s : Simulation.t) (d : Simulation.draws) :
  let s' := fst (Simulation.step s d) in
  Simulation.id s' = Simulation.id s
  /\ Simulation.iterations s' = Simulation.iterations s
  /\ Simulation.number_of_lifts s' = Simulation.number_of_lifts s
  /\ Simulation.assignment_func s' = Simulation.assignment_func s
  /\ Simulation.total_traffic s' = Simulation.total_traffic s
  /\ (snd (Simulation.step s d) = Ok tt ->
      Simulation.clock s' = Simulation.clock s + 1)
  /\ (forall e, snd (Simulation.step s d) = Raise e ->
                Simulation.clock s' = Simulation.clock s)
  /\ (Simulation.traffic s <> None -> Simulation.traffic s' <> None).
Proof.
  unfold Simulation.step.
  destruct (Simulation.traffic s) as [tr|] eqn:Htr; simpl.
  2:{ repeat split; try discriminate; congruence. }
  destruct (Simulation.new_arrivals (Simulation.clock s) tr
                                    (Simulation.q s)) as [tr' waiting].
  set (s0 := Simulation.set_q waiting
               (Simulation.set_traffic_field (Some tr') s)).
  pose proof (assign_loop_config d (Simulation.batch d) s0 0) as Hcfg.
  pose proof (assign_loop_load d (Simulation.batch d) s0 0) as Hload.
  cbv zeta in Hcfg, Hload.
  destruct Hcfg as (H1 & H2 & H3 & H4 & H5).
  destruct Hload as (_ & _ & Ht & _ & Hc).
  destruct (Simulation.assign_loop s0 d 0 (Simulation.batch d))
    as [s1 [[]|e]]; simpl in *.
  2:{ repeat split; try assumption; try discriminate;
        try (intros; congruence); rewrite Ht; discriminate. }
  destruct (Simulation.update_lifts (Simulation.clock s1)
              (Simulation.lifts s1) (Simulation.arrivals s1))
    as [[ls arr] r].
  destruct r as [[]|e]; simpl; repeat split; try assumption;
    try discriminate; try lia; try (intros; congruence);
    rewrite Ht; discriminate.
Qed.

(** X12: a [step], however it ends, keeps the lifts of the simulation in
    place: as many as before, each at its position the same unit (id,
    capacity, kinematic parameters, threshold), so a lift with the
    kinematics of [__init__] keeps them.  It leaves the iteration cap, the
    traffic total and the selected strategy alone, and moves the clock on by
    exactly one when it completes and not at all when it raises.  The lifts
    stay in place over any sequence of steps. *)
Theorem step_keeps_units :
  (forall s d,
      let s' := fst (Simulation.step s d) in
      Forall2 same_unit (Simulation.lifts s) (Simulation.lifts s')
      /\ length (Simulation.lifts s') = length (Simulation.lifts s)
      /\ (Forall init_kinematics (Simulation.lifts s) ->
          Forall init_kinematics (Simulation.lifts s'))
      /\ Simulation.iterations s' = Simulation.iterations s
      /\ Simulation.total_traffic s' = Simulation.total_traffic s
      /\ Simulation.assignment_func s' = Simulation.assignment_func s
      /\ (snd (Simulation.step s d) = Ok tt ->
          Simulation.clock s' = Simulation.clock s + 1)
      /\ (forall e, snd (Simulation.step s d) = Raise e ->
                    Simulation.clock s' = Simulation.clock s))
  /\ (forall ds s,
         Forall2 same_unit (Simulation.lifts s)
                 (Simulation.lifts (fst (Simulation.steps s ds)))).
Proof.
  assert (Hstep : forall s d,
             Forall2 same_unit (Simulation.lifts s)
                     (Simulation.lifts (fst (Simulation.step s d)))).
  { intros s d. apply step_related.
    - apply same_unit_refl.
    - apply same_unit_trans.
    - intros l p clock. unfold same_unit. simpl. repeat split.
    - intros l. unfold same_unit. simpl. repeat split.
    - apply check_departure_same_unit.
    - apply check_arrival_same_unit. }
  split.
  - intros s d. cbv zeta.
    destruct (step_config s d) as (_ & Hit & _ & Haf & Htt & Hok & Hraise & _).
    split; [apply Hstep|].
    split; [symmetry; apply (Forall2_length (Hstep s d))|].
    split.
    { intros Hall. specialize (Hstep s d).
      induction Hstep as [|l l' ls ls' Hl _ IH]; [constructor|].
      inversion Hall as [|? ? Hk Hks]; subst.
      constructor; [|now apply IH].
      destruct Hl as (_ & _ & Hv & Ha & _ & _ & Hs & Ht & _).
      destruct Hk as [Hks1 Hks2].
      unfold init_kinematics. rewrite Hs, Ht, Hv, Ha. auto. }
    repeat split; assumption.
  - intros ds s. apply steps_related.
    + apply same_unit_refl.
    + apply same_unit_trans.
    + intros l p clock. unfold same_unit. simpl. repeat split.
    + intros l. unfold same_unit. simpl. repeat split.
    + apply check_departure_same_unit.
    + apply check_arrival_same_unit.
Qed.

(** ** The marker value 0 of the average floor *)

Lemma quotient_zero (sum n : Z) :
  n <> 0 -> (inject_Z sum / inject_Z n == 0)%Q <-> sum = 0.
Proof.
  intros Hn. unfold Qdiv, Qmult, Qinv, Qeq, inject_Z.
  destruct n as [|n|n]; [congruence| |]; simpl; lia.
Qed.

Lemma sum_destinations_positive (ps : list Passenger.t) :
  ps <> [] ->
  Forall (fun p => 0 < Passenger.destination p) ps ->
  0 < Lift.sum_destinations ps.
Proof.
  intros Hne Hall. unfold Lift.sum_destinations.
  rewrite fold_left_add.
  induction Hall as [|p ps Hp Hps IH]; [congruence|]. simpl.
  destruct ps as [|p' ps'].
  - simpl. lia.
  - assert (0 < 0 + fold_right Z.add 0 (map Passenger.destination (p' :: ps')))
      by (apply IH; discriminate).
    lia.
Qed.

Lemma average_positive (ps : list Passenger.t) :
  ps <> [] ->
  Forall (fun p => 0 < Passenger.destination p) ps ->
  exists a, Lift.average ps (len ps) = Ok a /\ ~ (a == 0)%Q.
Proof.
  intros Hne Hall. unfold Lift.average.
  assert (Hlen : len ps <> 0).
  { destruct ps; [congruence|]. unfold len. simpl. lia. }
  apply Z.eqb_neq in Hlen as Hb. rewrite Hb.
  eexists. split; [reflexivity|].
  rewrite quotient_zero by exact Hlen.
  pose proof (sum_destinations_positive ps Hne Hall). lia.
Qed.

Lemma Forall_skipn_keeps {A : Type} (P : A -> Prop) (n : nat) :
  forall xs, Forall P xs -> Forall P (skipn n xs).
Proof.
  induction n as [|n IH]; intros xs H; [exact H|].
  destruct H; simpl; [constructor|now apply IH].
Qed.

(** X13: for a lift of positive capacity whose boarded and queued
    passengers all go to floors above 0, [get_avg_floor()] returns a value,
    and that value is 0 exactly when the number of boarded and queued
    passengers is a multiple of the capacity (none at all included): the 0
    that [assign_grouping] reads as "no partial load" is never the average
    of passengers. *)
Theorem get_avg_floor_zero_iff_full_batches (l : Lift.t) :
  0 < Lift.capacity l ->
  Forall (fun p => 0 < Passenger.destination p)
         (Lift.passengers l ++ Lift.queue l) ->
  exists a,
    Lift.get_avg_floor l = Ok a
    /\ ((a == 0)%Q <->
        len (Lift.passengers l ++ Lift.queue l) mod Lift.capacity l = 0).
Proof.
  intros Hcap Hall. unfold Lift.get_avg_floor.
  set (batch := Lift.passengers l ++ Lift.queue l) in *.
  destruct (len batch =? 0) eqn:E0.
  { apply Z.eqb_eq in E0. exists 0%Q. split; [reflexivity|].
    rewrite E0. split; [reflexivity|intros _; reflexivity]. }
  apply Z.eqb_neq in E0.
  assert (Hne : batch <> []) by (intros E; apply E0; now rewrite E).
  assert (Hpos : 0 < len batch) by (unfold len in *; lia).
  destruct (len batch <? Lift.capacity l) eqn:Elt.
  - apply Z.ltb_lt in Elt.
    destruct (average_positive batch Hne Hall) as [a [Ha Hnz]].
    exists a. split; [exact Ha|].
    rewrite Z.mod_small by lia. split; [tauto|lia].
  - apply Z.ltb_ge in Elt.
    assert (Hc0 : (Lift.capacity l =? 0) = false) by (apply Z.eqb_neq; lia).
    rewrite Hc0.
    destruct (len batch mod Lift.capacity l =? 0) eqn:Er.
    + apply Z.eqb_eq in Er. exists 0%Q. split; [reflexivity|].
      split; [intros _; exact Er|reflexivity].
    + apply Z.eqb_neq in Er.
      pose proof (Z.mod_pos_bound (len batch) (Lift.capacity l) Hcap) as Hb.
      destruct (last_entries (len batch mod Lift.capacity l) batch)
        as [front [_ Hlen]]; [lia|].
      set (tail := Lift.slice_from_neg
                     (len batch mod Lift.capacity l) batch) in *.
      assert (Htne : tail <> [])
        by (intros E; rewrite E in Hlen;
            change (@len Passenger.t []) with 0 in Hlen; lia).
      assert (Htall : Forall (fun p => 0 < Passenger.destination p) tail).
      { subst tail. unfold Lift.slice_from_neg.
        destruct (0 <? _); now apply Forall_skipn_keeps. }
      destruct (average_positive tail Htne Htall) as [a [Ha Hnz]].
      exists a. split; [exact Ha|]. split; [tauto|lia].
Qed.

Lemma get_avg_floor_zero_iff_full_batches_witness :
  exists a,
    Lift.get_avg_floor five_batch_lift = Ok a
    /\ ((a == 0)%Q <->
        len (Lift.passengers five_batch_lift ++ Lift.queue five_batch_lift)
            mod Lift.capacity five_batch_lift = 0).
Proof.
  apply (get_avg_floor_zero_iff_full_batches five_batch_lift).
  - reflexivity.
  - repeat constructor.
Defined.

(** ** A whole trip: departure, then arrival *)

Lemma depart_run (l : Lift.t) (clock : Z) :
  (0 < Lift.vmax l)%R -> (0 < Lift.acc l)%R -> (0 <= Lift.df l)%R ->
  Forall (fun p => 0 <= Passenger.destination p) (Lift.passengers l) ->
  let visit_order :=
    sorted Passenger.destination Z.leb
           (map (Passenger.set_time_departure clock) (Lift.passengers l)) in
  let floors := map Passenger.destination visit_order in
  exists legs back,
    leg_times l (deltas 0 floors) legs
    /\ Lift.travel_time l (Z.abs (0 - last floors 0)) = Ok back
    /\ length (running 0%R legs) = length visit_order
    /\ snd (Lift.depart l clock) = Ok tt
    /\ Lift.passengers (fst (Lift.depart l clock))
       = stamp_all visit_order (running 0%R legs)
    /\ Lift.arrival_time (fst (Lift.depart l clock))
       = Zceil (IZR clock + (total legs + back))
    /\ Lift.rtt (fst (Lift.depart l clock)) = Some (total legs + back)%R
    /\ Lift.queue (fst (Lift.depart l clock)) = Lift.queue l
    /\ Lift.available (fst (Lift.depart l clock)) = false.
Proof.
  intros Hv Ha Hdf Hdest.
  set (ps0 := map (Passenger.set_time_departure clock) (Lift.passengers l)).
  set (l0 := Lift.set_passengers ps0 (Lift.set_available false l)).
  assert (Hdest0 : Forall (fun p => 0 <= Passenger.destination p)
                          (Lift.passengers l0)).
  { simpl. unfold ps0. apply Forall_map.
    eapply Forall_impl; [|exact Hdest]. auto. }
  destruct (update_trip_times_run l0 clock Hv Ha Hdf Hdest0)
    as (legs & back & Hlegs & Hback & Hlen & Hrun).
  cbv zeta. fold ps0. change (Lift.passengers l0) with ps0 in *.
  exists legs, back.
  split; [exact Hlegs|]. split; [exact Hback|]. split; [exact Hlen|].
  assert (Hd : Lift.depart l clock
               = match Lift.update_trip_times l0 clock with
                 | (l1, Raise e) => (l1, Raise e)
                 | (l1, Ok time) =>
                     (Lift.set_arrival_time
                        (Zceil (IZR clock + time))
                        (Lift.set_rtt (Some time) l1), Ok tt)
                 end) by reflexivity.
  rewrite Hd, Hrun. repeat split.
Qed.

(** X14: departure and arrival compose into a whole trip.  On a lift
    with the kinematics of [__init__], [vmax > 0], [acc > 0],
    [door_time >= 0], [floor_height >= 0] and boarded destinations [>= 0],
    after [depart(clock)] the scheduled tick [a] is not before [clock];
    [check_arrival] at any other tick returns nothing and changes nothing;
    [check_arrival(a)] returns the passengers that were boarded (the same
    destinations), each stamped with departure time [clock], arrival time
    [a] and a travelling time that ends no later than [a], and leaves the
    lift available and empty with its queue as it was. *)
Theorem depart_then_check_arrival (l : Lift.t) (clock : Z) :
  init_kinematics l ->
  (0 < Lift.vmax l)%R -> (0 < Lift.acc l)%R ->
  (0 <= Lift.td l)%R -> (0 <= Lift.df l)%R ->
  Forall (fun p => 0 <= Passenger.destination p) (Lift.passengers l) ->
  let away := fst (Lift.depart l clock) in
  let a := Lift.arrival_time away in
  clock <= a
  /\ (forall t, t <> a -> Lift.check_arrival away t = (away, []))
  /\ Lift.available (fst (Lift.check_arrival away a)) = true
  /\ Lift.passengers (fst (Lift.check_arrival away a)) = []
  /\ Lift.queue (fst (Lift.check_arrival away a)) = Lift.queue l
  /\ Permutation
       (map Passenger.destination (snd (Lift.check_arrival away a)))
       (map Passenger.destination (Lift.passengers l))
  /\ Forall (fun p =>
               Passenger.time_departure p = Some clock
               /\ Passenger.time_arrival p = Some a
               /\ exists t, Passenger.time_travelling p = Some t
                            /\ (0 <= t)%R /\ (IZR clock + t <= IZR a)%R)
            (snd (Lift.check_arrival away a)).
Proof.
  intros Hk Hv Ha Htd Hdf Hdest away a.
  destruct (depart_run l clock Hv Ha Hdf Hdest)
    as (legs & back & Hlegs & Hback & Hlen & _ & Hps & Harr & _ & Hq & _).
  fold away in Hps, Harr, Hq.
  pose proof (leg_times_lower_bound l _ _ Hk Hv Ha Hlegs) as Hlow.
  pose proof (travel_time_lower_bound l _ _ Hk Hv Ha Hback) as Hbacklow.
  assert (Hnonneg : Forall (fun t => (0 <= t)%R) legs)
    by (eapply Forall_impl; [|exact Hlow]; simpl; intros; lra).
  pose proof (total_nonneg legs Hnonneg) as Htot.
  pose proof (Zceil_bound (IZR clock + (total legs + back))) as Hceil.
  fold a in Harr. rewrite <- Harr in Hceil.
  split; [apply le_IZR; lra|]. split.
  { intros t Ht. unfold Lift.check_arrival. fold a.
    apply Z.eqb_neq in Ht. now rewrite Ht. }
  unfold Lift.check_arrival. fold a. rewrite Z.eqb_refl.
  cbn [fst snd Lift.available Lift.passengers Lift.queue
       Lift.set_available Lift.set_passengers].
  split; [reflexivity|]. split; [reflexivity|]. split; [exact Hq|].
  rewrite Hps. split.
  - rewrite map_map. simpl.
    change (map (fun x => Passenger.destination x)
                (stamp_all
                   (sorted Passenger.destination Z.leb
                      (map (Passenger.set_time_departure clock)
                           (Lift.passengers l)))
                   (running 0%R legs)))
      with (map Passenger.destination
                (stamp_all
                   (sorted Passenger.destination Z.leb
                      (map (Passenger.set_time_departure clock)
                           (Lift.passengers l)))
                   (running 0%R legs))).
    rewrite stamp_all_destinations by exact Hlen.
    eapply perm_trans.
    + apply Permutation_map, Permutation_sym, sorted_perm.
    + rewrite map_map. simpl. apply Permutation_refl.
  - apply Forall_forall. intros x Hx.
    apply in_map_iff in Hx. destruct Hx as [y [<- Hy]].
    apply stamp_all_in in Hy. destruct Hy as (p & t & Hp & Ht & ->).
    split.
    + eapply Permutation_in in Hp;
        [|apply Permutation_sym, sorted_perm].
      apply in_map_iff in Hp. destruct Hp as [p0 [<- _]]. reflexivity.
    + split; [reflexivity|]. exists t. split; [reflexivity|].
      pose proof (running_bounds legs Hnonneg 0%R) as Hb.
      rewrite Forall_forall in Hb. specialize (Hb t Ht). lra.
Qed.

Lemma depart_then_check_arrival_witness :
  let away := fst (Lift.depart four_boarded_lift 4) in
  let a := Lift.arrival_time away in
  4 <= a
  /\ (forall t, t <> a -> Lift.check_arrival away t = (away, []))
  /\ Lift.available (fst (Lift.check_arrival away a)) = true
  /\ Lift.passengers (fst (Lift.check_arrival away a)) = []
  /\ Lift.queue (fst (Lift.check_arrival away a))
     = Lift.queue four_boarded_lift
  /\ Permutation
       (map Passenger.destination (snd (Lift.check_arrival away a)))
       (map Passenger.destination (Lift.passengers four_boarded_lift))
  /\ Forall (fun p =>
               Passenger.time_departure p = Some 4
               /\ Passenger.time_arrival p = Some a
               /\ exists t, Passenger.time_travelling p = Some t
                            /\ (0 <= t)%R /\ (IZR 4 + t <= IZR a)%R)
            (snd (Lift.check_arrival away a)).
Proof.
  apply (depart_then_check_arrival four_boarded_lift 4).
  - unfold init_kinematics. simpl. split; field.
  - simpl. lra.
  - simpl. lra.
  - simpl. lra.
  - simpl. lra.
  - repeat constructor; simpl; lia.
Defined.

(** ** A lift comes back at its scheduled tick *)

(** When no lift raises, the lift loop advances every lift on its own and
    collects what the lifts hand back, in order. *)
Lemma update_lifts_completes (clock : Z) (ls : list Lift.t) :
  forall arrivals,
    snd (Simulation.update_lifts clock ls arrivals) = Ok tt ->
    fst (fst (Simulation.update_lifts clock ls arrivals))
    = map (tick clock) ls
    /\ snd (fst (Simulation.update_lifts clock ls arrivals))
       = arrivals ++ flat_map (returned clock) ls.
Proof.
  induction ls as [|l ls IH]; intros arrivals; simpl.
  - intros _. now rewrite app_nil_r.
  - unfold tick, returned, Lift.is_available.
    change (Lift.available (Lift.update l)) with (Lift.available l).
    destruct (Lift.available l).
    + destruct (Lift.check_departure (Lift.update l) clock) as [l1 [[]|e]];
        [|simpl; discriminate].
      specialize (IH arrivals).
      destruct (Simulation.update_lifts clock ls arrivals)
        as [[ls' arr'] r]. simpl in *.
      intros Hok. destruct (IH Hok) as [-> ->]. auto.
    + destruct (Lift.check_arrival (Lift.update l) clock) as [l1 completed].
      specialize (IH (arrivals ++ completed)).
      destruct (Simulation.update_lifts clock ls (arrivals ++ completed))
        as [[ls' arr'] r]. simpl in *.
      intros Hok. destruct (IH Hok) as [-> ->].
      now rewrite app_assoc.
Qed.

Lemma related_nth {R : Lift.t -> Lift.t -> Prop} (xs ys : list Lift.t) :
  Forall2 R xs ys ->
  forall i x,
    nth_error xs i = Some x ->
    exists y, nth_error ys i = Some y /\ R x y.
Proof.
  induction 1 as [|x0 y0 xs ys Hxy _ IH]; intros [|i] x; simpl;
    try discriminate.
  - intros [= <-]. eauto.
  - apply IH.
Qed.

(** X15: in a [step] that completes, a lift that is away comes back
    exactly when the clock equals its [arrival_time]: it is then available
    and empty, and each of its boarded passengers is in the arrivals list
    stamped with that tick as arrival time.  At any other clock value it
    stays away with the same passengers and schedule. *)
Theorem step_returns_lift_on_schedule (s : Simulation.t)
        (d : Simulation.draws) (i : nat) (l : Lift.t) :
  nth_error (Simulation.lifts s) i = Some l ->
  Lift.available l = false ->
  snd (Simulation.step s d) = Ok tt ->
  exists l',
    nth_error (Simulation.lifts (fst (Simulation.step s d))) i = Some l'
    /\ (Simulation.clock s = Lift.arrival_time l ->
        Lift.available l' = true
        /\ Lift.passengers l' = []
        /\ forall p,
            In p (Lift.passengers l) ->
            In (Passenger.set_time_arrival (Simulation.clock s) p)
               (Simulation.arrivals (fst (Simulation.step s d))))
    /\ (Simulation.clock s <> Lift.arrival_time l ->
        Lift.available l' = false
        /\ Lift.passengers l' = Lift.passengers l
        /\ Lift.arrival_time l' = Lift.arrival_time l).
Proof.
  intros Hnth Hav. unfold Simulation.step.
  destruct (Simulation.traffic s) as [tr|]; [|discriminate].
  destruct (Simulation.new_arrivals (Simulation.clock s) tr
                                    (Simulation.q s)) as [tr' waiting].
  set (s0 := Simulation.set_q waiting
               (Simulation.set_traffic_field (Some tr') s)).
  assert (Hrel : Forall2 same_trip (Simulation.lifts s0)
                         (Simulation.lifts
                            (fst (Simulation.assign_loop
                                    s0 d 0 (Simulation.batch d))))).
  { apply assign_loop_related.
    - intros x. unfold same_trip. auto.
    - unfold same_trip. intros a b c (H1 & H2 & H3) (K1 & K2 & K3).
      repeat split; congruence.
    - intros x p clock. unfold same_trip. simpl. auto. }
  destruct (assign_loop_load d (Simulation.batch d) s0 0)
    as (_ & _ & _ & _ & Hclock).
  destruct (Simulation.assign_loop s0 d 0 (Simulation.batch d))
    as [s1 [[]|e]]; [|discriminate].
  cbn [fst] in Hrel, Hclock.
  change (Simulation.clock s0) with (Simulation.clock s) in Hclock.
  change (Simulation.lifts s0) with (Simulation.lifts s) in Hrel.
  destruct (related_nth _ _ Hrel i l Hnth) as (l1 & Hnth1 & Hav1 & Harr1 & Hps1).
  pose proof (update_lifts_completes (Simulation.clock s1)
                (Simulation.lifts s1) (Simulation.arrivals s1)) as Hdone.
  destruct (Simulation.update_lifts (Simulation.clock s1)
              (Simulation.lifts s1) (Simulation.arrivals s1))
    as [[ls arr] r]. simpl in Hdone.
  destruct r as [[]|e]; [|discriminate].
  destruct (Hdone eq_refl) as [-> ->]. intros _. simpl.
  exists (tick (Simulation.clock s1) l1).
  split; [now apply map_nth_error|].
  unfold tick, Lift.is_available, Lift.check_arrival.
  change (Lift.available (Lift.update l1)) with (Lift.available l1).
  change (Lift.arrival_time (Lift.update l1)) with (Lift.arrival_time l1).
  rewrite Hav1, Hav, Harr1, Hclock. split.
  - intros Heq. rewrite Heq, Z.eqb_refl. simpl.
    split; [reflexivity|]. split; [reflexivity|].
    intros p Hp. apply in_or_app. right.
    apply in_flat_map. exists l1. split; [eapply nth_error_In; eassumption|].
    unfold returned, Lift.is_available, Lift.check_arrival.
    change (Lift.available (Lift.update l1)) with (Lift.available l1).
    change (Lift.arrival_time (Lift.update l1)) with (Lift.arrival_time l1).
    rewrite Hav1, Hav, Harr1, Z.eqb_refl. simpl.
    rewrite Hps1. now apply in_map.
  - intros Hne. apply Z.eqb_neq in Hne. rewrite Hne. simpl.
    rewrite Hav1, Harr1, Hps1. auto.
Qed.

Lemma step_returns_lift_on_schedule_witness :
  exists l',
    nth_error
      (Simulation.lifts
         (fst (Simulation.step returning_sim
                               (Simulation.mk_draws 3 (fun _ => 0%nat)))))
      0
    = Some l'
    /\ Lift.available l' = true
    /\ Lift.passengers l' = []
    /\ length
         (Simulation.arrivals
            (fst (Simulation.step returning_sim
                                  (Simulation.mk_draws 3 (fun _ => 0%nat)))))
       = 2%nat.
Proof.
  destruct (step_returns_lift_on_schedule
              returning_sim (Simulation.mk_draws 3 (fun _ => 0%nat)) 0
              (Lift.mk 0 8 5 1 0 4 (25 / 2) 5 false 9
                 [Passenger.mk 1 0 (Some 0) (Some 0) (Some 1) (Some 3)
                               (Some 2%R) None;
                  Passenger.mk 2 0 (Some 0) (Some 0) (Some 2) (Some 3)
                               (Some 4%R) None]
                 [2%R; 4%R] (Some 6%R) [] [(0%R, 0)] [] false 1))
    as (l' & Hnth & Hdue & _); try reflexivity.
  destruct (Hdue eq_refl) as (Hav & Hps & _).
  exists l'. split; [exact Hnth|]. split; [exact Hav|].
  split; [exact Hps|reflexivity].
Defined.

(** ** The run loop *)

Lemma init_default_lift (i : Z) :
  Lift.init i 10 5 1 0 4 (8 / 10) = Ok (default_lift i).
Proof.
  unfold Lift.init.
  destruct (Req_dec_T (2 * 1) 0); [lra|].
  destruct (Req_dec_T 1 0); [lra|]. reflexivity.
Qed.

Lemma init_default_sim (id_n iterations : Z) :
  Simulation.init id_n iterations = Ok (default_sim id_n iterations).
Proof.
  unfold Simulation.init. simpl.
  rewrite !init_default_lift. reflexivity.
Qed.

Lemma default_lift_idle (i : Z) : idle (default_lift i).
Proof. unfold idle. simpl. repeat split. lra. Qed.

Lemma idle_update (l : Lift.t) : idle l -> idle (Lift.update l).
Proof. unfold idle. simpl. auto. Qed.

Lemma idle_check_departure (l : Lift.t) (clock : Z) :
  idle l -> Lift.check_departure l clock = (l, Ok tt).
Proof.
  intros (_ & Hq & Hps & Hth). unfold Lift.check_departure.
  rewrite Hq. unfold Lift.check_departure_triggers. rewrite Hps.
  change (len (@nil Passenger.t)) with 0.
  destruct (Rge_dec _ _); [lra|]. reflexivity.
Qed.

Lemma idle_update_lifts (clock : Z) (ls : list Lift.t) :
  Forall idle ls ->
  forall arrivals,
    Simulation.update_lifts clock ls arrivals
    = (map Lift.update ls, arrivals, Ok tt).
Proof.
  induction 1 as [|l ls Hl _ IH]; intros arrivals; simpl; [reflexivity|].
  unfold Lift.is_available.
  change (Lift.available (Lift.update l)) with (Lift.available l).
  destruct Hl as (Hav & Hrest) eqn:Hl'. clear Hl'.
  rewrite Hav,
    (idle_check_departure _ clock (idle_update l (conj Hav Hrest))), IH.
  reflexivity.
Qed.

Lemma new_arrivals_none_due (clock : Z) (traffic q : list Passenger.t) :
  Forall (fun p => clock < Passenger.time_start p) traffic ->
  Simulation.new_arrivals clock traffic q = (traffic, q).
Proof.
  intros H. destruct H as [|user rest Hu _]; simpl; [reflexivity|].
  apply Z.ltb_lt in Hu. now rewrite Hu.
Qed.

(** A tick in which nothing happens: nobody is due, nobody waits in the
    lobby and every lift is idle. *)
Lemma quiet_step (s : Simulation.t) (d : Simulation.draws)
      (tr : list Passenger.t) :
  Simulation.traffic s = Some tr ->
  Forall (fun p => Simulation.clock s < Passenger.time_start p) tr ->
  Simulation.q s = [] ->
  Forall idle (Simulation.lifts s) ->
  Simulation.step s d
  = (Simulation.set_clock
       (Simulation.clock s + 1)
       (Simulation.set_arrivals
          (Simulation.arrivals s)
          (Simulation.set_lifts
             (map Lift.update (Simulation.lifts s))
             (Simulation.set_q [] (Simulation.set_traffic_field (Some tr) s)))),
     Ok tt).
Proof.
  intros Htr Hdue Hq Hidle. unfold Simulation.step.
  rewrite Htr, Hq, (new_arrivals_none_due _ _ _ Hdue).
  set (s0 := Simulation.set_q [] (Simulation.set_traffic_field (Some tr) s)).
  assert (Hloop : Simulation.assign_loop s0 d 0 (Simulation.batch d)
                  = (s0, Ok tt))
    by (destruct (Simulation.batch d); reflexivity).
  rewrite Hloop.
  change (Simulation.lifts s0) with (Simulation.lifts s).
  rewrite (idle_update_lifts _ _ Hidle). reflexivity.
Qed.

Lemma run_loop_exit (rnd : Z -> Simulation.draws) (fuel : nat) :
  forall s,
    (Z.to_nat (Simulation.iterations s - Simulation.clock s) <= fuel)%nat ->
    let out := Simulation.run_loop fuel s rnd in
    Simulation.iterations (fst out) = Simulation.iterations s
    /\ Simulation.total_traffic (fst out) = Simulation.total_traffic s
    /\ Simulation.clock s <= Simulation.clock (fst out)
    /\ Simulation.clock (fst out)
       <= Z.max (Simulation.clock s) (Simulation.iterations s)
    /\ (snd out = Ok tt ->
        Simulation.iterations s <= Simulation.clock (fst out)
        \/ len (Simulation.arrivals (fst out)) = Simulation.total_traffic s).
Proof.
  induction fuel as [|fuel IH]; intros s Hfuel; simpl.
  - repeat split; lia.
  - destruct (Simulation.clock s <? Simulation.iterations s) eqn:E.
    2:{ apply Z.ltb_ge in E. simpl. repeat split; lia. }
    apply Z.ltb_lt in E.
    destruct (step_config s (rnd (Simulation.clock s)))
      as (_ & Hit & _ & _ & Htt & Hok & Hraise & _).
    destruct (Simulation.step s (rnd (Simulation.clock s)))
      as [s1 [[]|e]]; simpl in *.
    + specialize (Hok eq_refl).
      destruct (len (Simulation.arrivals s1) =? Simulation.total_traffic s1)
               eqn:Ea; simpl.
      * apply Z.eqb_eq in Ea. repeat split; lia.
      * destruct (IH s1) as (H1 & H2 & H3 & H4 & H5); [lia|].
        cbv zeta in *. rewrite H1, H2, Hit, Htt.
        repeat split; try lia.
        intros Hdone. destruct (H5 Hdone) as [H|H]; [left|right]; lia.
    + specialize (Hraise e eq_refl). repeat split; try lia. discriminate.
Qed.

(** X16: [run()] raises [TypeError] without making a step when the
    traffic or the assignment function was not set.  It never moves the
    clock back nor past the iteration cap (beyond where it started).  When
    it returns normally, the clock has reached the cap or every passenger of
    the traffic has arrived, and the traffic was not empty. *)
Theorem run_stops (s : Simulation.t) (rnd : Z -> Simulation.draws) :
  (Simulation.traffic s = None \/ Simulation.assignment_func s = None ->
   exists msg, Simulation.run s rnd = (s, Raise (TypeError msg)))
  /\ Simulation.clock s <= Simulation.clock (fst (Simulation.run s rnd))
  /\ Simulation.clock (fst (Simulation.run s rnd))
     <= Z.max (Simulation.clock s) (Simulation.iterations s)
  /\ (snd (Simulation.run s rnd) = Ok tt ->
      (Simulation.iterations s <= Simulation.clock (fst (Simulation.run s rnd))
       \/ len (Simulation.arrivals (fst (Simulation.run s rnd)))
          = Simulation.total_traffic s)
      /\ Simulation.total_traffic s <> 0).
Proof.
  unfold Simulation.run.
  destruct (Simulation.traffic s) as [tr|].
  2:{ simpl. split; [intros _; eexists; reflexivity|].
      repeat split; try lia; discriminate. }
  destruct (Simulation.assignment_func s) as [f|].
  2:{ simpl. split; [intros _; eexists; reflexivity|].
      repeat split; try lia; discriminate. }
  split; [intros [H|H]; discriminate|].
  destruct (run_loop_exit
              rnd (Z.to_nat (Simulation.iterations s - Simulation.clock s))
              s (Nat.le_refl _)) as (_ & Htt & Hlo & Hhi & Hexit).
  destruct (Simulation.run_loop _ s rnd) as [s1 [[]|e]]; simpl in *.
  - destruct (Simulation.total_traffic s1 =? 0) eqn:E0; simpl.
    + repeat split; try lia; discriminate.
    + apply Z.eqb_neq in E0. split; [lia|]. split; [lia|].
      intros _. split; [now apply Hexit|]. now rewrite <- Htt.
  - repeat split; try lia; discriminate.
Qed.

(** X17: [run()] on a simulation with empty traffic never gets to return.
    With the strategy set, the lobby empty, the lifts idle and the clock
    below the cap it makes exactly one step, finds all of the (zero)
    traffic arrived, and then fails with [ZeroDivisionError] on the
    percentage of the summary. *)
Theorem run_empty_traffic_divides_by_zero (s : Simulation.t)
        (rnd : Z -> Simulation.draws) :
  Simulation.traffic s = Some [] ->
  Simulation.total_traffic s = 0 ->
  Simulation.assignment_func s <> None ->
  Simulation.q s = [] ->
  Simulation.arrivals s = [] ->
  Forall idle (Simulation.lifts s) ->
  Simulation.clock s < Simulation.iterations s ->
  snd (Simulation.run s rnd) = Raise (ZeroDivisionError "division by zero")
  /\ Simulation.clock (fst (Simulation.run s rnd)) = Simulation.clock s + 1
  /\ Simulation.arrivals (fst (Simulation.run s rnd)) = [].
Proof.
  intros Htr Htt Haf Hq Harr Hidle Hclock. unfold Simulation.run.
  rewrite Htr.
  destruct (Simulation.assignment_func s) as [f|]; [|congruence].
  destruct (Z.to_nat (Simulation.iterations s - Simulation.clock s))
    as [|fuel] eqn:Ef; [lia|].
  simpl Simulation.run_loop.
  apply Z.ltb_lt in Hclock. rewrite Hclock.
  rewrite (quiet_step s (rnd (Simulation.clock s)) [] Htr
                      (Forall_nil _) Hq Hidle).
  cbn [Simulation.arrivals Simulation.total_traffic Simulation.set_clock
       Simulation.set_arrivals Simulation.set_lifts Simulation.set_q
       Simulation.set_traffic_field].
  rewrite Harr. simpl. rewrite Htt. simpl. rewrite Htt. simpl. auto.
Qed.

Lemma run_empty_traffic_divides_by_zero_witness :
  let s := fst (Simulation.set_assignment_func
                  (Simulation.set_traffic (default_sim 1 3600) []) "greedy") in
  snd (Simulation.run s (fun _ => Simulation.mk_draws 3 (fun _ => 0%nat)))
  = Raise (ZeroDivisionError "division by zero")
  /\ Simulation.clock
       (fst (Simulation.run s (fun _ => Simulation.mk_draws 3 (fun _ => 0%nat))))
     = Simulation.clock s + 1
  /\ Simulation.arrivals
       (fst (Simulation.run s (fun _ => Simulation.mk_draws 3 (fun _ => 0%nat))))
     = [].
Proof.
  apply (run_empty_traffic_divides_by_zero
           (fst (Simulation.set_assignment_func
                   (Simulation.set_traffic (default_sim 1 3600) []) "greedy"))).
  - reflexivity.
  - reflexivity.
  - discriminate.
  - reflexivity.
  - reflexivity.
  - simpl. repeat constructor; apply default_lift_idle.
  - reflexivity.
Defined.

Lemma run_loop_quiet (rnd : Z -> Simulation.draws) (fuel : nat)
      (s : Simulation.t) (tr : list Passenger.t) :
  (Simulation.clock s <? Simulation.iterations s) = true ->
  Simulation.traffic s = Some tr ->
  Forall (fun p => Simulation.clock s < Passenger.time_start p) tr ->
  Simulation.q s = [] ->
  Forall idle (Simulation.lifts s) ->
  (len (Simulation.arrivals s) =? Simulation.total_traffic s) = false ->
  Simulation.run_loop (S fuel) s rnd
  = Simulation.run_loop
      fuel
      (Simulation.set_clock
         (Simulation.clock s + 1)
         (Simulation.set_arrivals
            (Simulation.arrivals s)
            (Simulation.set_lifts
               (map Lift.update (Simulation.lifts s))
               (Simulation.set_q []
                  (Simulation.set_traffic_field (Some tr) s)))))
      rnd.
Proof.
  intros Hc Htr Hdue Hq Hidle Harr. simpl.
  rewrite Hc, (quiet_step s _ tr Htr Hdue Hq Hidle). simpl.
  now rewrite Harr.
Qed.

Lemma early_sim_runs (rnd : Z -> Simulation.draws) :
  snd (Simulation.run early_sim rnd) = Ok tt.
Proof.
  assert (Hidle : Forall idle (Simulation.lifts early_sim))
    by (simpl; repeat constructor; apply default_lift_idle).
  unfold Simulation.run.
  change (Simulation.traffic early_sim) with (Some [Passenger.new 3 5]).
  change (Simulation.assignment_func early_sim)
    with (Some Simulation.Greedy).
  change (Z.to_nat (Simulation.iterations early_sim
                    - Simulation.clock early_sim)) with 2%nat.
  cbv iota beta.
  rewrite (run_loop_quiet rnd 1 early_sim [Passenger.new 3 5]);
    [|reflexivity|reflexivity|repeat constructor|reflexivity|exact Hidle
     |reflexivity].
  rewrite (run_loop_quiet rnd 0 _ [Passenger.new 3 5]);
    [|reflexivity|reflexivity|repeat constructor|reflexivity|
     |reflexivity].
  - reflexivity.
  - apply Forall_map. eapply Forall_impl; [|exact Hidle].
    apply idle_update.
Qed.

Lemma run_stops_witness :
  snd (Simulation.run early_sim (fun _ => Simulation.mk_draws 2 (fun _ => 0%nat)))
  = Ok tt
  /\ (Simulation.iterations early_sim
      <= Simulation.clock
           (fst (Simulation.run early_sim
                                (fun _ => Simulation.mk_draws 2 (fun _ => 0%nat))))
      \/ len (Simulation.arrivals
                (fst (Simulation.run
                        early_sim
                        (fun _ => Simulation.mk_draws 2 (fun _ => 0%nat)))))
         = Simulation.total_traffic early_sim).
Proof.
  split; [apply early_sim_runs|].
  destruct (run_stops early_sim
                      (fun _ => Simulation.mk_draws 2 (fun _ => 0%nat)))
    as (_ & _ & _ & H).
  apply H, early_sim_runs.
Defined.

(** ** A sound simulation never raises *)

Lemma same_unit_sound (l l' : Lift.t) :
  same_unit l l' ->
  lift_sound l ->
  Forall stamped (Lift.passengers l') ->
  Forall (fun p => 0 <= Passenger.destination p) (Lift.passengers l') ->
  Forall (fun p => 0 <= Passenger.destination p) (Lift.queue l') ->
  lift_sound l'.
Proof.
  intros (_ & Hc & Hv & Ha & _ & Hd & _) (Kv & Ka & Kd & Kc & _) H1 H2 H3.
  unfold lift_sound. rewrite Hc, Hv, Ha, Hd. auto 10.
Qed.

Lemma depart_sound (l : Lift.t) (clock : Z) :
  lift_sound l ->
  snd (Lift.depart l clock) = Ok tt /\ lift_sound (fst (Lift.depart l clock)).
Proof.
  intros Hs. pose proof Hs as (Hv & Ha & Hdf & _ & Hst & Hdest & Hqd).
  destruct (depart_run l clock Hv Ha Hdf Hdest)
    as (legs & back & _ & _ & _ & Hok & Hps & _ & _ & Hq & _).
  split; [exact Hok|].
  assert (Hin : forall x,
             In x (Lift.passengers (fst (Lift.depart l clock))) ->
             exists p0 t,
               In p0 (Lift.passengers l)
               /\ x = Passenger.set_time_travelling
                        t (Passenger.set_time_departure clock p0)).
  { intros x Hx. rewrite Hps in Hx. apply stamp_all_in in Hx.
    destruct Hx as (p & t & Hp & _ & ->).
    eapply Permutation_in in Hp; [|apply Permutation_sym, sorted_perm].
    apply in_map_iff in Hp. destruct Hp as [p0 [<- Hp0]]. eauto. }
  apply (same_unit_sound l); [apply depart_same_unit|exact Hs| | |].
  - apply Forall_forall. intros x Hx.
    destruct (Hin x Hx) as (p0 & t & Hp0 & ->).
    rewrite Forall_forall in Hst. exact (Hst p0 Hp0).
  - apply Forall_forall. intros x Hx.
    destruct (Hin x Hx) as (p0 & t & Hp0 & ->).
    rewrite Forall_forall in Hdest. exact (Hdest p0 Hp0).
  - now rewrite Hq.
Qed.

Lemma check_departure_triggers_sound (l : Lift.t) (clock : Z) :
  lift_sound l ->
  snd (Lift.check_departure_triggers l clock) = Ok tt
  /\ lift_sound (fst (Lift.check_departure_triggers l clock)).
Proof.
  intros Hs. unfold Lift.check_departure_triggers.
  destruct (Rge_dec _ _); [now apply depart_sound|].
  destruct (0 <? len (Lift.passengers l)) eqn:Epos; [|auto].
  apply Z.ltb_lt in Epos.
  assert (Hne : Lift.passengers l <> [])
    by (intros E; rewrite E in Epos; cbv in Epos; discriminate).
  destruct Hs as (Hv & Ha & Hdf & Hc & Hst & Hrest) eqn:Hs'. clear Hs'.
  destruct (max_enter_lift_shortest clock _ Hst Hne)
    as (p & t & w & -> & -> & _).
  destruct (10 <? clock - t); [apply depart_sound|]; unfold lift_sound; auto.
Qed.

Lemma check_departure_sound (l : Lift.t) (clock : Z) :
  lift_sound l ->
  snd (Lift.check_departure l clock) = Ok tt
  /\ lift_sound (fst (Lift.check_departure l clock)).
Proof.
  intros Hs. unfold Lift.check_departure.
  destruct (Lift.queue l) as [|p rest] eqn:Hq;
    [now apply check_departure_triggers_sound|].
  destruct (len (Lift.passengers l) <? Lift.capacity l);
    [|now apply depart_sound].
  apply check_departure_triggers_sound.
  destruct Hs as (Hv & Ha & Hdf & Hc & Hst & Hdest & Hqd).
  rewrite Hq in Hqd. inversion Hqd as [|? ? Hp Hrest]; subst.
  unfold Lift.add_passenger. simpl.
  destruct (_ && _); unfold lift_sound; simpl.
  - repeat split; try assumption.
    + apply Forall_app. split; [exact Hst|].
      repeat constructor. discriminate.
    + apply Forall_app. split; [exact Hdest|]. repeat constructor. exact Hp.
  - repeat split; assumption.
Qed.

Lemma check_arrival_sound (l : Lift.t) (clock : Z) :
  lift_sound l -> lift_sound (fst (Lift.check_arrival l clock)).
Proof.
  intros Hs. unfold Lift.check_arrival.
  destruct (clock =? Lift.arrival_time l); [|exact Hs].
  destruct Hs as (Hv & Ha & Hdf & Hc & _ & _ & Hqd).
  unfold lift_sound. simpl. repeat split; auto.
Qed.

Lemma update_lifts_sound (clock : Z) (ls : list Lift.t) :
  Forall lift_sound ls ->
  forall arrivals,
    snd (Simulation.update_lifts clock ls arrivals) = Ok tt
    /\ Forall lift_sound
              (fst (fst (Simulation.update_lifts clock ls arrivals)))
    /\ length (fst (fst (Simulation.update_lifts clock ls arrivals)))
       = length ls.
Proof.
  induction 1 as [|l ls Hl _ IH]; intros arrivals; simpl; [auto|].
  assert (Hu : lift_sound (Lift.update l)) by exact Hl.
  unfold Lift.is_available.
  change (Lift.available (Lift.update l)) with (Lift.available l).
  destruct (Lift.available l).
  - destruct (check_departure_sound (Lift.update l) clock Hu) as [Hok Hs].
    destruct (Lift.check_departure (Lift.update l) clock) as [l1 r].
    simpl in Hok, Hs. subst r.
    specialize (IH arrivals).
    destruct (Simulation.update_lifts clock ls arrivals) as [[ls' arr'] r].
    simpl in *. destruct IH as (-> & Hall & Hlen). auto.
  - pose proof (check_arrival_sound (Lift.update l) clock Hu) as Hs.
    destruct (Lift.check_arrival (Lift.update l) clock) as [l1 completed].
    specialize (IH (arrivals ++ completed)).
    destruct (Simulation.update_lifts clock ls (arrivals ++ completed))
      as [[ls' arr'] r].
    simpl in *. destruct IH as (-> & Hall & Hlen). auto.
Qed.

Lemma queue_on_sound (s : Simulation.t) (i : nat) (p : Passenger.t) :
  0 <= Passenger.destination p ->
  Forall lift_sound (Simulation.lifts s) ->
  Forall lift_sound (Simulation.lifts (Simulation.queue_on s i p)).
Proof.
  intros Hp.
  change (Simulation.lifts (Simulation.queue_on s i p))
    with (Simulation.update_nth
            i (fun l => Lift.queue_passenger l p (Simulation.clock s))
            (Simulation.lifts s)).
  generalize (Simulation.lifts s) as ls. intros ls H. revert i.
  induction H as [|l ls Hl Hls IH]; intros [|i]; simpl;
    try constructor; auto.
  destruct Hl as (Hv & Ha & Hdf & Hc & Hst & Hdest & Hqd).
  unfold lift_sound. simpl. repeat split; try assumption.
  apply Forall_app. split; [exact Hqd|]. repeat constructor. exact Hp.
Qed.

Lemma assign_loop_sound (d : Simulation.draws) (n : nat) :
  forall s j,
    Simulation.assignment_func s <> None ->
    Simulation.lifts s <> [] ->
    Forall lift_sound (Simulation.lifts s) ->
    Forall (fun p => 0 <= Passenger.destination p) (Simulation.q s) ->
    (Simulation.assignment_func s = Some Simulation.Random ->
     draws_in_range s d) ->
    let out := Simulation.assign_loop s d j n in
    snd out = Ok tt
    /\ Forall lift_sound (Simulation.lifts (fst out))
    /\ Forall (fun p => 0 <= Passenger.destination p)
              (Simulation.q (fst out))
    /\ length (Simulation.lifts (fst out)) = length (Simulation.lifts s).
Proof.
  induction n as [|n IH]; intros s j Haf Hne Hls Hq Hrange; simpl; [auto|].
  destruct (Simulation.q s) as [|p rest] eqn:Eq; simpl; [rewrite Eq; auto|].
  inversion Hq as [|? ? Hp Hrest]; subst.
  destruct (Simulation.assignment_func s) as [strat|] eqn:Es; [|congruence].
  assert (Hok : snd (Simulation.call_assignment_func
                       (Simulation.set_q rest s) p (Simulation.pick d j))
                = Ok tt).
  { apply (call_assignment_func_returns _ p _ strat); simpl; auto.
    - intros ->. apply (Hrange eq_refl).
    - intros _. eapply Forall_impl; [|exact Hls].
      intros l Hl. apply Hl. }
  destruct (call_assignment_func_outcome
              (Simulation.set_q rest s) p (Simulation.pick d j))
    as [[e He]|[i [Hi He]]]; rewrite He in Hok |- *; [discriminate|].
  simpl.
  destruct (IH (Simulation.queue_on (Simulation.set_q rest s) i p) (S j))
    as (H1 & H2 & H3 & H4).
  - simpl. rewrite Es. discriminate.
  - intros E. apply (f_equal (@length Lift.t)) in E.
    change (Simulation.lifts
              (Simulation.queue_on (Simulation.set_q rest s) i p))
      with (Simulation.update_nth
              i (fun l => Lift.queue_passenger l p (Simulation.clock s))
              (Simulation.lifts s)) in E.
    rewrite update_nth_length in E. simpl in E.
    apply Hne. now apply length_zero_iff_nil.
  - now apply queue_on_sound.
  - exact Hrest.
  - simpl. intros Hr jj. unfold draws_in_range in *.
    change (Simulation.lifts
              (Simulation.queue_on (Simulation.set_q rest s) i p))
      with (Simulation.update_nth
              i (fun l => Lift.queue_passenger l p (Simulation.clock s))
              (Simulation.lifts s)).
    rewrite update_nth_length. rewrite Es in Hr. now apply Hrange.
  - cbv zeta in *. repeat split; try assumption.
    rewrite H4.
    change (Simulation.lifts
              (Simulation.queue_on (Simulation.set_q rest s) i p))
      with (Simulation.update_nth
              i (fun l => Lift.queue_passenger l p (Simulation.clock s))
              (Simulation.lifts s)).
    apply update_nth_length.
Qed.

Lemma new_arrivals_keeps (P : Passenger.t -> Prop) (clock : Z)
      (traffic : list Passenger.t) :
  Forall P traffic ->
  forall q,
    Forall P q ->
    Forall P (fst (Simulation.new_arrivals clock traffic q))
    /\ Forall P (snd (Simulation.new_arrivals clock traffic q)).
Proof.
  induction 1 as [|user rest Hu Hrest IH]; intros q Hq; simpl; [auto|].
  destruct (clock <? Passenger.time_start user); simpl; [auto|].
  apply IH. apply Forall_app. auto.
Qed.

Lemma step_sound (s : Simulation.t) (d : Simulation.draws) :
  sim_sound s ->
  (Simulation.assignment_func s = Some Simulation.Random ->
   draws_in_range s d) ->
  snd (Simulation.step s d) = Ok tt
  /\ sim_sound (fst (Simulation.step s d))
  /\ length (Simulation.lifts (fst (Simulation.step s d)))
     = length (Simulation.lifts s)
  /\ Simulation.assignment_func (fst (Simulation.step s d))
     = Simulation.assignment_func s
  /\ Simulation.clock (fst (Simulation.step s d)) = Simulation.clock s + 1.
Proof.
  intros ((tr & Htr & Htrd) & Hq & Haf & Hne & Hls) Hrange.
  unfold Simulation.step. rewrite Htr.
  destruct (new_arrivals_keeps _ (Simulation.clock s) tr Htrd
                               (Simulation.q s) Hq) as [Htr' Hq'].
  destruct (Simulation.new_arrivals (Simulation.clock s) tr
                                    (Simulation.q s)) as [tr' waiting].
  simpl in Htr', Hq'.
  set (s0 := Simulation.set_q waiting
               (Simulation.set_traffic_field (Some tr') s)).
  destruct (assign_loop_sound d (Simulation.batch d) s0 0 Haf Hne Hls Hq'
                              Hrange) as (Hok & Hls1 & Hq1 & Hlen1).
  destruct (assign_loop_config d (Simulation.batch d) s0 0)
    as (_ & _ & _ & Haf1 & _).
  destruct (assign_loop_load d (Simulation.batch d) s0 0)
    as (_ & _ & Ht1 & _ & Hc1).
  destruct (Simulation.assign_loop s0 d 0 (Simulation.batch d)) as [s1 r1].
  simpl in Hok, Hls1, Hq1, Hlen1, Haf1, Ht1, Hc1. subst r1.
  destruct (update_lifts_sound (Simulation.clock s1) (Simulation.lifts s1)
                               Hls1 (Simulation.arrivals s1))
    as (Hok2 & Hls2 & Hlen2).
  destruct (Simulation.update_lifts (Simulation.clock s1)
              (Simulation.lifts s1) (Simulation.arrivals s1))
    as [[ls arr] r2].
  simpl in Hok2, Hls2, Hlen2. subst r2. simpl.
  split; [reflexivity|]. split.
  - unfold sim_sound. simpl. split; [exists tr'; split; assumption|].
    split; [exact Hq1|]. split; [congruence|]. split; [|exact Hls2].
    intros E. rewrite E in Hlen2. simpl in Hlen2.
    apply Hne. apply length_zero_iff_nil. lia.
  - split; [lia|]. split; [exact Haf1|lia].
Qed.

(** X18: a sound simulation never raises.  If the traffic and the
    strategy are set, there is at least one lift, every lift has positive
    [vmax], [acc] and capacity and a non-negative floor height, every
    boarded passenger carries an enter-lift time and nobody anywhere goes
    below floor 0, then [step] completes (for the random strategy: when the
    drawn indices are positions of [self.lifts]), moves the clock on by one,
    and leaves the simulation sound again; so any number of steps
    complete. *)
Theorem sound_simulation_never_raises :
  (forall s d,
      sim_sound s ->
      (Simulation.assignment_func s = Some Simulation.Random ->
       draws_in_range s d) ->
      snd (Simulation.step s d) = Ok tt
      /\ sim_sound (fst (Simulation.step s d))
      /\ Simulation.clock (fst (Simulation.step s d))
         = Simulation.clock s + 1)
  /\ (forall ds s,
         sim_sound s ->
         (Simulation.assignment_func s = Some Simulation.Random ->
          Forall (draws_in_range s) ds) ->
         snd (Simulation.steps s ds) = Ok tt
         /\ sim_sound (fst (Simulation.steps s ds))
         /\ Simulation.clock (fst (Simulation.steps s ds))
            = Simulation.clock s + Z.of_nat (length ds)).
Proof.
  split.
  - intros s d Hs Hr.
    destruct (step_sound s d Hs Hr) as (H1 & H2 & _ & _ & H3). auto.
  - induction ds as [|d ds IH]; intros s Hs Hr; simpl.
    + split; [reflexivity|]. split; [exact Hs|lia].
    + assert (Hd : Simulation.assignment_func s = Some Simulation.Random ->
                   draws_in_range s d).
      { intros E. specialize (Hr E). now inversion Hr. }
      destruct (step_sound s d Hs Hd) as (Hok & Hs1 & Hlen & Haf & Hc).
      destruct (Simulation.step s d) as [s1 r]. simpl in *. subst r.
      destruct (IH s1 Hs1) as (Hok' & Hs' & Hc').
      * intros E. rewrite Haf in E. specialize (Hr E).
        inversion Hr as [|? ? _ Hrest]; subst.
        eapply Forall_impl; [|exact Hrest].
        intros d' Hd' j. unfold draws_in_range in *. rewrite Hlen.
        apply Hd'.
      * split; [exact Hok'|]. split; [exact Hs'|lia].
Qed.

Lemma default_lift_sound (i : Z) : lift_sound (default_lift i).
Proof.
  unfold lift_sound. simpl.
  repeat split; try lra; try lia; constructor.
Qed.

Lemma busy_sim_sound : sim_sound busy_sim.
Proof.
  unfold sim_sound. simpl. split.
  - eexists. split; [reflexivity|]. repeat constructor; simpl; lia.
  - split; [constructor|]. split; [discriminate|]. split; [discriminate|].
    repeat (apply Forall_cons; [apply default_lift_sound|]).
    apply Forall_nil.
Qed.

Lemma sound_simulation_never_raises_witness :
  snd (Simulation.steps busy_sim
         [Simulation.mk_draws 2 (fun _ => 0%nat);
          Simulation.mk_draws 4 (fun _ => 0%nat);
          Simulation.mk_draws 3 (fun _ => 0%nat)])
  = Ok tt
  /\ Simulation.clock
       (fst (Simulation.steps busy_sim
               [Simulation.mk_draws 2 (fun _ => 0%nat);
                Simulation.mk_draws 4 (fun _ => 0%nat);
                Simulation.mk_draws 3 (fun _ => 0%nat)]))
     = 3.
Proof.
  destruct sound_simulation_never_raises as [_ H].
  destruct (H [Simulation.mk_draws 2 (fun _ => 0%nat);
               Simulation.mk_draws 4 (fun _ => 0%nat);
               Simulation.mk_draws 3 (fun _ => 0%nat)]
              busy_sim busy_sim_sound) as (Hok & _ & Hc).
  - discriminate.
  - split; [exact Hok|exact Hc].
Defined.

(** ** First come, first boarded *)

Lemma check_departure_triggers_cases (l : Lift.t) (clock : Z) :
  Lift.check_departure_triggers l clock = Lift.depart l clock
  \/ fst (Lift.check_departure_triggers l clock) = l.
Proof.
  unfold Lift.check_departure_triggers.
  destruct (Rge_dec _ _); [now left|].
  destruct (0 <? len (Lift.passengers l)); [|now right].
  destruct (Lift.max_enter_lift (Lift.passengers l)) as [p|e]; [|now right].
  destruct (Passenger.time_enter_lift p); [|now right].
  destruct (10 <? clock - _); [now left|now right].
Qed.

(** X19: a lift keeps its passengers in line.  [queue_passenger] puts the
    newcomer at the end of the line (boarded passengers, then queue);
    [check_departure] on an available lift that does not depart leaves the
    line as it is, so whoever boards is the one who queued first; and
    whatever [check_departure] does, it removes at most the head of the
    queue. *)
Theorem boarding_follows_queue_order :
  (forall l p clock,
      line (Lift.queue_passenger l p clock) = line l ++ [origin p])
  /\ (forall l clock,
         Lift.available l = true ->
         Lift.available (fst (Lift.check_departure l clock)) = true ->
         line (fst (Lift.check_departure l clock)) = line l)
  /\ (forall l clock,
         Lift.queue (fst (Lift.check_departure l clock)) = Lift.queue l
         \/ exists p,
             Lift.queue l
             = p :: Lift.queue (fst (Lift.check_departure l clock))).
Proof.
  split; [|split].
  - intros l p clock. unfold line. simpl.
    rewrite app_assoc, map_app. reflexivity.
  - intros l clock Hav. unfold Lift.check_departure.
    destruct (Lift.queue l) as [|p rest] eqn:Hq.
    + destruct (check_departure_triggers_cases l clock) as [-> | ->].
      * destruct (LiftFacts.depart_frame l clock) as (_ & Hd & _).
        congruence.
      * reflexivity.
    + destruct (len (Lift.passengers l) <? Lift.capacity l) eqn:E.
      * unfold Lift.add_passenger. simpl. rewrite E, Hav. simpl.
        match goal with
        | |- context [Lift.check_departure_triggers ?x clock] =>
            destruct (check_departure_triggers_cases x clock) as [-> | ->];
              [destruct (LiftFacts.depart_frame x clock) as (_ & Hd & _);
               congruence|]
        end.
        intros _. unfold line. simpl. rewrite Hq, <- app_assoc.
        rewrite !map_app. reflexivity.
      * destruct (LiftFacts.depart_frame l clock) as (_ & Hd & _).
        congruence.
  - intros l clock. unfold Lift.check_departure.
    destruct (Lift.queue l) as [|p rest] eqn:Hq.
    + left.
      destruct (LiftFacts.check_departure_triggers_frame l clock)
        as (_ & H & _). now rewrite H.
    + destruct (len (Lift.passengers l) <? Lift.capacity l).
      * right. exists p.
        match goal with
        | |- context [Lift.check_departure_triggers ?x clock] =>
            destruct (LiftFacts.check_departure_triggers_frame x clock)
              as (_ & H & _)
        end.
        rewrite H. unfold Lift.add_passenger. simpl.
        destruct (_ && _); reflexivity.
      * left. destruct (LiftFacts.depart_frame l clock) as (_ & _ & H & _).
        now rewrite H.
Qed.

(** ** The grouping strategy *)

Section SortedTotal.
Context {A K : Type} (key : A -> K) (leb : K -> K -> bool).
Hypothesis leb_total : forall a b, leb a b = true \/ leb b a = true.
Hypothesis leb_trans :
  forall a b c, leb a b = true -> leb b c = true -> leb a c = true.

Lemma sorted_head_first_any (xs : list A) :
  forall h t,
    sorted key leb xs = h :: t ->
    exists pre post,
      xs = pre ++ h :: post
      /\ (forall x, In x pre -> leb (key x) (key h) = false)
      /\ (forall x, In x xs -> leb (key h) (key x) = true).
Proof.
  induction xs as [|x rest IH]; intros h t E; [discriminate|].
  simpl in E. destruct (sorted key leb rest) as [|h' t'] eqn:Er.
  - assert (rest = []).
    { apply Permutation_nil. rewrite <- Er.
      apply Permutation_sym, sorted_perm_any. }
    subst rest. simpl in E. injection E as <- <-.
    exists [], []. split; [reflexivity|]. split; [intros ? []|].
    intros y [<-|[]]. destruct (leb_total (key x) (key x)); assumption.
  - destruct (IH h' t' eq_refl) as (pre & post & Hrest & Hpre & Hall).
    simpl in E. destruct (leb (key x) (key h')) eqn:Ex.
    + injection E as <- <-.
      exists [], rest. split; [reflexivity|]. split; [intros ? []|].
      intros y [<-|Hy].
      * destruct (leb_total (key x) (key x)); assumption.
      * eapply leb_trans; [exact Ex|now apply Hall].
    + injection E as <- <-.
      exists (x :: pre), post. split; [rewrite Hrest; reflexivity|].
      split.
      * intros y [<-|Hy]; [exact Ex|now apply Hpre].
      * intros y [Hy|Hy]; [subst y|now apply Hall].
        destruct (leb_total (key x) (key h')); [congruence|assumption].
Qed.
End SortedTotal.

Lemma combine_seq_split_after {B : Type} (n : nat) (ys : list B)
      pre i y post :
  length ys = n ->
  combine (seq 0 n) ys = pre ++ (i, y) :: post ->
  forall j b, In (j, b) post -> (i < j)%nat.
Proof.
  intros Hn E j b Hin.
  assert (Hfst : seq 0 n = map fst pre ++ i :: map fst post).
  { transitivity (map fst (combine (seq 0 n) ys)).
    - rewrite map_fst_combine_eq; [reflexivity|].
      rewrite length_seq. now symmetry.
    - rewrite E, map_app. reflexivity. }
  eapply seq_split_after; [exact Hfst|].
  change j with (fst (j, b)). now apply in_map.
Qed.

Lemma filter_head_split {B : Type} (f : B -> bool) (xs : list B) :
  forall h t,
    filter f xs = h :: t ->
    exists pre post,
      xs = pre ++ h :: post
      /\ f h = true
      /\ forall x, In x pre -> f x = false.
Proof.
  induction xs as [|x rest IH]; intros h t E; [discriminate|].
  simpl in E. destruct (f x) eqn:Ex.
  - injection E as <- <-. exists [], rest.
    split; [reflexivity|]. split; [exact Ex|intros ? []].
  - destruct (IH h t E) as (pre & post & -> & Hh & Hpre).
    exists (x :: pre), post. split; [reflexivity|]. split; [exact Hh|].
    intros y [<-|Hy]; [exact Ex|now apply Hpre].
Qed.

Lemma avg_floors_nth (ls : list Lift.t) :
  forall avgs,
    Simulation.avg_floors ls = Ok avgs ->
    length avgs = length ls
    /\ forall j,
        (forall l, nth_error ls j = Some l ->
                   exists b, Lift.get_avg_floor l = Ok b
                             /\ nth_error avgs j = Some b)
        /\ (forall b, nth_error avgs j = Some b ->
                      exists l, nth_error ls j = Some l
                                /\ Lift.get_avg_floor l = Ok b).
Proof.
  induction ls as [|l0 rest IH]; intros avgs E; simpl in E.
  - injection E as <-. split; [reflexivity|].
    intros [|j]; split; intros ? H; discriminate H.
  - destruct (Lift.get_avg_floor l0) as [a|e] eqn:Ea; [|discriminate].
    destruct (Simulation.avg_floors rest) as [avgs'|e] eqn:Er;
      [|discriminate].
    simpl in E. injection E as <-.
    destruct (IH avgs' eq_refl) as [Hlen Hnth].
    split; [simpl; now rewrite Hlen|].
    intros [|j]; simpl.
    + split.
      * intros l [= <-]. exists a. auto.
      * intros b [= <-]. exists l0. auto.
    + apply Hnth.
Qed.

Lemma Qle_bool_total (a b : Q) : Qle_bool a b = true \/ Qle_bool b a = true.
Proof.
  rewrite !Qle_bool_iff. destruct (Qlt_le_dec a b) as [H|H].
  - left. now apply Qlt_le_weak.
  - now right.
Qed.

Lemma Qle_bool_trans (a b c : Q) :
  Qle_bool a b = true -> Qle_bool b c = true -> Qle_bool a c = true.
Proof. rewrite !Qle_bool_iff. apply Qle_trans. Qed.

(** X20: which lift [assign_grouping] picks.  With at least one lift and
    every capacity positive, the passenger is queued on one lift.  Either
    it is a lift whose average floor is nearest to the passenger's floor (no
    lift is nearer), and then no lift reports average floor 0 or the
    average floor of the chosen lift is below 5; or it is the first lift
    that reports average floor 0, and then some nearest lift has an average
    floor of 5 or more.  Which of several equally near lifts comes first is
    not stated: the source orders them by float keys. *)
Theorem assign_grouping_choice (s : Simulation.t) (p : Passenger.t) :
  Simulation.lifts s <> [] ->
  Forall (fun l => 0 < Lift.capacity l) (Simulation.lifts s) ->
  exists i l a,
    nth_error (Simulation.lifts s) i = Some l
    /\ Lift.get_avg_floor l = Ok a
    /\ Simulation.assign_grouping s p = (Simulation.queue_on s i p, Ok tt)
    /\ ((nearest s p a
         /\ ((forall j l' b,
                 nth_error (Simulation.lifts s) j = Some l' ->
                 Lift.get_avg_floor l' = Ok b -> ~ (b == 0)%Q)
             \/ (a < 5)%Q))
        \/ ((a == 0)%Q
            /\ (forall j l' b,
                   (j < i)%nat ->
                   nth_error (Simulation.lifts s) j = Some l' ->
                   Lift.get_avg_floor l' = Ok b -> ~ (b == 0)%Q)
            /\ exists k lk bk,
                nth_error (Simulation.lifts s) k = Some lk
                /\ Lift.get_avg_floor lk = Ok bk
                /\ nearest s p bk /\ (5 <= bk)%Q)).
Proof.
  intros Hne Hcap. unfold Simulation.assign_grouping.
  destruct (avg_floors_returns _ Hcap) as [avgs [Havg Hlen]].
  rewrite Havg.
  destruct (avg_floors_nth _ _ Havg) as [_ Hnth].
  set (key := fun ia : nat * Q =>
                Qabs (snd ia - inject_Z (Passenger.destination p))).
  set (with_avg := combine (seq 0 (length (Simulation.lifts s))) avgs).
  assert (Hpos : forall j b, In (j, b) with_avg <-> nth_error avgs j = Some b).
  { intros j b. unfold with_avg. rewrite <- Hlen. split.
    - intros H. apply combine_seq_in in H. destruct H as [_ H].
      now rewrite Nat.sub_0_r in H.
    - intros H. apply (combine_seq_nth avgs 0) in H. exact H. }
  destruct (sorted key Qle_bool with_avg) as [|[best best_avg] t] eqn:E.
  { exfalso. revert E. apply sorted_nonempty. unfold with_avg.
    destruct (Simulation.lifts s); [congruence|].
    destruct avgs; discriminate. }
  destruct (sorted_head_first_any key Qle_bool Qle_bool_total Qle_bool_trans
              _ _ _ E) as (pre & post & Hsplit & Hpre & Hall).
  assert (Hbest_in : In (best, best_avg) with_avg)
    by (rewrite Hsplit; apply in_or_app; right; now left).
  apply Hpos in Hbest_in.
  destruct (proj2 (Hnth best) _ Hbest_in) as (lbest & Hlbest & Habest).
  assert (Hnear : nearest s p best_avg).
  { intros j l b Hj Hb.
    destruct (proj1 (Hnth j) _ Hj) as (b' & Hb' & Hjb).
    assert (b' = b) by congruence. subst b'.
    apply Hpos in Hjb.
    apply Qle_bool_iff. exact (Hall _ Hjb). }
  destruct (filter _ with_avg) as [|[first_empty fa] ?] eqn:F.
  - exists best, lbest, best_avg. repeat (split; [assumption || reflexivity|]).
    left. split; [exact Hnear|]. left.
    intros j l' b Hj Hb Hz.
    destruct (proj1 (Hnth j) _ Hj) as (b' & Hb' & Hjb).
    assert (b' = b) by congruence. subst b'.
    apply Hpos in Hjb.
    assert (Hin : In (j, b) (filter (fun ia : nat * Q => Qeq_bool (snd ia) 0)
                                    with_avg)).
    { apply filter_In. split; [exact Hjb|]. now apply Qeq_bool_iff. }
    rewrite F in Hin. exact Hin.
  - destruct (Qle_bool 5 best_avg) eqn:E5; simpl.
    + destruct (filter_head_split _ _ _ _ F)
        as (fpre & fpost & Hfsplit & Hfz & Hfpre).
      assert (Hfe_in : In (first_empty, fa) with_avg)
        by (rewrite Hfsplit; apply in_or_app; right; now left).
      apply Hpos in Hfe_in.
      destruct (proj2 (Hnth first_empty) _ Hfe_in) as (lfe & Hlfe & Hafe).
      exists first_empty, lfe, fa.
      repeat (split; [assumption || reflexivity|]).
      right. split; [now apply Qeq_bool_iff in Hfz|]. split.
      * intros j l' b Hlt Hj Hb Hz.
        destruct (proj1 (Hnth j) _ Hj) as (b' & Hb' & Hjb).
        assert (b' = b) by congruence. subst b'.
        apply Hpos in Hjb. rewrite Hfsplit in Hjb. apply in_app_or in Hjb.
        destruct Hjb as [Hjb|[[= -> _]|Hjb]].
        -- specialize (Hfpre _ Hjb). simpl in Hfpre.
           apply Qeq_bool_iff in Hz. congruence.
        -- lia.
        -- pose proof (combine_seq_split_after _ _ _ _ _ _ Hlen Hfsplit
                         _ _ Hjb). lia.
      * exists best, lbest, best_avg.
        split; [exact Hlbest|]. split; [exact Habest|].
        split; [exact Hnear|]. now apply Qle_bool_iff.
    + exists best, lbest, best_avg.
      repeat (split; [assumption || reflexivity|]).
      left. split; [exact Hnear|]. right.
      apply Qnot_le_lt. intros Hle. apply Qle_bool_iff in Hle. congruence.
Qed.

Lemma assign_grouping_choice_witness :
  exists i l a,
    nth_error (Simulation.lifts four_lift_sim) i = Some l
    /\ Lift.get_avg_floor l = Ok a
    /\ Simulation.assign_grouping four_lift_sim (Passenger.new 6 7)
       = (Simulation.queue_on four_lift_sim i (Passenger.new 6 7), Ok tt)
    /\ ((nearest four_lift_sim (Passenger.new 6 7) a
         /\ ((forall j l' b,
                 nth_error (Simulation.lifts four_lift_sim) j = Some l' ->
                 Lift.get_avg_floor l' = Ok b -> ~ (b == 0)%Q)
             \/ (a < 5)%Q))
        \/ ((a == 0)%Q
            /\ (forall j l' b,
                   (j < i)%nat ->
                   nth_error (Simulation.lifts four_lift_sim) j = Some l' ->
                   Lift.get_avg_floor l' = Ok b -> ~ (b == 0)%Q)
            /\ exists k lk bk,
                nth_error (Simulation.lifts four_lift_sim) k = Some lk
                /\ Lift.get_avg_floor lk = Ok bk
                /\ nearest four_lift_sim (Passenger.new 6 7) bk
                /\ (5 <= bk)%Q)).
Proof.
  apply (assign_grouping_choice four_lift_sim (Passenger.new 6 7)).
  - discriminate.
  - repeat (apply Forall_cons; [reflexivity|]). apply Forall_nil.
Defined.
